(** * ProvInspector: the event-to-provenance translator

    A shallow embedding of [provinspector/provinspector.py],
    [provinspector/prov/model.py], [provinspector/domain/model.py],
    [provinspector/domain/constants.py], [provinspector/data.py] and
    [provinspector/storage/repository.py].

    Python objects with identity that the translator mutates in place (the
    [operators] and [connections] lists of a [PipelineVersionRevision], the
    class-level dictionary of [InMemoryRepository]) live in an explicit
    store; dataclass instances whose fields are never reassigned are plain
    values. Exceptions are results of a state-and-error monad in which the
    state reached at the [raise] survives, as it does in Python. *)

From Stdlib Require Import ZArith QArith String Ascii DecimalString DecimalZ.
From stdpp Require Import base strings list gmap.

Open Scope Z_scope.

(** ** Python scalars *)

(** Floats read from the wire ([timeStamp], metric and parameter values) are
    only stored, compared and printed, never computed with; a float is
    represented by the rational it denotes. *)
Definition pyfloat := Q.

(** [datetime.fromtimestamp] is kept symbolic: a [datetime] is the epoch
    instant it was built from. *)
Definition datetime := Q.

Definition fromtimestamp (t : pyfloat) : datetime := t.

(** The JSON scalars that [json.loads] hands to the translator. *)
Inductive pyvalue :=
| PyNone
| PyBool (b : bool)
| PyInt (z : Z)
| PyFloat (f : pyfloat)
| PyStr (s : string).

(** The numeric reading of a value: [bool] is a subclass of [int], and
    [int] compares with [float] by value. *)
Definition py_num (v : pyvalue) : option Q :=
  match v with
  | PyBool b => Some (inject_Z (if b then 1 else 0))
  | PyInt z => Some (inject_Z z)
  | PyFloat f => Some f
  | PyNone | PyStr _ => None
  end.

(** Python's [==] on scalars. *)
Definition py_eqb (a b : pyvalue) : bool :=
  match py_num a, py_num b with
  | Some x, Some y => Qeq_bool x y
  | None, None =>
      match a, b with
      | PyNone, PyNone => true
      | PyStr s, PyStr t => bool_decide (s = t)
      | _, _ => false
      end
  | _, _ => false
  end.

(** What the interpreter and the standard library decide at run time:
    the stream of [uuid4()] results, [hash] (salted per process), the
    shortest [repr] of a float, and the module constant
    [INITIAL_PIPELINE_VERSION_CREATION_ID = str(uuid4())] drawn at import. *)
Record Runtime := {
  uuid4 : nat -> string;
  py_hash : pyvalue -> Z;
  repr_float : pyfloat -> string;
  INITIAL_PIPELINE_VERSION_CREATION_ID : string
}.

(** [str(int)]. *)
Definition str_int (z : Z) : string := NilZero.string_of_int (Z.to_int z).

(** [str(value)] for a scalar. *)
Definition py_str (rt : Runtime) (v : pyvalue) : string :=
  match v with
  | PyNone => "None"
  | PyBool true => "True"
  | PyBool false => "False"
  | PyInt z => str_int z
  | PyFloat f => repr_float rt f
  | PyStr s => s
  end.

(** [urllib.parse.quote_plus(s, safe="")] on the UTF-8 bytes of [s]:
    letters, digits and [_.-~] are kept, a space becomes [+], every other
    byte becomes [%XX]. *)
Definition is_always_safe (c : ascii) : bool :=
  let n := N_of_ascii c in
  ((48 <=? n) && (n <=? 57) || (65 <=? n) && (n <=? 90)
   || (97 <=? n) && (n <=? 122)
   || (n =? 95) || (n =? 46) || (n =? 45) || (n =? 126))%N.

Definition hex_digit (n : N) : ascii :=
  if (n <? 10)%N then ascii_of_N (48 + n) else ascii_of_N (55 + n).

Definition quote_byte (c : ascii) : string :=
  if is_always_safe c then String c EmptyString
  else if (N_of_ascii c =? 32)%N then "+"
  else String "%" (String (hex_digit (N_of_ascii c / 16))
                     (String (hex_digit (N_of_ascii c mod 16)) EmptyString)).

Fixpoint quote_plus (s : string) : string :=
  match s with
  | EmptyString => EmptyString
  | String c s' => quote_byte c +:+ quote_plus s'
  end.

(** ** Enumerations and role names ([domain/constants.py]) *)

Inductive PipelineChangeType :=
| OPERATOR_CREATION
| OPERATOR_MODIFICATION
| OPERATOR_DELETION
| CONNECTION_CREATION
| CONNECTION_DELETION.

#[global] Instance PipelineChangeType_eq_dec : EqDecision PipelineChangeType.
Proof. solve_decision. Defined.

Definition PipelineChangeType_str (c : PipelineChangeType) : string :=
  match c with
  | OPERATOR_CREATION => "OperatorCreation"
  | OPERATOR_MODIFICATION => "OperatorModification"
  | OPERATOR_DELETION => "OperatorDeletion"
  | CONNECTION_CREATION => "ConnectionCreation"
  | CONNECTION_DELETION => "ConnectionDeletion"
  end.

Inductive OperatorStepType :=
| ON_SOURCE_PRODUCED_TUPLE
| ON_TUPLE_TRANSMITTED
| ON_STREAM_PROCESS_TUPLE
| PRE_TUPLE_PROCESSED
| ON_TUPLE_PROCESSED
| ON_OP_EXECUTED.

Definition OperatorStepType_str (c : OperatorStepType) : string :=
  match c with
  | ON_SOURCE_PRODUCED_TUPLE => "OnSourceProducedTuple"
  | ON_TUPLE_TRANSMITTED => "OnTupleTransmitted"
  | ON_STREAM_PROCESS_TUPLE => "OnStreamProcessTuple"
  | PRE_TUPLE_PROCESSED => "PreTupleProcessed"
  | ON_TUPLE_PROCESSED => "OnTupleProcessed"
  | ON_OP_EXECUTED => "OnOpExecuted"
  end.

(** The member names, as [Enum.name] gives them. *)
Definition PipelineChangeType_name (c : PipelineChangeType) : string :=
  match c with
  | OPERATOR_CREATION => "OPERATOR_CREATION"
  | OPERATOR_MODIFICATION => "OPERATOR_MODIFICATION"
  | OPERATOR_DELETION => "OPERATOR_DELETION"
  | CONNECTION_CREATION => "CONNECTION_CREATION"
  | CONNECTION_DELETION => "CONNECTION_DELETION"
  end.

Definition OperatorStepType_name (c : OperatorStepType) : string :=
  match c with
  | ON_SOURCE_PRODUCED_TUPLE => "ON_SOURCE_PRODUCED_TUPLE"
  | ON_TUPLE_TRANSMITTED => "ON_TUPLE_TRANSMITTED"
  | ON_STREAM_PROCESS_TUPLE => "ON_STREAM_PROCESS_TUPLE"
  | PRE_TUPLE_PROCESSED => "PRE_TUPLE_PROCESSED"
  | ON_TUPLE_PROCESSED => "ON_TUPLE_PROCESSED"
  | ON_OP_EXECUTED => "ON_OP_EXECUTED"
  end.

(** [PipelineChangeType.from_string]: a chain of membership tests on pairs
    of literals; [None] stands for [NotImplementedError]. *)
Definition PipelineChangeType_from_string (pipeline_change_type_str : string)
  : option PipelineChangeType :=
  let s := pipeline_change_type_str in
  if String.eqb s "OPERATOR_CREATION" || String.eqb s "OperatorCreation"
  then Some OPERATOR_CREATION
  else if String.eqb s "OPERATOR_MODIFICATION" || String.eqb s "OperatorModification"
  then Some OPERATOR_MODIFICATION
  else if String.eqb s "OPERATOR_DELETION" || String.eqb s "OperatorDeletion"
  then Some OPERATOR_DELETION
  else if String.eqb s "CONNECTION_CREATION" || String.eqb s "ConnectionCreation"
  then Some CONNECTION_CREATION
  else if String.eqb s "CONNECTION_DELETION" || String.eqb s "ConnectionDeletion"
  then Some CONNECTION_DELETION
  else None.

(** [PipelineChangeType.to_string]: [str] of the member. *)
Definition PipelineChangeType_to_string (pipeline_change_type : PipelineChangeType)
  : string :=
  PipelineChangeType_str pipeline_change_type.

(** [OperatorStepType.from_string]; [None] stands for [NotImplementedError]. *)
Definition OperatorStepType_from_string (format_str : string) : option OperatorStepType :=
  let s := format_str in
  if String.eqb s "ON_SOURCE_PRODUCED_TUPLE" || String.eqb s "OnSourceProducedTuple"
  then Some ON_SOURCE_PRODUCED_TUPLE
  else if String.eqb s "ON_TUPLE_TRANSMITTED" || String.eqb s "OnTupleTransmitted"
  then Some ON_TUPLE_TRANSMITTED
  else if String.eqb s "ON_STREAM_PROCESS_TUPLE" || String.eqb s "OnStreamProcessTuple"
  then Some ON_STREAM_PROCESS_TUPLE
  else if String.eqb s "PRE_TUPLE_PROCESSED" || String.eqb s "PreTupleProcessed"
  then Some PRE_TUPLE_PROCESSED
  else if String.eqb s "ON_TUPLE_PROCESSED" || String.eqb s "OnTupleProcessed"
  then Some ON_TUPLE_PROCESSED
  else if String.eqb s "ON_OP_EXECUTED" || String.eqb s "OnOpExecuted"
  then Some ON_OP_EXECUTED
  else None.

(** [OperatorStepType.to_string]. *)
Definition OperatorStepType_to_string (pipeline_change_type : OperatorStepType) : string :=
  OperatorStepType_str pipeline_change_type.

Module ProvRole.
Definition CREATED_PIPELINE_VERSION : string := "CreatedPipelineVersion".
Definition CREATED_PIPELINE_VERSION_REVISION : string :=
  "CreatedPipelineVersionRevision".
Definition CREATED_OPERATOR : string := "CreatedOperator".
Definition MODIFIED_OPERATOR : string := "ModifiedOperator".
Definition DELETED_OPERATOR : string := "DeletedOperator".
Definition CREATED_CONNECTION : string := "CreatedConnection".
Definition DELETED_CONNECTION : string := "DeletedConnection".
Definition CREATED_OPERATOR_RUN : string := "AddedOperatorRun".
Definition USED_PARENT_PIPELINE_VERSION : string := "UsedParentPipelineVersion".
Definition USED_PARENT_PIPELINE_VERSION_REVISION : string :=
  "UsedParentPipelineVersionRevision".
Definition USED_OPERATOR_REVISION : string := "UsedOperatorRevision".
Definition USED_PARENT_OPERATOR_REVISION : string := "UsedParentOperatorRevision".
End ProvRole.

Module ProvType.
Definition PIPELINE_VERSION : string := "PipelineVersion".
Definition PIPELINE_VERSION_REVISION : string := "PipelineVersionRevision".
Definition OPERATOR : string := "Operator".
Definition OPERATOR_REVISION : string := "OperatorRevision".
Definition PARAMETER : string := "Parameter".
Definition OPERATOR_RUN : string := "OperatorRun".
Definition METRIC : string := "Metric".
Definition CONNECTION : string := "Connection".
Definition PIPELINE_VERSION_CREATION : string := "PipelineVersionCreation".
Definition PIPELINE_CHANGE : string := "PipelineChange".
Definition OPERATOR_EXECUTION : string := "OperatorExecution".
End ProvType.

(** ** The part of the [prov] library the translator drives

    A [ProvDocument] is the sequence of records that [new_record] appended
    to it; an element is an entity or an activity with its identifier and
    attributes, a relation carries the values of the first two formal
    attributes of its class (source and target). *)

Record Namespace := { ns_prefix : string; ns_uri : string }.

Record QualifiedName := { qn_namespace : Namespace; qn_localpart : string }.

(** [str(QualifiedName)]: [prefix:localpart], or the local part alone under
    the default namespace, whose prefix is empty. *)
Definition qn_str (q : QualifiedName) : string :=
  if bool_decide (ns_prefix (qn_namespace q) = EmptyString)
  then qn_localpart q
  else ns_prefix (qn_namespace q) +:+ ":" +:+ qn_localpart q.

(** The URI of a qualified name, on which the library compares names. *)
Definition qn_uri (q : QualifiedName) : string :=
  ns_uri (qn_namespace q) +:+ qn_localpart q.

(** [utils/prov_utils.py]: [document_factory().get_default_namespace()]. *)
Definition default_namespace : Namespace :=
  {| ns_prefix := EmptyString;
     ns_uri := "https://dbgit.prakinf.tu-ilmenau.de/masc7357/provinspector/" |}.

Definition qualified_name (localpart : string) : QualifiedName :=
  {| qn_namespace := default_namespace; qn_localpart := localpart |}.

(** [prov/model.py]: [DEFAULT_NAMESPACE = Namespace("ex", "example.org")]. *)
Definition DEFAULT_NAMESPACE : Namespace :=
  {| ns_prefix := "ex"; ns_uri := "example.org" |}.

(** The [prov] namespace, for [PROV["Revision"]] and [PROV["collection"]]. *)
Definition PROV (localpart : string) : QualifiedName :=
  {| qn_namespace := {| ns_prefix := "prov"; ns_uri := "http://www.w3.org/ns/prov#" |};
     qn_localpart := localpart |}.

Inductive AttrValue :=
| AInt (z : Z)
| AStr (s : string)
| ATime (t : datetime)
| APy (v : pyvalue)
| AQName (q : QualifiedName).

Definition Attributes := list (string * AttrValue).

(** Attribute names, as [str] prints the library's qualified names. *)
Definition PROV_TYPE : string := "prov:type".
Definition PROV_ROLE : string := "prov:role".
Definition PROV_ATTR_TIME : string := "prov:time".
Definition PROV_ATTR_STARTTIME : string := "prov:startTime".
Definition PROV_ATTR_ENDTIME : string := "prov:endTime".

(** The record types ([_prov_type]) the translator emits. *)
Inductive ProvRecordType :=
| PROV_ENTITY
| PROV_ACTIVITY
| PROV_GENERATION
| PROV_USAGE
| PROV_COMMUNICATION
| PROV_DERIVATION
| PROV_INVALIDATION
| PROV_MEMBERSHIP
| PROV_SPECIALIZATION.

Record ProvElement := {
  el_prov_type : ProvRecordType;
  el_identifier : QualifiedName;
  el_attributes : Attributes
}.

Record ProvRelationRecord := {
  rel_prov_type : ProvRecordType;
  rel_identifier : option QualifiedName;
  rel_source : ProvElement;
  rel_target : ProvElement;
  rel_attributes : Attributes
}.

Inductive ProvRecord :=
| Element (e : ProvElement)
| Relation (r : ProvRelationRecord).

Definition ProvDocument := list ProvRecord.

(** The relation classes passed as [relationship_type]. [ProvRevision] is
    the subclass of [ProvDerivation] declared in [prov/model.py]; it
    inherits [_prov_type]. *)
Inductive ProvRelation :=
| ProvGeneration
| ProvUsage
| ProvCommunication
| ProvDerivation
| ProvRevision
| ProvInvalidation
| ProvMembership
| ProvSpecialization.

Definition relation_prov_type (k : ProvRelation) : ProvRecordType :=
  match k with
  | ProvGeneration => PROV_GENERATION
  | ProvUsage => PROV_USAGE
  | ProvCommunication => PROV_COMMUNICATION
  | ProvDerivation | ProvRevision => PROV_DERIVATION
  | ProvInvalidation => PROV_INVALIDATION
  | ProvMembership => PROV_MEMBERSHIP
  | ProvSpecialization => PROV_SPECIALIZATION
  end.

(** Every domain record offers [to_prov]; the builders are duck-typed on it. *)
Class ToProv (A : Type) := to_prov : Runtime -> A -> ProvElement.

(** ** Domain records ([domain/model.py]) *)

(** Address of a Python list object. *)
Definition loc := nat.

Module PipelineVersion.
Record t := mk { id_ : Z; parent_pipeline_version_id : option Z }.

Definition prov_identifier (self : t) : QualifiedName :=
  qualified_name ("PipelineVersion?id=" +:+ quote_plus (str_int (id_ self))).

Definition to_prov (rt : Runtime) (self : t) : ProvElement :=
  {| el_prov_type := PROV_ENTITY;
     el_identifier := prov_identifier self;
     el_attributes :=
       [("id", AInt (id_ self)); (PROV_TYPE, AStr ProvType.PIPELINE_VERSION)] |}.

(** The dataclass [__eq__]. *)
Definition eqb (a b : t) : bool :=
  bool_decide (id_ a = id_ b)
  && bool_decide (parent_pipeline_version_id a = parent_pipeline_version_id b).
End PipelineVersion.

Module PipelineVersionRevision.
Record t := mk {
  uuid : string;
  id_ : Z;
  pipeline_version : PipelineVersion.t;
  parent_pipeline_version_revision_uuid : option string;
  operators : loc;
  connections : loc
}.

Definition prov_identifier (self : t) : QualifiedName :=
  qualified_name ("PipelineVersionRevision?uuid=" +:+ quote_plus (uuid self)).

Definition to_prov (rt : Runtime) (self : t) : ProvElement :=
  {| el_prov_type := PROV_ENTITY;
     el_identifier := prov_identifier self;
     el_attributes :=
       [("uuid", AStr (uuid self)); ("id", AInt (id_ self));
        (PROV_TYPE, AStr ProvType.PIPELINE_VERSION_REVISION)] |}.
End PipelineVersionRevision.

Module Operator.
Record t := mk { id_ : Z; name : string }.

Definition prov_identifier (self : t) : QualifiedName :=
  qualified_name ("Operator?id=" +:+ quote_plus (str_int (id_ self))).

Definition to_prov (rt : Runtime) (self : t) : ProvElement :=
  {| el_prov_type := PROV_ENTITY;
     el_identifier := prov_identifier self;
     el_attributes :=
       [("id", AInt (id_ self)); ("name", AStr (name self));
        (PROV_TYPE, AStr ProvType.OPERATOR)] |}.

Definition eqb (a b : t) : bool :=
  bool_decide (id_ a = id_ b) && bool_decide (name a = name b).
End Operator.

(** The dataclass [Parameter]; the name is a reserved word here. *)
Module Param.
Record t := mk { name : string; value : pyvalue }.

Definition prov_identifier (rt : Runtime) (self : t) : QualifiedName :=
  qualified_name ("Parameter?name=" +:+ quote_plus (name self)
                  +:+ "&value=" +:+ str_int (py_hash rt (value self))).

Definition to_prov (rt : Runtime) (self : t) : ProvElement :=
  {| el_prov_type := PROV_ENTITY;
     el_identifier := prov_identifier rt self;
     el_attributes :=
       [("name", AStr (name self)); ("value", AInt (py_hash rt (value self)));
        (PROV_TYPE, AStr ProvType.PARAMETER)] |}.

Definition eqb (a b : t) : bool :=
  bool_decide (name a = name b) && py_eqb (value a) (value b).
End Param.

(** [list.__eq__]: same length and elementwise equal. *)
Fixpoint list_eqb {A : Type} (eqb : A -> A -> bool) (l1 l2 : list A) : bool :=
  match l1, l2 with
  | [], [] => true
  | x :: l1', y :: l2' => eqb x y && list_eqb eqb l1' l2'
  | _, _ => false
  end.

Module OperatorRevision.
Record t := mk {
  uuid : string;
  id_ : Z;
  operator : Operator.t;
  parameters : list Param.t;
  parent_operator_revision_uuid : option string
}.

Definition prov_identifier (self : t) : QualifiedName :=
  qualified_name ("OperatorRevision?uuid=" +:+ quote_plus (uuid self)).

Definition to_prov (rt : Runtime) (self : t) : ProvElement :=
  {| el_prov_type := PROV_ENTITY;
     el_identifier := prov_identifier self;
     el_attributes :=
       [("uuid", AStr (uuid self)); ("id", AInt (id_ self));
        (PROV_TYPE, AStr ProvType.OPERATOR_REVISION)] |}.

Definition eqb (a b : t) : bool :=
  bool_decide (uuid a = uuid b)
  && bool_decide (id_ a = id_ b)
  && Operator.eqb (operator a) (operator b)
  && list_eqb Param.eqb (parameters a) (parameters b)
  && bool_decide (parent_operator_revision_uuid a = parent_operator_revision_uuid b).
End OperatorRevision.

Module Metric.
Record t := mk { name : string; value : pyvalue }.

Definition prov_identifier (rt : Runtime) (self : t) : QualifiedName :=
  qualified_name ("Metric?name=" +:+ quote_plus (name self)
                  +:+ "&value=" +:+ py_str rt (value self)).

Definition to_prov (rt : Runtime) (self : t) : ProvElement :=
  {| el_prov_type := PROV_ENTITY;
     el_identifier := prov_identifier rt self;
     el_attributes :=
       [("name", AStr (name self)); ("value", APy (value self));
        (PROV_TYPE, AStr ProvType.METRIC)] |}.
End Metric.

Module OperatorRun.
Record t := mk { id_ : string; created_at : datetime; metrics : list Metric.t }.

Definition prov_identifier (self : t) : QualifiedName :=
  qualified_name ("OperatorRun?id=" +:+ quote_plus (id_ self)).

Definition to_prov (rt : Runtime) (self : t) : ProvElement :=
  {| el_prov_type := PROV_ENTITY;
     el_identifier := prov_identifier self;
     el_attributes :=
       [("id", AStr (id_ self)); ("time", ATime (created_at self));
        (PROV_TYPE, AStr ProvType.OPERATOR_RUN);
        (PROV_TYPE, AQName (PROV "collection"))] |}.
End OperatorRun.

Module Connection.
Record t := mk { id_ : Z; from_operator_id : Z; to_operator_id : Z }.

Definition prov_identifier (self : t) : QualifiedName :=
  qualified_name ("Connection?id=" +:+ quote_plus (str_int (id_ self))).

Definition to_prov (rt : Runtime) (self : t) : ProvElement :=
  {| el_prov_type := PROV_ENTITY;
     el_identifier := prov_identifier self;
     el_attributes :=
       [("id", AInt (id_ self));
        ("from_operator_id", AStr (str_int (from_operator_id self)));
        ("to_operator_id", AStr (str_int (to_operator_id self)));
        (PROV_TYPE, AStr ProvType.CONNECTION)] |}.

Definition eqb (a b : t) : bool :=
  bool_decide (id_ a = id_ b)
  && bool_decide (from_operator_id a = from_operator_id b)
  && bool_decide (to_operator_id a = to_operator_id b).
End Connection.

Module PipelineVersionCreation.
Record t := mk {
  uuid : string;
  pipeline_version_revision : PipelineVersionRevision.t;
  parent_pipeline_version_creation_uuid : option string;
  time : datetime
}.

Definition prov_identifier (self : t) : QualifiedName :=
  qualified_name ("PipelineVersionCreation?uuid=" +:+ quote_plus (uuid self)).

Definition to_prov (rt : Runtime) (self : t) : ProvElement :=
  {| el_prov_type := PROV_ACTIVITY;
     el_identifier := prov_identifier self;
     el_attributes :=
       [("uuid", AStr (uuid self));
        (PROV_ATTR_STARTTIME, ATime (time self));
        (PROV_ATTR_ENDTIME, ATime (time self));
        (PROV_TYPE, AStr ProvType.PIPELINE_VERSION_CREATION)] |}.
End PipelineVersionCreation.

(** The run-time class of a pipeline change: the base class or one of its
    five subclasses. The repository files records under their exact class. *)
Inductive ChangeClass :=
| PipelineChangeBase
| OperatorCreationPipelineChange
| OperatorModificationPipelineChange
| OperatorDeletionPipelineChange
| ConnectionCreationPipelineChange
| ConnectionDeletionPipelineChange.

Module PipelineChange.
Record t := mk {
  uuid : string;
  pipeline_change_type : PipelineChangeType;
  time : datetime;
  operator_revision : option OperatorRevision.t;
  connection : option Connection.t;
  pipeline_version_revision : PipelineVersionRevision.t;
  parent_pipeline_change_uuid : option string
}.

Definition prov_identifier (self : t) : QualifiedName :=
  qualified_name ("PipelineChange?uuid=" +:+ quote_plus (uuid self)).

Definition to_prov (rt : Runtime) (self : t) : ProvElement :=
  {| el_prov_type := PROV_ACTIVITY;
     el_identifier := prov_identifier self;
     el_attributes :=
       [("uuid", AStr (uuid self));
        ("pipeline_change_type", AStr (PipelineChangeType_str (pipeline_change_type self)));
        (PROV_ATTR_STARTTIME, ATime (time self));
        (PROV_ATTR_ENDTIME, ATime (time self));
        (PROV_TYPE, AStr ProvType.PIPELINE_CHANGE)] |}.
End PipelineChange.

Module OperatorExecution.
Record t := mk {
  uuid : string;
  operator_revision : OperatorRevision.t;
  operator_run : OperatorRun.t;
  operator_step_type : OperatorStepType;
  time : datetime
}.

Definition prov_identifier (self : t) : QualifiedName :=
  qualified_name ("OperatorExecution?uuid=" +:+ quote_plus (uuid self)).

Definition to_prov (rt : Runtime) (self : t) : ProvElement :=
  {| el_prov_type := PROV_ACTIVITY;
     el_identifier := prov_identifier self;
     el_attributes :=
       [("uuid", AStr (uuid self));
        ("pipeline_change_type", AStr (OperatorStepType_str (operator_step_type self)));
        (PROV_ATTR_STARTTIME, ATime (time self));
        (PROV_ATTR_ENDTIME, ATime (time self));
        (PROV_TYPE, AStr ProvType.OPERATOR_EXECUTION)] |}.
End OperatorExecution.

#[global] Instance PipelineVersion_ToProv : ToProv PipelineVersion.t :=
  PipelineVersion.to_prov.
#[global] Instance PipelineVersionRevision_ToProv : ToProv PipelineVersionRevision.t :=
  PipelineVersionRevision.to_prov.
#[global] Instance Operator_ToProv : ToProv Operator.t := Operator.to_prov.
#[global] Instance Param_ToProv : ToProv Param.t := Param.to_prov.
#[global] Instance OperatorRevision_ToProv : ToProv OperatorRevision.t :=
  OperatorRevision.to_prov.
#[global] Instance Metric_ToProv : ToProv Metric.t := Metric.to_prov.
#[global] Instance OperatorRun_ToProv : ToProv OperatorRun.t := OperatorRun.to_prov.
#[global] Instance Connection_ToProv : ToProv Connection.t := Connection.to_prov.
#[global] Instance PipelineVersionCreation_ToProv : ToProv PipelineVersionCreation.t :=
  PipelineVersionCreation.to_prov.
#[global] Instance PipelineChange_ToProv : ToProv PipelineChange.t :=
  PipelineChange.to_prov.
#[global] Instance OperatorExecution_ToProv : ToProv OperatorExecution.t :=
  OperatorExecution.to_prov.

(** ** Process state *)

(** The classes under which the translator files or looks up records. *)
Inductive ResourceType :=
| TPipelineVersion
| TPipelineVersionRevision
| TPipelineVersionCreation
| TPipelineChange (c : ChangeClass).

Definition carrier (ty : ResourceType) : Type :=
  match ty with
  | TPipelineVersion => PipelineVersion.t
  | TPipelineVersionRevision => PipelineVersionRevision.t
  | TPipelineVersionCreation => PipelineVersionCreation.t
  | TPipelineChange _ => PipelineChange.t
  end.

#[global] Instance ChangeClass_eq_dec : EqDecision ChangeClass.
Proof. solve_decision. Defined.

#[global] Instance ResourceType_eq_dec : EqDecision ResourceType.
Proof. solve_decision. Defined.

(** An [InMemoryRepository] object. The dataclass declares no field, so an
    instance is nothing but its identity. *)
Record RepositoryInstance := { instance_id : nat }.

(** Everything an [update] can reach: the fields of the [ProvInspector]
    object, the class attribute [InMemoryRepository.repo] (a
    [defaultdict(list)] keyed by class, each bucket in insertion order), the
    list objects referenced by the revisions, the number of [uuid4()] calls
    made so far, the graphs handed to [ProvGraphDatabase.import_graph], and
    the warnings issued. *)
Record State := {
  object_repository : RepositoryInstance;
  initialized : bool;
  last_pipeline_version_id : Z;
  last_pipeline_version_revision_id : Z;
  repo : forall ty : ResourceType, list (carrier ty);
  operator_lists : gmap loc (list OperatorRevision.t);
  connection_lists : gmap loc (list Connection.t);
  next_loc : loc;
  uuid_count : nat;
  imported : list ProvDocument;
  warnings : list string
}.

Definition set_initialized (b : bool) (s : State) : State :=
  {| object_repository := object_repository s;
     initialized := b;
     last_pipeline_version_id := last_pipeline_version_id s;
     last_pipeline_version_revision_id := last_pipeline_version_revision_id s;
     repo := repo s; operator_lists := operator_lists s;
     connection_lists := connection_lists s; next_loc := next_loc s;
     uuid_count := uuid_count s; imported := imported s; warnings := warnings s |}.

Definition set_last_pipeline_version_id (z : Z) (s : State) : State :=
  {| object_repository := object_repository s;
     initialized := initialized s;
     last_pipeline_version_id := z;
     last_pipeline_version_revision_id := last_pipeline_version_revision_id s;
     repo := repo s; operator_lists := operator_lists s;
     connection_lists := connection_lists s; next_loc := next_loc s;
     uuid_count := uuid_count s; imported := imported s; warnings := warnings s |}.

Definition set_last_pipeline_version_revision_id (z : Z) (s : State) : State :=
  {| object_repository := object_repository s;
     initialized := initialized s;
     last_pipeline_version_id := last_pipeline_version_id s;
     last_pipeline_version_revision_id := z;
     repo := repo s; operator_lists := operator_lists s;
     connection_lists := connection_lists s; next_loc := next_loc s;
     uuid_count := uuid_count s; imported := imported s; warnings := warnings s |}.

Definition set_repo (r : forall ty : ResourceType, list (carrier ty)) (s : State) : State :=
  {| object_repository := object_repository s;
     initialized := initialized s;
     last_pipeline_version_id := last_pipeline_version_id s;
     last_pipeline_version_revision_id := last_pipeline_version_revision_id s;
     repo := r; operator_lists := operator_lists s;
     connection_lists := connection_lists s; next_loc := next_loc s;
     uuid_count := uuid_count s; imported := imported s; warnings := warnings s |}.

Definition set_operator_lists (h : gmap loc (list OperatorRevision.t)) (s : State) : State :=
  {| object_repository := object_repository s;
     initialized := initialized s;
     last_pipeline_version_id := last_pipeline_version_id s;
     last_pipeline_version_revision_id := last_pipeline_version_revision_id s;
     repo := repo s; operator_lists := h;
     connection_lists := connection_lists s; next_loc := next_loc s;
     uuid_count := uuid_count s; imported := imported s; warnings := warnings s |}.

Definition set_connection_lists (h : gmap loc (list Connection.t)) (s : State) : State :=
  {| object_repository := object_repository s;
     initialized := initialized s;
     last_pipeline_version_id := last_pipeline_version_id s;
     last_pipeline_version_revision_id := last_pipeline_version_revision_id s;
     repo := repo s; operator_lists := operator_lists s;
     connection_lists := h; next_loc := next_loc s;
     uuid_count := uuid_count s; imported := imported s; warnings := warnings s |}.

Definition set_next_loc (l : loc) (s : State) : State :=
  {| object_repository := object_repository s;
     initialized := initialized s;
     last_pipeline_version_id := last_pipeline_version_id s;
     last_pipeline_version_revision_id := last_pipeline_version_revision_id s;
     repo := repo s; operator_lists := operator_lists s;
     connection_lists := connection_lists s; next_loc := l;
     uuid_count := uuid_count s; imported := imported s; warnings := warnings s |}.

Definition set_uuid_count (n : nat) (s : State) : State :=
  {| object_repository := object_repository s;
     initialized := initialized s;
     last_pipeline_version_id := last_pipeline_version_id s;
     last_pipeline_version_revision_id := last_pipeline_version_revision_id s;
     repo := repo s; operator_lists := operator_lists s;
     connection_lists := connection_lists s; next_loc := next_loc s;
     uuid_count := n; imported := imported s; warnings := warnings s |}.

Definition set_imported (d : list ProvDocument) (s : State) : State :=
  {| object_repository := object_repository s;
     initialized := initialized s;
     last_pipeline_version_id := last_pipeline_version_id s;
     last_pipeline_version_revision_id := last_pipeline_version_revision_id s;
     repo := repo s; operator_lists := operator_lists s;
     connection_lists := connection_lists s; next_loc := next_loc s;
     uuid_count := uuid_count s; imported := d; warnings := warnings s |}.

Definition set_warnings (w : list string) (s : State) : State :=
  {| object_repository := object_repository s;
     initialized := initialized s;
     last_pipeline_version_id := last_pipeline_version_id s;
     last_pipeline_version_revision_id := last_pipeline_version_revision_id s;
     repo := repo s; operator_lists := operator_lists s;
     connection_lists := connection_lists s; next_loc := next_loc s;
     uuid_count := uuid_count s; imported := imported s; warnings := w |}.

(** The elements of the list objects a revision refers to. *)
Definition operators_of (s : State) (r : PipelineVersionRevision.t) : list OperatorRevision.t :=
  operator_lists s !!! PipelineVersionRevision.operators r.

Definition connections_of (s : State) (r : PipelineVersionRevision.t) : list Connection.t :=
  connection_lists s !!! PipelineVersionRevision.connections r.

(** [PipelineVersionRevision.__eq__]: the dataclass compares the six
    fields, the two lists by their elements. *)
Definition PipelineVersionRevision_eqb (s : State) (a b : PipelineVersionRevision.t) : bool :=
  bool_decide (PipelineVersionRevision.uuid a = PipelineVersionRevision.uuid b)
  && bool_decide (PipelineVersionRevision.id_ a = PipelineVersionRevision.id_ b)
  && PipelineVersion.eqb (PipelineVersionRevision.pipeline_version a)
       (PipelineVersionRevision.pipeline_version b)
  && bool_decide (PipelineVersionRevision.parent_pipeline_version_revision_uuid a
                  = PipelineVersionRevision.parent_pipeline_version_revision_uuid b)
  && list_eqb OperatorRevision.eqb (operators_of s a) (operators_of s b)
  && list_eqb Connection.eqb (connections_of s a) (connections_of s b).

(** ** Attribute access on stored records *)

(** The values a field of a stored record can hold, or a filter can ask for. *)
Inductive Value :=
| VNone
| VInt (z : Z)
| VStr (s : string)
| VTime (t : datetime)
| VChangeType (c : PipelineChangeType)
| VQName (q : QualifiedName)
| VPipelineVersion (pv : PipelineVersion.t)
| VPipelineVersionRevision (r : PipelineVersionRevision.t)
| VOperatorRevision (o : OperatorRevision.t)
| VConnection (c : Connection.t)
| VOperatorList (l : loc)
| VConnectionList (l : loc).

Definition VOptInt (o : option Z) : Value :=
  match o with Some z => VInt z | None => VNone end.

Definition VOptStr (o : option string) : Value :=
  match o with Some s => VStr s | None => VNone end.

Definition VOptOperatorRevision (o : option OperatorRevision.t) : Value :=
  match o with Some r => VOperatorRevision r | None => VNone end.

Definition VOptConnection (o : option Connection.t) : Value :=
  match o with Some c => VConnection c | None => VNone end.

(** Python's [==] between two such values; values of unrelated classes are
    unequal. *)
Definition value_eqb (s : State) (a b : Value) : bool :=
  match a, b with
  | VNone, VNone => true
  | VInt x, VInt y => bool_decide (x = y)
  | VStr x, VStr y => bool_decide (x = y)
  | VTime x, VTime y => Qeq_bool x y
  | VChangeType x, VChangeType y => bool_decide (x = y)
  | VQName x, VQName y => bool_decide (qn_uri x = qn_uri y)
  | VPipelineVersion x, VPipelineVersion y => PipelineVersion.eqb x y
  | VPipelineVersionRevision x, VPipelineVersionRevision y =>
      PipelineVersionRevision_eqb s x y
  | VOperatorRevision x, VOperatorRevision y => OperatorRevision.eqb x y
  | VConnection x, VConnection y => Connection.eqb x y
  | VOperatorList x, VOperatorList y =>
      list_eqb OperatorRevision.eqb (operator_lists s !!! x) (operator_lists s !!! y)
  | VConnectionList x, VConnectionList y =>
      list_eqb Connection.eqb (connection_lists s !!! x) (connection_lists s !!! y)
  | _, _ => false
  end.

Definition lookup_field (fields : list (string * Value)) (key : string) : option Value :=
  snd <$> List.find (fun kv => String.eqb (fst kv) key) fields.

Definition PipelineVersion_fields (r : PipelineVersion.t) : list (string * Value) :=
  [("id_", VInt (PipelineVersion.id_ r));
   ("parent_pipeline_version_id", VOptInt (PipelineVersion.parent_pipeline_version_id r));
   ("prov_identifier", VQName (PipelineVersion.prov_identifier r))].

Definition PipelineVersionRevision_fields (r : PipelineVersionRevision.t) : list (string * Value) :=
  [("uuid", VStr (PipelineVersionRevision.uuid r));
   ("id_", VInt (PipelineVersionRevision.id_ r));
   ("pipeline_version", VPipelineVersion (PipelineVersionRevision.pipeline_version r));
   ("parent_pipeline_version_revision_uuid",
     VOptStr (PipelineVersionRevision.parent_pipeline_version_revision_uuid r));
   ("operators", VOperatorList (PipelineVersionRevision.operators r));
   ("connections", VConnectionList (PipelineVersionRevision.connections r));
   ("prov_identifier", VQName (PipelineVersionRevision.prov_identifier r))].

Definition PipelineVersionCreation_fields (r : PipelineVersionCreation.t) : list (string * Value) :=
  [("uuid", VStr (PipelineVersionCreation.uuid r));
   ("pipeline_version_revision",
     VPipelineVersionRevision (PipelineVersionCreation.pipeline_version_revision r));
   ("parent_pipeline_version_creation_uuid",
     VOptStr (PipelineVersionCreation.parent_pipeline_version_creation_uuid r));
   ("time", VTime (PipelineVersionCreation.time r));
   ("prov_identifier", VQName (PipelineVersionCreation.prov_identifier r))].

Definition PipelineChange_fields (r : PipelineChange.t) : list (string * Value) :=
  [("uuid", VStr (PipelineChange.uuid r));
   ("pipeline_change_type", VChangeType (PipelineChange.pipeline_change_type r));
   ("time", VTime (PipelineChange.time r));
   ("operator_revision", VOptOperatorRevision (PipelineChange.operator_revision r));
   ("connection", VOptConnection (PipelineChange.connection r));
   ("pipeline_version_revision",
     VPipelineVersionRevision (PipelineChange.pipeline_version_revision r));
   ("parent_pipeline_change_uuid", VOptStr (PipelineChange.parent_pipeline_change_uuid r));
   ("prov_identifier", VQName (PipelineChange.prov_identifier r))].

(** [getattr(r, key)] on a stored record: its dataclass fields and the
    [prov_identifier] property; [None] stands for [AttributeError]. *)
Definition getattr (ty : ResourceType) : carrier ty -> string -> option Value :=
  match ty with
  | TPipelineVersion => fun r => lookup_field (PipelineVersion_fields r)
  | TPipelineVersionRevision => fun r => lookup_field (PipelineVersionRevision_fields r)
  | TPipelineVersionCreation => fun r => lookup_field (PipelineVersionCreation_fields r)
  | TPipelineChange _ => fun r => lookup_field (PipelineChange_fields r)
  end.

(** ** Exceptions and the translator monad *)

Inductive exn :=
| StopIteration
| IndexError
| AttributeError
| ValueError.

Definition M (A : Type) : Type := State -> State * (exn + A).

Definition ret {A : Type} (a : A) : M A := fun s => (s, inr a).

Definition raise {A : Type} (e : exn) : M A := fun s => (s, inl e).

Definition bind {A B : Type} (m : M A) (k : A -> M B) : M B :=
  fun s =>
    match m s with
    | (s', inr a) => k a s'
    | (s', inl e) => (s', inl e)
    end.

Notation "'let!' x ':=' m 'in' k" := (bind m (fun x => k))
  (at level 10, x name, m at level 100, k at level 200).

Notation "'let!' ' p ':=' m 'in' k" := (bind m (fun x => match x with p => k end))
  (at level 10, p pattern, m at level 100, k at level 200).

Definition get_state : M State := fun s => (s, inr s).

Definition modify (f : State -> State) : M unit := fun s => (f s, inr tt).

Definition lift_result {A : Type} (r : exn + A) : M A := fun s => (s, r).

(** A [for] loop over a list, stopping at the first exception. *)
Fixpoint for_each {A : Type} (l : list A) (body : A -> M unit) : M unit :=
  match l with
  | [] => ret tt
  | x :: l' => let! _ := body x in for_each l' body
  end.

(** [str(uuid4())]. *)
Definition fresh_uuid (rt : Runtime) : M string :=
  fun s => (set_uuid_count (S (uuid_count s)) s, inr (uuid4 rt (uuid_count s))).

(** A list display or [list()] call: a new list object. *)
Definition new_operator_list (l : list OperatorRevision.t) : M loc :=
  fun s =>
    (set_next_loc (S (next_loc s))
       (set_operator_lists (<[next_loc s := l]> (operator_lists s)) s),
     inr (next_loc s)).

Definition new_connection_list (l : list Connection.t) : M loc :=
  fun s =>
    (set_next_loc (S (next_loc s))
       (set_connection_lists (<[next_loc s := l]> (connection_lists s)) s),
     inr (next_loc s)).

(** ** The in-memory repository ([storage/repository.py])

    [repo] is a class attribute: the dataclass declares no field, so an
    instance carries nothing of its own and [self.repo] resolves to the one
    dictionary of the class, whichever instance [self] is. *)

Definition Filters := list (string * Value).

(** [all(getattr(r, key) == val for key, val in filters.items())]: the
    keyword arguments in call order, stopping at the first mismatch. *)
Fixpoint all_match (s : State) (ty : ResourceType) (r : carrier ty) (filters : Filters)
  : exn + bool :=
  match filters with
  | [] => inr true
  | (key, val) :: filters' =>
      match getattr ty r key with
      | None => inl AttributeError
      | Some a => if value_eqb s a val then all_match s ty r filters' else inr false
      end
  end.

(** [next((r for r in bucket if ...), None)]. *)
Fixpoint next_match (s : State) (ty : ResourceType) (filters : Filters)
    (bucket : list (carrier ty)) : exn + option (carrier ty) :=
  match bucket with
  | [] => inr None
  | r :: bucket' =>
      match all_match s ty r filters with
      | inl e => inl e
      | inr true => inr (Some r)
      | inr false => next_match s ty filters bucket'
      end
  end.

(** [[r for r in bucket if ...]]. *)
Fixpoint every_match (s : State) (ty : ResourceType) (filters : Filters)
    (bucket : list (carrier ty)) : exn + list (carrier ty) :=
  match bucket with
  | [] => inr []
  | r :: bucket' =>
      match all_match s ty r filters with
      | inl e => inl e
      | inr b =>
          match every_match s ty filters bucket' with
          | inl e => inl e
          | inr rest => inr (if b then r :: rest else rest)
          end
      end
  end.

(** Replace the bucket of one class. *)
Definition set_bucket (ty : ResourceType) (l : list (carrier ty))
    (r : forall ty' : ResourceType, list (carrier ty')) (ty' : ResourceType)
  : list (carrier ty') :=
  match decide (ty = ty') with
  | left e => eq_rect ty (fun t => list (carrier t)) l ty' e
  | right _ => r ty'
  end.

Module InMemoryRepository.
Definition t := RepositoryInstance.

(** [self.repo[type(resource)].append(resource)]; the class of the
    resource is passed along with it. *)
Definition add (self : t) (ty : ResourceType) (resource : carrier ty)
  : M unit :=
  modify (fun s => set_repo (set_bucket ty (repo s ty ++ [resource]) (repo s)) s).

Definition get (self : t) (resource_type : ResourceType)
    (filters : Filters) : M (option (carrier resource_type)) :=
  fun s => (s, next_match s resource_type filters (repo s resource_type)).

Definition list_all (self : t) (resource_type : ResourceType)
    (filters : Filters) : M (list (carrier resource_type)) :=
  fun s => (s, every_match s resource_type filters (repo s resource_type)).

Definition clear (self : t) : M unit :=
  modify (set_repo (fun _ => [])).
End InMemoryRepository.

(** ** The PROV document builder ([prov/model.py], [ProvContext]) *)

Definition has_identifier (q : QualifiedName) (r : ProvRecord) : bool :=
  match r with
  | Element e => bool_decide (qn_uri (el_identifier e) = qn_uri q)
  | Relation rel =>
      match rel_identifier rel with
      | Some q' => bool_decide (qn_uri q' = qn_uri q)
      | None => false
      end
  end.

(** [add_element]: with [check_exists] a record already carrying the
    identifier is kept and nothing is added; otherwise [new_record] appends
    the element. The record it returns is not used by any builder. *)
Definition add_element {A : Type} `{ToProv A} (rt : Runtime) (dataclass_instance : A)
    (check_exists : bool) (document : ProvDocument) : ProvDocument :=
  let element := to_prov rt dataclass_instance in
  if check_exists && existsb (has_identifier (el_identifier element)) document
  then document
  else document ++ [Element element].

(** The type assertion that [add_asserted_type(PROV["Revision"])] adds. *)
Definition revision_type : string * AttrValue := (PROV_TYPE, AQName (PROV "Revision")).

(** [add_relation]: one relation record, identified by
    [relation:<source>:<target>] unless it is a specialization or a
    membership; a [ProvRevision] is recorded as a derivation that asserts
    the type [prov:Revision]. *)
Definition add_relation {A B : Type} `{ToProv A} `{ToProv B} (rt : Runtime)
    (source_dataclass_instance : A) (target_dataclass_instance : B)
    (relationship_type : ProvRelation) (attributes : option Attributes)
    (document : ProvDocument) : ProvDocument :=
  let attributes := match attributes with Some a => a | None => [] end in
  let source := to_prov rt source_dataclass_instance in
  let target := to_prov rt target_dataclass_instance in
  let identifier :=
    match relationship_type with
    | ProvSpecialization | ProvMembership => None
    | _ =>
        Some {| qn_namespace := DEFAULT_NAMESPACE;
                qn_localpart := "relation:" +:+ qn_str (el_identifier source)
                                +:+ ":" +:+ qn_str (el_identifier target) |}
    end in
  let asserted :=
    match relationship_type with
    | ProvRevision => [revision_type]
    | _ => []
    end in
  document ++
    [Relation {| rel_prov_type := relation_prov_type relationship_type;
                 rel_identifier := identifier;
                 rel_source := source;
                 rel_target := target;
                 rel_attributes := attributes ++ asserted |}].

(** Sequencing of document updates, and the [for] loops of the builders. *)
Definition Step := ProvDocument -> ProvDocument.

Definition seq_steps (steps : list Step) : Step :=
  fun document => fold_left (fun d step => step d) steps document.

Definition for_steps {A : Type} (l : list A) (body : A -> Step) : Step :=
  fun document => fold_left (fun d x => body x d) l document.

Definition when_some {A : Type} (o : option A) (body : A -> Step) : Step :=
  match o with
  | Some a => body a
  | None => fun document => document
  end.

Definition time_and_role (t : datetime) (role : string) : option Attributes :=
  Some [(PROV_ATTR_TIME, ATime t); (PROV_ROLE, AStr role)].

(** ** The sub-model builders ([prov/model.py])

    Every [Model] starts from an empty document. A builder reads the list
    objects of the revisions it is given in the state [s] in which it runs. *)

(** The block [# Add `PipelineChange`, parent `PipelineChange`, and relation],
    the same in the five pipeline-change builders. *)
Definition change_and_parent (rt : Runtime) (pipeline_change : PipelineChange.t)
    (parent_pipeline_change : option PipelineChange.t) : Step :=
  seq_steps
    [add_element rt pipeline_change false;
     when_some parent_pipeline_change (fun parent =>
       seq_steps
         [add_element rt parent false;
          add_relation rt pipeline_change parent ProvCommunication None])].

(** The blocks [# Add `PipelineVersionRevision`, corresponding
    `OperatorRevision` and `Connection` members, and relations] and
    [# Add `PipelineVersion`, parent `PipelineVersionRevision`, and relations],
    the same in the five pipeline-change builders. *)
Definition revision_and_members (rt : Runtime) (s : State)
    (pipeline_change : PipelineChange.t)
    (parent_pipeline_version_revision : option PipelineVersionRevision.t) : Step :=
  let pipeline_version_revision := PipelineChange.pipeline_version_revision pipeline_change in
  seq_steps
    [add_element rt pipeline_version_revision false;
     for_steps (operators_of s pipeline_version_revision) (fun operator_revision =>
       seq_steps
         [add_element rt operator_revision false;
          add_relation rt pipeline_version_revision operator_revision ProvMembership None]);
     for_steps (connections_of s pipeline_version_revision) (fun connection =>
       seq_steps
         [add_element rt connection false;
          add_relation rt pipeline_version_revision connection ProvMembership None]);
     add_relation rt pipeline_version_revision pipeline_change ProvGeneration
       (time_and_role (PipelineChange.time pipeline_change)
          ProvRole.CREATED_PIPELINE_VERSION_REVISION);
     add_element rt (PipelineVersionRevision.pipeline_version pipeline_version_revision) false;
     add_relation rt pipeline_version_revision
       (PipelineVersionRevision.pipeline_version pipeline_version_revision)
       ProvSpecialization None;
     when_some parent_pipeline_version_revision (fun parent =>
       seq_steps
         [add_element rt parent false;
          add_relation rt pipeline_version_revision parent ProvRevision None;
          add_relation rt pipeline_change parent ProvUsage
            (time_and_role (PipelineChange.time pipeline_change)
               ProvRole.USED_PARENT_PIPELINE_VERSION_REVISION)])].

(** The loop [# Add operator parameters and relations]. *)
Definition parameters_of (rt : Runtime) (operator_revision : OperatorRevision.t) : Step :=
  for_steps (OperatorRevision.parameters operator_revision) (fun parameter =>
    seq_steps
      [add_element rt parameter false;
       add_relation rt operator_revision parameter ProvMembership None]).

(** A subclass whose constructor requires [operator_revision] (or
    [connection]) was given [None]: the attribute access on it fails. *)
Definition required {A : Type} (o : option A) : exn + A :=
  match o with
  | Some a => inr a
  | None => inl AttributeError
  end.

Module PipelineVersionCreationModel.
Definition build (rt : Runtime) (s : State)
    (pipeline_version_creation : PipelineVersionCreation.t)
    (parent_pipeline_version_revision : option PipelineVersionRevision.t)
    (parent_pipeline_version_creation : option PipelineVersionCreation.t)
  : exn + ProvDocument :=
  let pipeline_version_revision :=
    PipelineVersionCreation.pipeline_version_revision pipeline_version_creation in
  let pipeline_version :=
    PipelineVersionRevision.pipeline_version pipeline_version_revision in
  let time := PipelineVersionCreation.time pipeline_version_creation in
  let document :=
    seq_steps
      [add_element rt pipeline_version_creation false;
       when_some parent_pipeline_version_creation (fun parent =>
         seq_steps
           [add_element rt parent false;
            add_relation rt pipeline_version_creation parent ProvCommunication None]);
       add_element rt pipeline_version_revision false;
       for_steps (operators_of s pipeline_version_revision) (fun operator_revision =>
         seq_steps
           [add_element rt operator_revision false;
            add_relation rt pipeline_version_revision operator_revision
              ProvMembership None;
            add_element rt (OperatorRevision.operator operator_revision) false;
            add_relation rt operator_revision
              (OperatorRevision.operator operator_revision) ProvSpecialization None]);
       for_steps (connections_of s pipeline_version_revision) (fun connection =>
         seq_steps
           [add_element rt connection false;
            add_relation rt pipeline_version_revision connection ProvMembership None]);
       add_relation rt pipeline_version_revision pipeline_version_creation
         ProvGeneration
         (time_and_role time ProvRole.CREATED_PIPELINE_VERSION_REVISION);
       when_some parent_pipeline_version_revision (fun parent =>
         seq_steps
           [add_element rt parent false;
            add_relation rt pipeline_version_revision parent ProvDerivation None;
            add_relation rt pipeline_version_creation parent ProvUsage
              (time_and_role time ProvRole.USED_PARENT_PIPELINE_VERSION_REVISION)]);
       add_element rt pipeline_version false;
       add_relation rt pipeline_version_revision pipeline_version
         ProvSpecialization None;
       add_relation rt pipeline_version pipeline_version_creation ProvGeneration
         (time_and_role time ProvRole.CREATED_PIPELINE_VERSION)]
      [] in
  match parent_pipeline_version_creation with
  | None => inr document
  | Some parent_creation =>
      let parent_pipeline_version :=
        PipelineVersionRevision.pipeline_version
          (PipelineVersionCreation.pipeline_version_revision parent_creation) in
      match required parent_pipeline_version_revision with
      | inl e => inl e
      | inr parent_revision =>
          inr (seq_steps
                 [add_element rt parent_pipeline_version false;
                  add_relation rt parent_revision parent_pipeline_version
                    ProvSpecialization None;
                  add_relation rt pipeline_version parent_pipeline_version
                    ProvDerivation None;
                  add_relation rt pipeline_version_creation parent_pipeline_version
                    ProvUsage
                    (time_and_role time ProvRole.USED_PARENT_PIPELINE_VERSION)]
                 document)
      end
  end.
End PipelineVersionCreationModel.

Module OperatorCreationModel.
Definition build (rt : Runtime) (s : State) (pipeline_change : PipelineChange.t)
    (parent_pipeline_change : option PipelineChange.t)
    (parent_pipeline_version_revision : option PipelineVersionRevision.t)
  : exn + ProvDocument :=
  match required (PipelineChange.operator_revision pipeline_change) with
  | inl e => inl e
  | inr operator_revision =>
      inr (seq_steps
             [change_and_parent rt pipeline_change parent_pipeline_change;
              add_element rt operator_revision false;
              add_relation rt operator_revision pipeline_change ProvGeneration
                (time_and_role (PipelineChange.time pipeline_change)
                   ProvRole.CREATED_OPERATOR);
              add_element rt (OperatorRevision.operator operator_revision) false;
              add_relation rt operator_revision
                (OperatorRevision.operator operator_revision) ProvSpecialization None;
              parameters_of rt operator_revision;
              revision_and_members rt s pipeline_change
                parent_pipeline_version_revision]
             [])
  end.
End OperatorCreationModel.

Module OperatorModificationModel.
Definition build (rt : Runtime) (s : State) (pipeline_change : PipelineChange.t)
    (parent_pipeline_change : option PipelineChange.t)
    (parent_operator_revision : option OperatorRevision.t)
    (parent_pipeline_version_revision : option PipelineVersionRevision.t)
  : exn + ProvDocument :=
  match required (PipelineChange.operator_revision pipeline_change) with
  | inl e => inl e
  | inr operator_revision =>
      inr (seq_steps
             [change_and_parent rt pipeline_change parent_pipeline_change;
              add_element rt operator_revision false;
              add_relation rt operator_revision pipeline_change ProvGeneration
                (time_and_role (PipelineChange.time pipeline_change)
                   ProvRole.MODIFIED_OPERATOR);
              when_some parent_operator_revision (fun parent =>
                seq_steps
                  [add_element rt parent false;
                   add_relation rt operator_revision parent ProvRevision None;
                   add_relation rt pipeline_change parent ProvUsage
                     (time_and_role (PipelineChange.time pipeline_change)
                        ProvRole.USED_PARENT_OPERATOR_REVISION)]);
              add_element rt (OperatorRevision.operator operator_revision) false;
              add_relation rt operator_revision
                (OperatorRevision.operator operator_revision) ProvSpecialization None;
              parameters_of rt operator_revision;
              revision_and_members rt s pipeline_change
                parent_pipeline_version_revision]
             [])
  end.
End OperatorModificationModel.

Module OperatorDeletionModel.
Definition build (rt : Runtime) (s : State) (pipeline_change : PipelineChange.t)
    (parent_pipeline_change : option PipelineChange.t)
    (parent_pipeline_version_revision : option PipelineVersionRevision.t)
  : exn + ProvDocument :=
  match required (PipelineChange.operator_revision pipeline_change) with
  | inl e => inl e
  | inr operator_revision =>
      inr (seq_steps
             [change_and_parent rt pipeline_change parent_pipeline_change;
              add_element rt operator_revision false;
              add_relation rt operator_revision pipeline_change ProvInvalidation
                (time_and_role (PipelineChange.time pipeline_change)
                   ProvRole.DELETED_OPERATOR);
              add_element rt (OperatorRevision.operator operator_revision) false;
              add_relation rt operator_revision
                (OperatorRevision.operator operator_revision) ProvSpecialization None;
              revision_and_members rt s pipeline_change
                parent_pipeline_version_revision]
             [])
  end.
End OperatorDeletionModel.

Module ConnectionCreationModel.
Definition build (rt : Runtime) (s : State) (pipeline_change : PipelineChange.t)
    (parent_pipeline_change : option PipelineChange.t)
    (parent_pipeline_version_revision : option PipelineVersionRevision.t)
  : exn + ProvDocument :=
  match required (PipelineChange.connection pipeline_change) with
  | inl e => inl e
  | inr connection =>
      inr (seq_steps
             [change_and_parent rt pipeline_change parent_pipeline_change;
              add_element rt connection false;
              add_relation rt connection pipeline_change ProvGeneration
                (time_and_role (PipelineChange.time pipeline_change)
                   ProvRole.CREATED_CONNECTION);
              revision_and_members rt s pipeline_change
                parent_pipeline_version_revision]
             [])
  end.
End ConnectionCreationModel.

Module ConnectionDeletionModel.
Definition build (rt : Runtime) (s : State) (pipeline_change : PipelineChange.t)
    (parent_pipeline_change : option PipelineChange.t)
    (parent_pipeline_version_revision : option PipelineVersionRevision.t)
  : exn + ProvDocument :=
  match required (PipelineChange.connection pipeline_change) with
  | inl e => inl e
  | inr connection =>
      inr (seq_steps
             [change_and_parent rt pipeline_change parent_pipeline_change;
              add_element rt connection false;
              add_relation rt connection pipeline_change ProvInvalidation
                (time_and_role (PipelineChange.time pipeline_change)
                   ProvRole.DELETED_CONNECTION);
              revision_and_members rt s pipeline_change
                parent_pipeline_version_revision]
             [])
  end.
End ConnectionDeletionModel.

Module OperationExecutionModel.
Definition build (rt : Runtime) (operator_execution : OperatorExecution.t)
  : ProvDocument :=
  let operator_revision := OperatorExecution.operator_revision operator_execution in
  let operator_run := OperatorExecution.operator_run operator_execution in
  seq_steps
    [add_element rt operator_execution false;
     parameters_of rt operator_revision;
     add_element rt operator_revision false;
     add_relation rt operator_execution operator_revision ProvUsage
       (time_and_role (OperatorExecution.time operator_execution)
          ProvRole.USED_OPERATOR_REVISION);
     add_element rt operator_run false;
     add_relation rt operator_run operator_execution ProvGeneration
       (time_and_role (OperatorExecution.time operator_execution)
          ProvRole.CREATED_OPERATOR_RUN);
     for_steps (OperatorRun.metrics operator_run) (fun metric =>
       seq_steps
         [add_element rt metric false;
          add_relation rt operator_run metric ProvMembership None;
          add_relation rt operator_revision metric ProvMembership None])]
    [].
End OperationExecutionModel.

(** ** Event records ([data.py]) *)

Inductive PipelineChangeData :=
| OperatorCreationPipelineChangeData
    (id : string) (operator_id : Z) (operator_name : string)
    (operator_data : list (string * pyvalue))
| OperatorModificationPipelineChangeData
    (id : string) (operator_id : Z) (operator_name : string)
    (changed_parameter : string) (changed_value : pyvalue)
| OperatorDeletionPipelineChangeData
    (id : string) (operator_id : Z) (operator_name : string)
| ConnectionCreationPipelineChangeData
    (id : string) (connection_id from_operator_id to_operator_id : Z)
    (from_socket_id to_socket_id : Z)
| ConnectionDeletionPipelineChangeData
    (id : string) (connection_id from_operator_id to_operator_id : Z)
    (from_socket_id to_socket_id : Z).

Module MetricData.
Record t := mk { name : string; value : pyvalue }.
End MetricData.

Module DebugStepData.
Record t := mk {
  id : string;
  timestamp : pyfloat;
  branch_id : Z;
  branch_local_step_id : Z;
  parent_branch_id : option Z;
  operator_id : Z;
  operator_name : string;
  operator_step_type : OperatorStepType;
  operator_metrics : option (list MetricData.t);
  changes : option (list PipelineChangeData)
}.
End DebugStepData.

(** ** List operations the translator performs in place *)

(** [lst.append(x)] on the list object at [l]. *)
Definition append_operator (l : loc) (x : OperatorRevision.t) : M unit :=
  modify (fun s =>
    set_operator_lists (<[l := (operator_lists s !!! l) ++ [x]]> (operator_lists s)) s).

Definition append_connection (l : loc) (x : Connection.t) : M unit :=
  modify (fun s =>
    set_connection_lists (<[l := (connection_lists s !!! l) ++ [x]]> (connection_lists s)) s).

(** [lst.remove(x)] on a list value: the first element equal to [x] goes;
    [None] stands for [ValueError]. *)
Fixpoint remove_first {A : Type} (eqb : A -> A -> bool) (x : A) (l : list A)
  : option (list A) :=
  match l with
  | [] => None
  | y :: l' =>
      if eqb y x then Some l'
      else match remove_first eqb x l' with
           | Some r => Some (y :: r)
           | None => None
           end
  end.

Definition remove_operator (l : loc) (x : OperatorRevision.t) : M unit :=
  fun s =>
    match remove_first OperatorRevision.eqb x (operator_lists s !!! l) with
    | Some l' => (set_operator_lists (<[l := l']> (operator_lists s)) s, inr tt)
    | None => (s, inl ValueError)
    end.

(** [next(oprev for oprev in operators if oprev.operator == operator)]:
    without a default, an exhausted generator raises [StopIteration]. *)
Definition next_operator_revision (operator : Operator.t)
    (operators : list OperatorRevision.t) : exn + OperatorRevision.t :=
  match List.find (fun oprev => Operator.eqb (OperatorRevision.operator oprev) operator)
          operators with
  | Some oprev => inr oprev
  | None => inl StopIteration
  end.

(** [lst[-1]]. *)
Definition last_item {A : Type} (l : list A) : exn + A :=
  match last l with
  | Some a => inr a
  | None => inl IndexError
  end.

(** ** The translator ([provinspector.py]) *)

Definition INITIAL_PIPELINE_VERSION_ID : Z := 0.
Definition INITIAL_PIPELINE_VERSION_REVISION_ID : Z := 0.
Definition INITIAL_OPERATOR_REVISION_ID : Z := 0.
Definition INITIAL_TIME : pyfloat := 0%Q.
Definition INITIAL_DATETIME : datetime := fromtimestamp INITIAL_TIME.

Module ProvInspector.
(** The dataclass defaults: a translator that has seen nothing, over a
    store in which no list object exists and no record is filed. *)
Definition new (instance : nat) : State :=
  {| object_repository := {| instance_id := instance |};
     initialized := false;
     last_pipeline_version_id := INITIAL_PIPELINE_VERSION_ID;
     last_pipeline_version_revision_id := INITIAL_PIPELINE_VERSION_REVISION_ID;
     repo := fun _ => [];
     operator_lists := ∅;
     connection_lists := ∅;
     next_loc := 0%nat;
     uuid_count := 0%nat;
     imported := [];
     warnings := [] |}.

(** [clear]: empties the repository and the database, and resets the flag;
    the cached last-used ids stay. *)
Definition clear : M unit :=
  let! s := get_state in
  let! _ := InMemoryRepository.clear (object_repository s) in
  let! _ := modify (set_imported []) in
  modify (set_initialized false).

(** [add_model]: builds the sub-model in the current state and hands the
    graph to the database, recorded here as the sequence of imported
    graphs. *)
Definition add_model (model : State -> exn + ProvDocument) : M unit :=
  let! s := get_state in
  let! graph := lift_result (model s) in
  modify (fun s => set_imported (imported s ++ [graph]) s).

Definition warn (message : string) : M unit :=
  modify (fun s => set_warnings (warnings s ++ [message]) s).

(** [parent_pipeline_change_list[-1]] if the list is not empty. *)
Definition parent_change_of (self : InMemoryRepository.t)
    (parent_pipeline_version_revision : PipelineVersionRevision.t)
  : M (option PipelineChange.t) :=
  let! parent_pipeline_change_list :=
    InMemoryRepository.list_all self (TPipelineChange PipelineChangeBase)
      [("pipeline_version_revision",
         VPipelineVersionRevision parent_pipeline_version_revision)] in
  ret (last parent_pipeline_change_list).

Definition initialize (rt : Runtime) (data : list PipelineChangeData) : M unit :=
  let! s := get_state in
  let self := object_repository s in
  if negb (initialized s) then
    let! operators := new_operator_list [] in
    let! connections := new_connection_list [] in
    let! _ :=
      for_each data (fun pipeline_change_data =>
        match pipeline_change_data with
        | OperatorCreationPipelineChangeData _ operator_id operator_name operator_data =>
            let operator := Operator.mk operator_id operator_name in
            let parameters :=
              map (fun kv => Param.mk (fst kv) (snd kv)) operator_data in
            let! uuid := fresh_uuid rt in
            let operator_revision :=
              OperatorRevision.mk uuid 0 operator parameters None in
            append_operator operators operator_revision
        | ConnectionCreationPipelineChangeData _ connection_id from_operator_id
            to_operator_id _ _ =>
            let connection :=
              Connection.mk connection_id from_operator_id to_operator_id in
            append_connection connections connection
        | _ => ret tt
        end) in
    let pipeline_version := PipelineVersion.mk INITIAL_PIPELINE_VERSION_ID None in
    let! uuid := fresh_uuid rt in
    let pipeline_version_revision :=
      PipelineVersionRevision.mk uuid INITIAL_PIPELINE_VERSION_REVISION_ID
        pipeline_version None operators connections in
    let pipeline_version_creation :=
      PipelineVersionCreation.mk (INITIAL_PIPELINE_VERSION_CREATION_ID rt)
        pipeline_version_revision None INITIAL_DATETIME in
    let! _ := InMemoryRepository.add self TPipelineVersion pipeline_version in
    let! _ := InMemoryRepository.add self TPipelineVersionRevision
                pipeline_version_revision in
    let! _ := InMemoryRepository.add self TPipelineVersionCreation
                pipeline_version_creation in
    let! _ := add_model (fun s =>
                PipelineVersionCreationModel.build rt s pipeline_version_creation
                  None None) in
    modify (set_initialized true)
  else warn "Already initialized".

(** Lines 197-314 of [update]: the pipeline version of the step and the
    revision its changes build upon. On the cached path the lookup by id
    may find nothing; the [None] travels on to line 318. *)
Definition resolve_branch (rt : Runtime) (data : DebugStepData.t)
    (debug_step_datetime : datetime)
  : M (PipelineVersion.t * option PipelineVersionRevision.t) :=
  let! s := get_state in
  let self := object_repository s in
  let! no_version_yet :=
    if negb (initialized s) then
      let! pipeline_versions := InMemoryRepository.list_all self TPipelineVersion [] in
      ret (match pipeline_versions with [] => true | _ :: _ => false end)
    else ret false in
  if no_version_yet then
    let pipeline_version := PipelineVersion.mk 0 None in
    let! uuid := fresh_uuid rt in
    let! operators := new_operator_list [] in
    let! connections := new_connection_list [] in
    let parent_pipeline_version_revision :=
      PipelineVersionRevision.mk uuid 0 pipeline_version None operators connections in
    let! uuid := fresh_uuid rt in
    let pipeline_version_creation :=
      PipelineVersionCreation.mk uuid parent_pipeline_version_revision None
        debug_step_datetime in
    let! _ := InMemoryRepository.add self TPipelineVersion pipeline_version in
    let! _ := InMemoryRepository.add self TPipelineVersionRevision
                parent_pipeline_version_revision in
    let! _ := InMemoryRepository.add self TPipelineVersionCreation
                pipeline_version_creation in
    let! _ := add_model (fun s =>
                PipelineVersionCreationModel.build rt s pipeline_version_creation
                  None None) in
    ret (pipeline_version, Some parent_pipeline_version_revision)
  else
    let! found :=
      InMemoryRepository.get self TPipelineVersion
        [("id_", VInt (DebugStepData.branch_id data))] in
    match found with
    | Some pipeline_version =>
        if bool_decide (last_pipeline_version_id s = DebugStepData.branch_id data) then
          let! parent_pipeline_version_revision :=
            InMemoryRepository.get self TPipelineVersionRevision
              [("pipeline_version", VPipelineVersion pipeline_version);
               ("id_", VInt (last_pipeline_version_revision_id s))] in
          ret (pipeline_version, parent_pipeline_version_revision)
        else
          let! revisions :=
            InMemoryRepository.list_all self TPipelineVersionRevision
              [("pipeline_version", VPipelineVersion pipeline_version)] in
          let! parent_pipeline_version_revision := lift_result (last_item revisions) in
          ret (pipeline_version, Some parent_pipeline_version_revision)
    | None =>
        let! parent_pipeline_version :=
          InMemoryRepository.get self TPipelineVersion
            [("id_", VOptInt (DebugStepData.parent_branch_id data))] in
        let! parent_version := lift_result (required parent_pipeline_version) in
        let pipeline_version :=
          PipelineVersion.mk (DebugStepData.branch_id data)
            (Some (PipelineVersion.id_ parent_version)) in
        let! revisions :=
          InMemoryRepository.list_all self TPipelineVersionRevision
            [("pipeline_version", VPipelineVersion parent_version)] in
        let! parent_parent_pipeline_version_revision :=
          lift_result (last_item revisions) in
        let! uuid := fresh_uuid rt in
        let parent_pipeline_version_revision :=
          PipelineVersionRevision.mk uuid 0 pipeline_version
            (Some (PipelineVersionRevision.uuid parent_parent_pipeline_version_revision))
            (PipelineVersionRevision.operators parent_parent_pipeline_version_revision)
            (PipelineVersionRevision.connections parent_parent_pipeline_version_revision) in
        let! parent_parent_pipeline_version_creation :=
          InMemoryRepository.get self TPipelineVersionCreation
            [("pipeline_version_revision",
               VPipelineVersionRevision parent_pipeline_version_revision)] in
        let! uuid := fresh_uuid rt in
        let pipeline_version_creation :=
          PipelineVersionCreation.mk uuid parent_pipeline_version_revision
            (PipelineVersionCreation.uuid <$> parent_parent_pipeline_version_creation)
            debug_step_datetime in
        let! _ := InMemoryRepository.add self TPipelineVersion pipeline_version in
        let! _ := InMemoryRepository.add self TPipelineVersionRevision
                    parent_pipeline_version_revision in
        let! _ := InMemoryRepository.add self TPipelineVersionCreation
                    pipeline_version_creation in
        let! _ := add_model (fun s =>
                    PipelineVersionCreationModel.build rt s pipeline_version_creation
                      (Some parent_parent_pipeline_version_revision)
                      parent_parent_pipeline_version_creation) in
        ret (pipeline_version, Some parent_pipeline_version_revision)
    end.

(** The tail shared by the five branches of the change loop: the new
    revision over the (already updated) list objects of the parent, the
    latest stored [PipelineChange] of the parent, and the change record. *)
Definition new_revision_and_change (rt : Runtime) (self : InMemoryRepository.t)
    (debug_step_datetime : datetime)
    (parent_pipeline_version_revision : PipelineVersionRevision.t)
    (change_type : PipelineChangeType)
    (operator_revision : option OperatorRevision.t) (connection : option Connection.t)
  : M (PipelineVersionRevision.t * option PipelineChange.t * PipelineChange.t) :=
  let! uuid := fresh_uuid rt in
  let pipeline_version_revision :=
    PipelineVersionRevision.mk uuid
      (PipelineVersionRevision.id_ parent_pipeline_version_revision + 1)
      (PipelineVersionRevision.pipeline_version parent_pipeline_version_revision)
      (Some (PipelineVersionRevision.uuid parent_pipeline_version_revision))
      (PipelineVersionRevision.operators parent_pipeline_version_revision)
      (PipelineVersionRevision.connections parent_pipeline_version_revision) in
  let! parent_pipeline_change := parent_change_of self parent_pipeline_version_revision in
  let! uuid := fresh_uuid rt in
  let pipeline_change :=
    PipelineChange.mk uuid change_type debug_step_datetime operator_revision connection
      pipeline_version_revision
      (PipelineChange.uuid <$> parent_pipeline_change) in
  ret (pipeline_version_revision, parent_pipeline_change, pipeline_change).

(** One iteration of the loop [for c in data.changes]; the result is the
    revision bound to [pipeline_version_revision] in that iteration. *)
Definition apply_change (rt : Runtime) (debug_step_datetime : datetime)
    (parent_pipeline_version_revision : PipelineVersionRevision.t)
    (c : PipelineChangeData) : M PipelineVersionRevision.t :=
  let! s := get_state in
  let self := object_repository s in
  let parent := parent_pipeline_version_revision in
  match c with
  | OperatorCreationPipelineChangeData _ operator_id operator_name operator_data =>
      let operator := Operator.mk operator_id operator_name in
      let! operator_revision_uuid := fresh_uuid rt in
      let parameters := map (fun kv => Param.mk (fst kv) (snd kv)) operator_data in
      let operator_revision :=
        OperatorRevision.mk operator_revision_uuid 0 operator parameters None in
      let! _ := append_operator (PipelineVersionRevision.operators parent)
                  operator_revision in
      let! '(pipeline_version_revision, parent_pipeline_change, pipeline_change) :=
        new_revision_and_change rt self debug_step_datetime parent OPERATOR_CREATION
          (Some operator_revision) None in
      let! _ := add_model (fun s =>
                  OperatorCreationModel.build rt s pipeline_change
                    parent_pipeline_change (Some parent)) in
      ret pipeline_version_revision
  | OperatorModificationPipelineChangeData _ operator_id operator_name
      changed_parameter changed_value =>
      let operator := Operator.mk operator_id operator_name in
      let! s := get_state in
      let! parent_operator_revision :=
        lift_result (next_operator_revision operator (operators_of s parent)) in
      let parameters :=
        map (fun parameter => Param.mk (Param.name parameter) (Param.value parameter))
          (List.filter
             (fun parameter => negb (bool_decide (Param.name parameter = changed_parameter)))
             (OperatorRevision.parameters parent_operator_revision))
        ++ [Param.mk changed_parameter changed_value] in
      let! uuid := fresh_uuid rt in
      let operator_revision :=
        OperatorRevision.mk uuid (OperatorRevision.id_ parent_operator_revision + 1)
          operator parameters (Some (OperatorRevision.uuid parent_operator_revision)) in
      let! _ := append_operator (PipelineVersionRevision.operators parent)
                  operator_revision in
      let! '(pipeline_version_revision, parent_pipeline_change, pipeline_change) :=
        new_revision_and_change rt self debug_step_datetime parent
          OPERATOR_MODIFICATION (Some operator_revision) None in
      let! _ := add_model (fun s =>
                  OperatorModificationModel.build rt s pipeline_change
                    parent_pipeline_change (Some parent_operator_revision)
                    (Some parent)) in
      ret pipeline_version_revision
  | OperatorDeletionPipelineChangeData _ operator_id operator_name =>
      let operator := Operator.mk operator_id operator_name in
      let! s := get_state in
      let! operator_revision :=
        lift_result (next_operator_revision operator (operators_of s parent)) in
      let! _ := remove_operator (PipelineVersionRevision.operators parent)
                  operator_revision in
      let! '(pipeline_version_revision, parent_pipeline_change, pipeline_change) :=
        new_revision_and_change rt self debug_step_datetime parent OPERATOR_DELETION
          (Some operator_revision) None in
      let! _ := add_model (fun s =>
                  OperatorDeletionModel.build rt s pipeline_change
                    parent_pipeline_change (Some parent)) in
      ret pipeline_version_revision
  | ConnectionCreationPipelineChangeData _ connection_id from_operator_id
      to_operator_id _ _ =>
      let connection := Connection.mk connection_id from_operator_id to_operator_id in
      let! _ := append_connection (PipelineVersionRevision.connections parent)
                  connection in
      let! '(pipeline_version_revision, parent_pipeline_change, pipeline_change) :=
        new_revision_and_change rt self debug_step_datetime parent CONNECTION_CREATION
          None (Some connection) in
      let! _ := add_model (fun s =>
                  ConnectionCreationModel.build rt s pipeline_change
                    parent_pipeline_change (Some parent)) in
      ret pipeline_version_revision
  | ConnectionDeletionPipelineChangeData _ connection_id from_operator_id
      to_operator_id _ _ =>
      let connection := Connection.mk connection_id from_operator_id to_operator_id in
      let! _ := append_connection (PipelineVersionRevision.connections parent)
                  connection in
      let! '(pipeline_version_revision, parent_pipeline_change, pipeline_change) :=
        new_revision_and_change rt self debug_step_datetime parent CONNECTION_DELETION
          None (Some connection) in
      let! _ := add_model (fun s =>
                  ConnectionDeletionModel.build rt s pipeline_change
                    parent_pipeline_change (Some parent)) in
      ret pipeline_version_revision
  end.

(** Lines 614-652 of [update]: the operator run of an execution. *)
Definition apply_execution (rt : Runtime) (data : DebugStepData.t)
    (debug_step_datetime : datetime)
    (parent_pipeline_version_revision : PipelineVersionRevision.t)
    (operator_metrics : list MetricData.t) : M unit :=
  let operator :=
    Operator.mk (DebugStepData.operator_id data) (DebugStepData.operator_name data) in
  let! s := get_state in
  let! operator_revision :=
    lift_result
      (next_operator_revision operator (operators_of s parent_pipeline_version_revision)) in
  let metrics :=
    map (fun m => Metric.mk (MetricData.name m) (MetricData.value m)) operator_metrics in
  let! run_id := fresh_uuid rt in
  let operator_run :=
    OperatorRun.mk run_id (fromtimestamp (DebugStepData.timestamp data)) metrics in
  let! uuid := fresh_uuid rt in
  let operator_execution :=
    OperatorExecution.mk uuid operator_revision operator_run
      (DebugStepData.operator_step_type data) debug_step_datetime in
  add_model (fun _ => inr (OperationExecutionModel.build rt operator_execution)).

Definition update (rt : Runtime) (data : DebugStepData.t) : M unit :=
  let debug_step_datetime := fromtimestamp (DebugStepData.timestamp data) in
  let! '(pipeline_version, resolved) := resolve_branch rt data debug_step_datetime in
  let! _ := modify (set_last_pipeline_version_id (PipelineVersion.id_ pipeline_version)) in
  let! parent_pipeline_version_revision := lift_result (required resolved) in
  let! _ := modify (set_last_pipeline_version_revision_id
                      (PipelineVersionRevision.id_ parent_pipeline_version_revision)) in
  let! _ :=
    match DebugStepData.changes data with
    | Some changes =>
        for_each changes (fun c =>
          let! _ := apply_change rt debug_step_datetime
                      parent_pipeline_version_revision c in
          ret tt)
    | None => ret tt
    end in
  match DebugStepData.operator_metrics data with
  | Some operator_metrics =>
      apply_execution rt data debug_step_datetime parent_pipeline_version_revision
        operator_metrics
  | None => ret tt
  end.
End ProvInspector.

(** Running a computation unfolds its definition. *)
Arguments bind {A B} m k s /.
Arguments ret {A} a s /.
Arguments raise {A} e s /.
Arguments get_state s /.
Arguments modify f s /.
Arguments lift_result {A} r s /.
Arguments fresh_uuid rt s /.
Arguments new_operator_list l s /.
Arguments new_connection_list l s /.
Arguments append_operator l x s /.
Arguments append_connection l x s /.
Arguments remove_operator l x s /.
Arguments InMemoryRepository.add self ty resource s /.
Arguments InMemoryRepository.get self resource_type filters s /.
Arguments InMemoryRepository.list_all self resource_type filters s /.
Arguments InMemoryRepository.clear self s /.
Arguments ProvInspector.add_model model s /.
Arguments ProvInspector.warn message s /.
Arguments ProvInspector.parent_change_of self parent_pipeline_version_revision s /.
Arguments set_initialized b s /.
Arguments set_last_pipeline_version_id z s /.
Arguments set_last_pipeline_version_revision_id z s /.
Arguments set_repo r s /.
Arguments set_operator_lists h s /.
Arguments set_connection_lists h s /.
Arguments set_next_loc l s /.
Arguments set_uuid_count n s /.
Arguments set_imported d s /.
Arguments set_warnings w s /.

(** ** Vocabulary of the statements *)

Definition is_element (r : ProvRecord) : bool :=
  match r with Element _ => true | Relation _ => false end.

Definition is_relation (r : ProvRecord) : bool := negb (is_element r).

Definition count_elements (d : ProvDocument) : nat := length (List.filter is_element d).

Definition count_relations (d : ProvDocument) : nat := length (List.filter is_relation d).

(** The relation record of a membership or specialization: no identifier,
    no attributes. *)
Definition plain_edge {A B : Type} `{ToProv A} `{ToProv B} (rt : Runtime)
    (ty : ProvRecordType) (source : A) (target : B) : ProvRecord :=
  Relation {| rel_prov_type := ty; rel_identifier := None;
              rel_source := to_prov rt source; rel_target := to_prov rt target;
              rel_attributes := [] |}.

Definition membership_edge {A B : Type} `{ToProv A} `{ToProv B} (rt : Runtime)
    (collection : A) (member : B) : ProvRecord :=
  plain_edge rt PROV_MEMBERSHIP collection member.


(** The document holds a relation of the given type between the two
    elements whose [prov:role] is [role]. *)
Definition edge_with_role (ty : ProvRecordType) (source target : ProvElement)
    (role : string) (d : ProvDocument) : Prop :=
  exists rel,
    In (Relation rel) d /\ rel_prov_type rel = ty /\ rel_source rel = source
    /\ rel_target rel = target /\ In (PROV_ROLE, AStr role) (rel_attributes rel).

(** The identifier [add_relation] computes from the two endpoints. *)
Definition relation_name {A B : Type} `{ToProv A} `{ToProv B} (rt : Runtime)
    (source : A) (target : B) : QualifiedName :=
  {| qn_namespace := DEFAULT_NAMESPACE;
     qn_localpart := "relation:" +:+ qn_str (el_identifier (to_prov rt source))
                     +:+ ":" +:+ qn_str (el_identifier (to_prov rt target)) |}.

(** A step that only appends to the document it is given. *)
Definition appending (f : Step) : Prop := forall d, f d = d ++ f [].

(** A record satisfies the filters: each named attribute exists and equals
    the value asked for. *)
Definition satisfies (s : State) (ty : ResourceType) (filters : Filters)
    (r : carrier ty) : Prop :=
  forall key val, In (key, val) filters ->
    exists a, getattr ty r key = Some a /\ value_eqb s a val = true.

(** The stored revisions of a pipeline version, oldest first. *)
Definition revisions_of (s : State) (pv : PipelineVersion.t) : list PipelineVersionRevision.t :=
  List.filter
    (fun r => PipelineVersion.eqb (PipelineVersionRevision.pipeline_version r) pv)
    (repo s TPipelineVersionRevision).

(** A runtime for the worked examples: distinct uuids, [hash] of a small
    integer is the integer. No example prints a float. *)
Definition demo_runtime : Runtime :=
  {| uuid4 := fun n => "uuid-" +:+ str_int (Z.of_nat n);
     py_hash := fun v => match v with PyInt z => z | _ => 0 end;
     repr_float := fun _ => "0.0";
     INITIAL_PIPELINE_VERSION_CREATION_ID := "uuid-initial" |}.

Definition demo_execution : OperatorExecution.t :=
  OperatorExecution.mk "e1"
    (OperatorRevision.mk "r1" 0 (Operator.mk 7 "filter") [Param.mk "k" (PyInt 3)] None)
    (OperatorRun.mk "run1" 0%Q [Metric.mk "count" (PyInt 5)])
    ON_OP_EXECUTED 0%Q.

(** Scenario S1: one debug step on branch 0, no parent branch, no updates,
    an empty metrics list. *)
Definition minimal_genesis_step : DebugStepData.t :=
  DebugStepData.mk "step-1" 0%Q 0 0 None 0 "source" ON_OP_EXECUTED (Some []) None.

(** The revision [r] was built by the change loop on [parent]: next sequence
    id, same pipeline version, pointer to the parent, and the very list
    objects of the parent. *)
Definition built_on (parent r : PipelineVersionRevision.t) : Prop :=
  PipelineVersionRevision.id_ r = PipelineVersionRevision.id_ parent + 1
  /\ PipelineVersionRevision.pipeline_version r = PipelineVersionRevision.pipeline_version parent
  /\ PipelineVersionRevision.parent_pipeline_version_revision_uuid r
     = Some (PipelineVersionRevision.uuid parent)
  /\ PipelineVersionRevision.operators r = PipelineVersionRevision.operators parent
  /\ PipelineVersionRevision.connections r = PipelineVersionRevision.connections parent.

(** Nothing but the list objects, the uuid counter and the imported graphs
    differs between the two states. *)
Definition same_records (s s' : State) : Prop :=
  repo s' = repo s
  /\ object_repository s' = object_repository s
  /\ initialized s' = initialized s
  /\ last_pipeline_version_id s' = last_pipeline_version_id s
  /\ last_pipeline_version_revision_id s' = last_pipeline_version_revision_id s
  /\ next_loc s' = next_loc s
  /\ warnings s' = warnings s.

(** The first stored pipeline version with the given id: what
    [get(PipelineVersion, id_=b)] looks for. *)
Definition stored_version (s : State) (b : Z) : option PipelineVersion.t :=
  List.find (fun pv => bool_decide (PipelineVersion.id_ pv = b)) (repo s TPipelineVersion).

(** The stored pipeline version of the parent branch of a step, if the step
    names one and it is stored. *)
Definition stored_parent (s : State) (data : DebugStepData.t) : option PipelineVersion.t :=
  match DebugStepData.parent_branch_id data with
  | Some p => stored_version s p
  | None => None
  end.

(** A relation of the given record type. *)
Definition is_relation_of (ty : ProvRecordType) (r : ProvRecord) : Prop :=
  match r with
  | Relation rel => rel_prov_type rel = ty
  | Element _ => False
  end.

(** Worked examples: a translator initialized on a pipeline of one operator,
    its genesis revision, and a few debug steps on it. *)
Definition one_operator_pipeline : list PipelineChangeData :=
  [OperatorCreationPipelineChangeData "c1" 7 "filter" [("k", PyInt 3)]].

Definition initialized_demo : State :=
  fst (ProvInspector.initialize demo_runtime one_operator_pipeline (ProvInspector.new 0)).

Definition demo_operator_revision : OperatorRevision.t :=
  OperatorRevision.mk "uuid-0" 0 (Operator.mk 7 "filter") [Param.mk "k" (PyInt 3)] None.

Definition demo_genesis_revision : PipelineVersionRevision.t :=
  PipelineVersionRevision.mk "uuid-1" 0 (PipelineVersion.mk 0 None) None 0%nat 1%nat.

Definition step_on (branch : Z) (parent : option Z)
    (changes : option (list PipelineChangeData)) : DebugStepData.t :=
  DebugStepData.mk "step" 1%Q branch 1 parent 7 "filter" ON_OP_EXECUTED None changes.

Definition creation_step : DebugStepData.t :=
  step_on 0 None (Some [OperatorCreationPipelineChangeData "c2" 8 "map" []]).

Definition unknown_deletion_step : DebugStepData.t :=
  step_on 0 None (Some [OperatorDeletionPipelineChangeData "c3" 9 "ghost"]).

Definition branch_step : DebugStepData.t := step_on 1 (Some 0) None.

Definition plain_step : DebugStepData.t := step_on 0 None None.

(** A translator that saw a debug step first and was initialized after. *)
Definition late_initialized_demo : State :=
  fst (ProvInspector.initialize demo_runtime one_operator_pipeline
         (fst (ProvInspector.update demo_runtime plain_step (ProvInspector.new 0)))).

(** The value of a hexadecimal digit, and the byte that the head of a
    quoted string stands for together with the rest of the string: the
    inverse of [quote_byte], used to show that quoting loses nothing. *)
Definition hex_value (c : ascii) : N :=
  let n := N_of_ascii c in if (n <? 58)%N then (n - 48)%N else (n - 55)%N.

Definition unquote_head (s : string) : option (ascii * string) :=
  match s with
  | EmptyString => None
  | String c rest =>
      if Ascii.eqb c "%" then
        match rest with
        | String h (String l rest') =>
            Some (ascii_of_N (16 * hex_value h + hex_value l), rest')
        | _ => None
        end
      else if Ascii.eqb c "+" then Some (" "%char, rest)
      else Some (c, rest)
  end.


(** Between the two states the repository is the same, or exactly one
    pipeline version, one revision of it with sequence id 0 and one creation
    of that revision were appended, and no pipeline change. *)
Definition files_at_most_one_branch (s s' : State) : Prop :=
  repo s' = repo s
  \/ exists version genesis creation,
       repo s' TPipelineVersion = repo s TPipelineVersion ++ [version]
       /\ repo s' TPipelineVersionRevision = repo s TPipelineVersionRevision ++ [genesis]
       /\ repo s' TPipelineVersionCreation = repo s TPipelineVersionCreation ++ [creation]
       /\ (forall c, repo s' (TPipelineChange c) = repo s (TPipelineChange c))
       /\ PipelineVersionRevision.id_ genesis = 0
       /\ PipelineVersionRevision.pipeline_version genesis = version
       /\ PipelineVersionCreation.pipeline_version_revision creation = genesis.

(** The loop [for c in data.changes] of [update]. *)
Definition change_loop (rt : Runtime) (t : datetime) (parent : PipelineVersionRevision.t)
    (changes : option (list PipelineChangeData)) : M unit :=
  match changes with
  | Some changes =>
      for_each changes (fun c =>
        let! _ := ProvInspector.apply_change rt t parent c in ret tt)
  | None => ret tt
  end.

(** What [initialize] is to build from its input: one operator revision per
    operator creation, in input order, with sequence id 0, no parent and the
    parameters of the entry in their order, the uuids being the [n]-th,
    [n+1]-th, ... drawn; one connection per connection creation, in input
    order. Entries of the other three kinds contribute nothing. *)
Fixpoint initial_operators (rt : Runtime) (n : nat) (data : list PipelineChangeData)
  : list OperatorRevision.t :=
  match data with
  | [] => []
  | OperatorCreationPipelineChangeData _ operator_id operator_name operator_data :: data' =>
      OperatorRevision.mk (uuid4 rt n) 0 (Operator.mk operator_id operator_name)
        (map (fun kv => Param.mk (fst kv) (snd kv)) operator_data) None
      :: initial_operators rt (S n) data'
  | _ :: data' => initial_operators rt n data'
  end.

Fixpoint initial_connections (data : list PipelineChangeData) : list Connection.t :=
  match data with
  | [] => []
  | ConnectionCreationPipelineChangeData _ connection_id from_operator_id to_operator_id _ _
    :: data' =>
      Connection.mk connection_id from_operator_id to_operator_id
      :: initial_connections data'
  | _ :: data' => initial_connections data'
  end.

(** The loop body of [initialize] over the two fresh lists. *)
Definition initialize_entry (rt : Runtime) (operators connections : loc)
    (pipeline_change_data : PipelineChangeData) : M unit :=
  match pipeline_change_data with
  | OperatorCreationPipelineChangeData _ operator_id operator_name operator_data =>
      let operator := Operator.mk operator_id operator_name in
      let parameters := map (fun kv => Param.mk (fst kv) (snd kv)) operator_data in
      let! uuid := fresh_uuid rt in
      let operator_revision := OperatorRevision.mk uuid 0 operator parameters None in
      append_operator operators operator_revision
  | ConnectionCreationPipelineChangeData _ connection_id from_operator_id
      to_operator_id _ _ =>
      let connection := Connection.mk connection_id from_operator_id to_operator_id in
      append_connection connections connection
  | _ => ret tt
  end.

(** Every relation of the document has both of its endpoints among the
    elements of the document. *)
Definition closed (d : ProvDocument) : Prop :=
  forall rel, In (Relation rel) d ->
    In (Element (rel_source rel)) d /\ In (Element (rel_target rel)) d.

(** The same while a document is being built: an endpoint may still be
    [pending], and the [known] elements are in the document already. *)
Definition closed_upto (pending known : list ProvElement) (d : ProvDocument) : Prop :=
  (forall rel, In (Relation rel) d ->
     (In (Element (rel_source rel)) d \/ In (rel_source rel) pending)
     /\ (In (Element (rel_target rel)) d \/ In (rel_target rel) pending))
  /\ (forall e, In e known -> In (Element e) d).

#[global] Instance ProvRecordType_eq_dec : EqDecision ProvRecordType.
Proof. solve_decision. Defined.

(** The number of relations of one record type in a document. *)
Definition count_relations_of (ty : ProvRecordType) (d : ProvDocument) : nat :=
  length (List.filter
            (fun r => match r with
                      | Relation rel => bool_decide (rel_prov_type rel = ty)
                      | Element _ => false
                      end) d).


(** * Properties *)

(** ** Documents grow by appending *)

Lemma seq_steps_nil d : seq_steps [] d = d.
Proof. reflexivity. Qed.

Lemma seq_steps_cons f fs d : seq_steps (f :: fs) d = seq_steps fs (f d).
Proof. reflexivity. Qed.

Lemma for_steps_flat_map {A : Type} (l : list A) (body : A -> Step) d :
  (forall x, appending (body x)) ->
  for_steps l body d = d ++ flat_map (fun x => body x []) l.
Proof.
  intros H. revert d. induction l as [|x l IH]; intros d; cbn [flat_map].
  - unfold for_steps. cbn. rewrite app_nil_r. reflexivity.
  - unfold for_steps in *. cbn [fold_left]. rewrite IH, (H x d), <- app_assoc.
    reflexivity.
Qed.

Ltac solve_appending :=
  intros ?; unfold seq_steps; cbn [fold_left add_element add_relation andb app];
  rewrite <- ?app_assoc; reflexivity.

Lemma parameters_of_flat_map rt o d :
  parameters_of rt o d
  = d ++ flat_map (fun p => [Element (to_prov rt p); membership_edge rt o p])
         (OperatorRevision.parameters o).
Proof.
  unfold parameters_of. rewrite for_steps_flat_map by (intros x; solve_appending).
  reflexivity.
Qed.

Lemma count_elements_app a b :
  count_elements (a ++ b) = (count_elements a + count_elements b)%nat.
Proof. unfold count_elements. rewrite List.filter_app, length_app. reflexivity. Qed.

Lemma count_relations_app a b :
  count_relations (a ++ b) = (count_relations a + count_relations b)%nat.
Proof. unfold count_relations. rewrite List.filter_app, length_app. reflexivity. Qed.

Lemma count_elements_flat_map {A : Type} (f : A -> ProvDocument) (n : nat) (l : list A) :
  (forall x, count_elements (f x) = n) ->
  count_elements (flat_map f l) = (n * length l)%nat.
Proof.
  intros H. induction l as [|x l IH]; cbn [flat_map length]; [cbn; lia|].
  rewrite count_elements_app, H, IH. lia.
Qed.

Lemma count_relations_flat_map {A : Type} (f : A -> ProvDocument) (n : nat) (l : list A) :
  (forall x, count_relations (f x) = n) ->
  count_relations (flat_map f l) = (n * length l)%nat.
Proof.
  intros H. induction l as [|x l IH]; cbn [flat_map length]; [cbn; lia|].
  rewrite count_relations_app, H, IH. lia.
Qed.

(** ** Edges ([ProvContext.add_relation]) *)

(** C7. Every call to [add_relation] appends one relation between the PROV
    elements of its two endpoints. Its identifier is the name
    [relation:<source identifier>:<target identifier>] computed from the two
    endpoint identifiers, except for a specialization or a membership, which
    carries no identifier. Exactly when the kind is [ProvRevision], the
    relation carries, besides the attributes it was given, the type
    assertion [prov:Revision]. *)
Theorem add_relation_identifier_and_revision_type
    (A B : Type) (HA : ToProv A) (HB : ToProv B)
    (rt : Runtime) (source : A) (target : B) (kind : ProvRelation)
    (attributes : option Attributes) (document : ProvDocument) :
  exists rel,
    add_relation rt source target kind attributes document = document ++ [Relation rel]
    /\ rel_prov_type rel = relation_prov_type kind
    /\ rel_source rel = to_prov rt source
    /\ rel_target rel = to_prov rt target
    /\ (kind <> ProvSpecialization -> kind <> ProvMembership ->
        rel_identifier rel = Some (relation_name rt source target))
    /\ (kind = ProvSpecialization \/ kind = ProvMembership -> rel_identifier rel = None)
    /\ (kind = ProvRevision ->
        rel_attributes rel = default [] attributes ++ [revision_type])
    /\ (kind <> ProvRevision -> rel_attributes rel = default [] attributes).
Proof.
  eexists. split; [reflexivity|]. cbn.
  split; [reflexivity|]. split; [reflexivity|]. split; [reflexivity|].
  repeat split.
  - destruct kind; intros; first [congruence | reflexivity].
  - intros [-> | ->]; reflexivity.
  - intros ->. destruct attributes; reflexivity.
  - destruct kind; intros; try congruence; destruct attributes; cbn;
      rewrite ?app_nil_r; reflexivity.
Qed.

(** ** The execution builder *)

Lemma OperationExecutionModel_build_eq rt oe :
  OperationExecutionModel.build rt oe
  = [Element (to_prov rt oe)]
    ++ flat_map (fun p => [Element (to_prov rt p);
                           membership_edge rt (OperatorExecution.operator_revision oe) p])
         (OperatorRevision.parameters (OperatorExecution.operator_revision oe))
    ++ [Element (to_prov rt (OperatorExecution.operator_revision oe));
        Relation {| rel_prov_type := PROV_USAGE;
                    rel_identifier :=
                      Some (relation_name rt oe (OperatorExecution.operator_revision oe));
                    rel_source := to_prov rt oe;
                    rel_target := to_prov rt (OperatorExecution.operator_revision oe);
                    rel_attributes := [(PROV_ATTR_TIME, ATime (OperatorExecution.time oe));
                                       (PROV_ROLE, AStr "UsedOperatorRevision")] |};
        Element (to_prov rt (OperatorExecution.operator_run oe));
        Relation {| rel_prov_type := PROV_GENERATION;
                    rel_identifier :=
                      Some (relation_name rt (OperatorExecution.operator_run oe) oe);
                    rel_source := to_prov rt (OperatorExecution.operator_run oe);
                    rel_target := to_prov rt oe;
                    rel_attributes := [(PROV_ATTR_TIME, ATime (OperatorExecution.time oe));
                                       (PROV_ROLE, AStr "AddedOperatorRun")] |}]
    ++ flat_map (fun m => [Element (to_prov rt m);
                           membership_edge rt (OperatorExecution.operator_run oe) m;
                           membership_edge rt (OperatorExecution.operator_revision oe) m])
         (OperatorRun.metrics (OperatorExecution.operator_run oe)).
Proof.
  unfold OperationExecutionModel.build.
  rewrite !seq_steps_cons, seq_steps_nil.
  rewrite for_steps_flat_map by (intros x; solve_appending).
  rewrite parameters_of_flat_map.
  cbn [add_element add_relation andb app]. rewrite <- !app_assoc. reflexivity.
Qed.

(** C8, as the code has it. The fragment of the execution builder holds the
    OperatorExecution activity, a usage edge from it to the OperatorRevision
    with role [UsedOperatorRevision], the OperatorRevision and each of its
    Parameters with a membership edge, the OperatorRun with a generation
    edge to the activity whose role is the string [AddedOperatorRun] (the
    value of [ProvRole.CREATED_OPERATOR_RUN]), and for each Metric a
    membership edge from the OperatorRun and one from the OperatorRevision;
    it holds nothing else. *)
Theorem operator_execution_fragment (rt : Runtime) (oe : OperatorExecution.t) :
  let doc := OperationExecutionModel.build rt oe in
  let revision := OperatorExecution.operator_revision oe in
  let run := OperatorExecution.operator_run oe in
  In (Element (to_prov rt oe)) doc
  /\ edge_with_role PROV_USAGE (to_prov rt oe) (to_prov rt revision)
       "UsedOperatorRevision" doc
  /\ In (Element (to_prov rt revision)) doc
  /\ (forall p, In p (OperatorRevision.parameters revision) ->
        In (Element (to_prov rt p)) doc /\ In (membership_edge rt revision p) doc)
  /\ In (Element (to_prov rt run)) doc
  /\ edge_with_role PROV_GENERATION (to_prov rt run) (to_prov rt oe)
       "AddedOperatorRun" doc
  /\ (forall m, In m (OperatorRun.metrics run) ->
        In (Element (to_prov rt m)) doc /\ In (membership_edge rt run m) doc
        /\ In (membership_edge rt revision m) doc)
  /\ count_elements doc
     = (3 + length (OperatorRevision.parameters revision)
        + length (OperatorRun.metrics run))%nat
  /\ count_relations doc
     = (2 + length (OperatorRevision.parameters revision)
        + 2 * length (OperatorRun.metrics run))%nat.
Proof.
  intros doc revision run. subst doc. rewrite OperationExecutionModel_build_eq.
  fold revision run.
  repeat split.
  - apply in_or_app. left. left. reflexivity.
  - eexists. split.
    + apply in_or_app. right. apply in_or_app. right. apply in_or_app. left.
      right. left. reflexivity.
    + cbn. repeat split. right. left. reflexivity.
  - apply in_or_app. right. apply in_or_app. right. apply in_or_app. left. left.
    reflexivity.
  - apply in_or_app. right. apply in_or_app. left. apply in_flat_map. exists p.
    split; [assumption | left; reflexivity].
  - apply in_or_app. right. apply in_or_app. left. apply in_flat_map. exists p.
    split; [assumption | right; left; reflexivity].
  - apply in_or_app. right. apply in_or_app. right. apply in_or_app. left.
    right. right. left. reflexivity.
  - eexists. split.
    + apply in_or_app. right. apply in_or_app. right. apply in_or_app. left.
      right. right. right. left. reflexivity.
    + cbn. repeat split. right. left. reflexivity.
  - do 3 (apply in_or_app; right). apply in_flat_map. exists m.
    split; [assumption | left; reflexivity].
  - do 3 (apply in_or_app; right). apply in_flat_map. exists m.
    split; [assumption | right; left; reflexivity].
  - do 3 (apply in_or_app; right). apply in_flat_map. exists m.
    split; [assumption | right; right; left; reflexivity].
  - rewrite !count_elements_app.
    rewrite (count_elements_flat_map _ 1) by reflexivity.
    rewrite (count_elements_flat_map _ 1) by reflexivity.
    cbn. lia.
  - rewrite !count_relations_app.
    rewrite (count_relations_flat_map _ 1) by reflexivity.
    rewrite (count_relations_flat_map _ 2) by reflexivity.
    cbn. lia.
Qed.

(** C8, as the claim words it, fails: on an execution of one operator
    revision with one parameter and one metric, no generation edge of the
    fragment has the role [CreatedOperatorRun]. *)
Lemma operator_run_role_is_not_CreatedOperatorRun :
  ~ exists rel,
      In (Relation rel) (OperationExecutionModel.build demo_runtime demo_execution)
      /\ rel_prov_type rel = PROV_GENERATION
      /\ In (PROV_ROLE, AStr "CreatedOperatorRun") (rel_attributes rel).
Proof.
  intros (rel & Hin & Hty & Hrole).
  vm_compute in Hin.
  repeat (destruct Hin as [Hin | Hin];
          [ first [ discriminate Hin
                  | injection Hin as <-; cbn in Hty, Hrole;
                    first [ discriminate Hty
                          | repeat (destruct Hrole as [Hrole | Hrole];
                                    [discriminate Hrole|]);
                            exact Hrole ] ] | ]).
  exact Hin.
Qed.

(** ** Initialization *)

(** C6. [initialize] on a translator that is already initialized issues the
    warning, returns normally and changes nothing else: the object store,
    the list objects, the flag, the cached last-used ids and the imported
    graphs are those of before. *)
Theorem initialize_when_initialized_warns_only
    (rt : Runtime) (data : list PipelineChangeData) (s : State) :
  initialized s = true ->
  let s' := fst (ProvInspector.initialize rt data s) in
  snd (ProvInspector.initialize rt data s) = inr tt
  /\ warnings s' = warnings s ++ ["Already initialized"]
  /\ repo s' = repo s
  /\ operator_lists s' = operator_lists s
  /\ connection_lists s' = connection_lists s
  /\ initialized s' = initialized s
  /\ last_pipeline_version_id s' = last_pipeline_version_id s
  /\ last_pipeline_version_revision_id s' = last_pipeline_version_revision_id s
  /\ imported s' = imported s
  /\ uuid_count s' = uuid_count s.
Proof.
  intros H. unfold ProvInspector.initialize. cbn. rewrite H. cbn.
  repeat split. exact H.
Qed.

(** A translator initialized on the empty pipeline is initialized, and a
    second [initialize] on it only warns. *)
Lemma initialize_when_initialized_warns_only_witness :
  let s := fst (ProvInspector.initialize demo_runtime [] (ProvInspector.new 0)) in
  initialized s = true
  /\ snd (ProvInspector.initialize demo_runtime [] s) = inr tt
  /\ repo (fst (ProvInspector.initialize demo_runtime [] s)) = repo s.
Proof.
  intros s.
  assert (H : initialized s = true) by reflexivity.
  pose proof (initialize_when_initialized_warns_only demo_runtime [] s H) as T.
  cbv zeta in T. destruct T as (T1 & _ & T3 & _).
  exact (conj H (conj T1 T3)).
Defined.

(** ** The repository *)

Lemma set_bucket_same ty l r : set_bucket ty l r ty = l.
Proof.
  unfold set_bucket. destruct (decide (ty = ty)) as [e | n]; [| congruence].
  rewrite (proof_irrel e eq_refl). reflexivity.
Qed.

Lemma set_bucket_other ty ty' l r : ty <> ty' -> set_bucket ty l r ty' = r ty'.
Proof.
  intros H. unfold set_bucket. destruct (decide (ty = ty')); [congruence | reflexivity].
Qed.



Lemma all_match_true s ty r filters :
  all_match s ty r filters = inr true <-> satisfies s ty filters r.
Proof.
  induction filters as [| [key val] filters IH]; cbn [all_match].
  - split; [intros _ k v [] | reflexivity].
  - split.
    + intros H k v [E | Hin].
      * injection E as <- <-. destruct (getattr ty r key) as [a|]; [| discriminate].
        exists a. split; [reflexivity|]. destruct (value_eqb s a val); [reflexivity | discriminate].
      * destruct (getattr ty r key) as [a|]; [| discriminate].
        destruct (value_eqb s a val); [| discriminate].
        apply IH; assumption.
    + intros H. destruct (H key val (or_introl eq_refl)) as (a & -> & ->).
      apply IH. intros k v Hin. apply H. right. assumption.
Qed.

Lemma all_match_defined s ty r filters :
  (forall key val, In (key, val) filters -> getattr ty r key <> None) ->
  exists b, all_match s ty r filters = inr b.
Proof.
  induction filters as [| [key val] filters IH]; intros H; cbn [all_match].
  - exists true. reflexivity.
  - destruct (getattr ty r key) as [a|] eqn:E.
    + destruct (value_eqb s a val).
      * apply IH. intros k v Hin. apply (H k v). right. assumption.
      * exists false. reflexivity.
    + exfalso. apply (H key val); [left; reflexivity | assumption].
Qed.

Lemma all_match_false s ty r filters :
  all_match s ty r filters = inr false -> ~ satisfies s ty filters r.
Proof.
  intros H Hs. apply all_match_true in Hs. congruence.
Qed.

Lemma every_match_nil s ty l : every_match s ty [] l = inr l.
Proof.
  induction l as [| x l IH]; cbn [every_match all_match]; [reflexivity|].
  rewrite IH. reflexivity.
Qed.

(** When the match of every record is decided by [f], [get] is [find] and
    [list_all] is [filter]. *)
Lemma next_match_find s ty filters (f : carrier ty -> bool) l :
  (forall r, all_match s ty r filters = inr (f r)) ->
  next_match s ty filters l = inr (List.find f l).
Proof.
  intros H. induction l as [| x l IH]; cbn [next_match List.find]; [reflexivity|].
  rewrite H. destruct (f x); [reflexivity | exact IH].
Qed.

Lemma every_match_filter s ty filters (f : carrier ty -> bool) l :
  (forall r, all_match s ty r filters = inr (f r)) ->
  every_match s ty filters l = inr (List.filter f l).
Proof.
  intros H. induction l as [| x l IH]; cbn [every_match List.filter]; [reflexivity|].
  rewrite H, IH. reflexivity.
Qed.





(** ** Genesis by [update] *)




(** C9, as the claim words it, fails on scenario S1: the update does not
    return normally, and the one document it imports has 3 edges, not 2. *)
Lemma minimal_genesis_has_three_edges_and_raises :
  let r := ProvInspector.update demo_runtime minimal_genesis_step (ProvInspector.new 0) in
  ~ (snd r = inr tt
     /\ exists doc, imported (fst r) = [doc]
          /\ count_elements doc = 3%nat /\ count_relations doc = 2%nat)
  /\ snd r = inl StopIteration
  /\ exists doc, imported (fst r) = [doc]
       /\ count_elements doc = 3%nat /\ count_relations doc = 3%nat.
Proof.
  intros r. split; [| split].
  - intros [H _]. vm_compute in H. discriminate H.
  - vm_compute. reflexivity.
  - eexists. split; [vm_compute; reflexivity|]. split; vm_compute; reflexivity.
Qed.

(** ** One iteration of the change loop *)

Lemma parent_changes_match s p l :
  every_match s (TPipelineChange PipelineChangeBase)
    [("pipeline_version_revision", VPipelineVersionRevision p)] l
  = inr (List.filter
           (fun c => PipelineVersionRevision_eqb s
                       (PipelineChange.pipeline_version_revision c) p) l).
Proof.
  apply every_match_filter. intros r. cbn.
  destruct (PipelineVersionRevision_eqb s _ p); reflexivity.
Qed.

Ltac run_change :=
  cbn -[OperatorCreationModel.build OperatorModificationModel.build
        OperatorDeletionModel.build ConnectionCreationModel.build
        ConnectionDeletionModel.build next_operator_revision remove_first];
  rewrite ?parent_changes_match;
  cbn -[OperatorCreationModel.build OperatorModificationModel.build
        OperatorDeletionModel.build ConnectionCreationModel.build
        ConnectionDeletionModel.build next_operator_revision remove_first];
  unfold OperatorCreationModel.build, OperatorModificationModel.build,
    OperatorDeletionModel.build, ConnectionCreationModel.build,
    ConnectionDeletionModel.build;
  cbn [required PipelineChange.operator_revision PipelineChange.connection].

Lemma apply_operator_creation rt t parent id operator_id operator_name operator_data s :
  exists s' r doc,
    ProvInspector.apply_change rt t parent
      (OperatorCreationPipelineChangeData id operator_id operator_name operator_data) s
    = (s', inr r)
    /\ built_on parent r /\ same_records s s'
    /\ operator_lists s'
       = <[PipelineVersionRevision.operators parent :=
             operators_of s parent
             ++ [OperatorRevision.mk (uuid4 rt (uuid_count s)) 0
                   (Operator.mk operator_id operator_name)
                   (map (fun kv => Param.mk (fst kv) (snd kv)) operator_data) None]]>
           (operator_lists s)
    /\ connection_lists s' = connection_lists s
    /\ imported s' = imported s ++ [doc].
Proof.
  destruct s as [self ini lv lr rp ol cl nl uc imp w].
  unfold ProvInspector.apply_change, ProvInspector.new_revision_and_change.
  run_change.
  eexists _, _, _. split; [reflexivity|].
  split; [repeat split|]. split; [repeat split|].
  split; [reflexivity|]. split; reflexivity.
Qed.

Lemma py_eqb_refl v : py_eqb v v = true.
Proof.
  destruct v as [| b | z | f | x]; cbn; try reflexivity;
    try apply Qeq_bool_refl. apply bool_decide_eq_true. reflexivity.
Qed.

Lemma list_eqb_refl {A : Type} (eqb : A -> A -> bool) (l : list A) :
  (forall x, eqb x x = true) -> list_eqb eqb l l = true.
Proof.
  intros H. induction l as [| x l IH]; cbn; [reflexivity|]. rewrite H, IH. reflexivity.
Qed.

Lemma Operator_eqb_eq a b : Operator.eqb a b = true <-> a = b.
Proof.
  unfold Operator.eqb. rewrite andb_true_iff, !bool_decide_eq_true.
  destruct a, b; cbn. split; [intros [-> ->]; reflexivity | intros E; injection E; auto].
Qed.

Lemma OperatorRevision_eqb_refl x : OperatorRevision.eqb x x = true.
Proof.
  unfold OperatorRevision.eqb.
  rewrite !bool_decide_eq_true_2 by reflexivity.
  rewrite (proj2 (Operator_eqb_eq _ _) eq_refl).
  rewrite list_eqb_refl; [reflexivity|].
  intros p. unfold Param.eqb. rewrite bool_decide_eq_true_2 by reflexivity.
  apply py_eqb_refl.
Qed.

Lemma OperatorRevision_eqb_operator a b :
  OperatorRevision.eqb a b = true -> OperatorRevision.operator a = OperatorRevision.operator b.
Proof.
  unfold OperatorRevision.eqb. rewrite !andb_true_iff.
  intros [[[[_ _] H] _] _]. apply Operator_eqb_eq. exact H.
Qed.

(** What [next] finds is the first revision of the operator, and [remove]
    takes exactly that element out. *)
Lemma next_then_remove operator l d :
  next_operator_revision operator l = inr d ->
  exists pre post,
    l = pre ++ d :: post
    /\ OperatorRevision.operator d = operator
    /\ (forall x, In x pre -> OperatorRevision.operator x <> operator)
    /\ remove_first OperatorRevision.eqb d l = Some (pre ++ post).
Proof.
  unfold next_operator_revision.
  induction l as [| y l IH]; cbn [List.find remove_first]; [discriminate|].
  destruct (Operator.eqb (OperatorRevision.operator y) operator) eqn:E.
  - intros H. injection H as <-. exists [], l. split; [reflexivity|].
    split; [apply Operator_eqb_eq; assumption|]. split; [intros x []|].
    rewrite OperatorRevision_eqb_refl. reflexivity.
  - intros H. destruct (IH H) as (pre & post & -> & Hd & Hpre & Hrem).
    exists (y :: pre), post. split; [reflexivity|]. split; [assumption|].
    split.
    + intros x [<- | Hx]; [| apply Hpre; assumption].
      intros Heq. apply Operator_eqb_eq in Heq. congruence.
    + destruct (OperatorRevision.eqb y d) eqn:Eyd.
      * apply OperatorRevision_eqb_operator in Eyd.
        assert (Operator.eqb (OperatorRevision.operator y) operator = true)
          by (apply Operator_eqb_eq; congruence).
        congruence.
      * rewrite Hrem. reflexivity.
Qed.

Lemma next_operator_revision_exn operator l e :
  next_operator_revision operator l = inl e -> e = StopIteration.
Proof.
  unfold next_operator_revision. destruct (List.find _ l); [discriminate|].
  intros H. injection H as <-. reflexivity.
Qed.

Lemma apply_operator_modification rt t parent id operator_id operator_name
    changed_parameter changed_value s d :
  next_operator_revision (Operator.mk operator_id operator_name) (operators_of s parent)
  = inr d ->
  exists s' r doc,
    ProvInspector.apply_change rt t parent
      (OperatorModificationPipelineChangeData id operator_id operator_name
         changed_parameter changed_value) s
    = (s', inr r)
    /\ built_on parent r /\ same_records s s'
    /\ operator_lists s'
       = <[PipelineVersionRevision.operators parent :=
             operators_of s parent
             ++ [OperatorRevision.mk (uuid4 rt (uuid_count s))
                   (OperatorRevision.id_ d + 1)
                   (Operator.mk operator_id operator_name)
                   (map (fun p => Param.mk (Param.name p) (Param.value p))
                      (List.filter
                         (fun p => negb (bool_decide (Param.name p = changed_parameter)))
                         (OperatorRevision.parameters d))
                    ++ [Param.mk changed_parameter changed_value])
                   (Some (OperatorRevision.uuid d))]]>
           (operator_lists s)
    /\ connection_lists s' = connection_lists s
    /\ imported s' = imported s ++ [doc].
Proof.
  intros H.
  destruct s as [self ini lv lr rp ol cl nl uc imp w].
  unfold operators_of in *. cbn [operator_lists] in H.
  unfold ProvInspector.apply_change, ProvInspector.new_revision_and_change, operators_of.
  run_change. rewrite H. run_change.
  eexists _, _, _. split; [reflexivity|].
  split; [repeat split|]. split; [repeat split|].
  split; [reflexivity|]. split; reflexivity.
Qed.

Lemma apply_operator_deletion rt t parent id operator_id operator_name s d :
  next_operator_revision (Operator.mk operator_id operator_name) (operators_of s parent)
  = inr d ->
  exists s' r doc pre post,
    ProvInspector.apply_change rt t parent
      (OperatorDeletionPipelineChangeData id operator_id operator_name) s
    = (s', inr r)
    /\ built_on parent r /\ same_records s s'
    /\ operators_of s parent = pre ++ d :: post
    /\ (forall x, In x pre ->
          OperatorRevision.operator x <> Operator.mk operator_id operator_name)
    /\ operator_lists s'
       = <[PipelineVersionRevision.operators parent := pre ++ post]> (operator_lists s)
    /\ connection_lists s' = connection_lists s
    /\ imported s' = imported s ++ [doc].
Proof.
  intros H.
  destruct (next_then_remove _ _ _ H) as (pre & post & Hl & _ & Hpre & Hrem).
  destruct s as [self ini lv lr rp ol cl nl uc imp w].
  unfold operators_of in *. cbn [operator_lists] in H, Hl, Hrem.
  unfold ProvInspector.apply_change, ProvInspector.new_revision_and_change, operators_of.
  run_change. rewrite H. run_change. rewrite Hrem. run_change.
  eexists _, _, _, pre, post. split; [reflexivity|].
  split; [repeat split|]. split; [repeat split|].
  split; [exact Hl|]. split; [exact Hpre|].
  split; [reflexivity|]. split; reflexivity.
Qed.

Lemma apply_connection_creation rt t parent id connection_id from_id to_id fs ts s :
  exists s' r doc,
    ProvInspector.apply_change rt t parent
      (ConnectionCreationPipelineChangeData id connection_id from_id to_id fs ts) s
    = (s', inr r)
    /\ built_on parent r /\ same_records s s'
    /\ operator_lists s' = operator_lists s
    /\ connection_lists s'
       = <[PipelineVersionRevision.connections parent :=
             connections_of s parent ++ [Connection.mk connection_id from_id to_id]]>
           (connection_lists s)
    /\ imported s' = imported s ++ [doc].
Proof.
  destruct s as [self ini lv lr rp ol cl nl uc imp w].
  unfold ProvInspector.apply_change, ProvInspector.new_revision_and_change.
  run_change.
  eexists _, _, _. split; [reflexivity|].
  split; [repeat split|]. split; [repeat split|].
  split; [reflexivity|]. split; reflexivity.
Qed.

Lemma apply_connection_deletion rt t parent id connection_id from_id to_id fs ts s :
  exists s' r doc,
    ProvInspector.apply_change rt t parent
      (ConnectionDeletionPipelineChangeData id connection_id from_id to_id fs ts) s
    = (s', inr r)
    /\ built_on parent r /\ same_records s s'
    /\ operator_lists s' = operator_lists s
    /\ connection_lists s'
       = <[PipelineVersionRevision.connections parent :=
             connections_of s parent ++ [Connection.mk connection_id from_id to_id]]>
           (connection_lists s)
    /\ imported s' = imported s ++ [doc].
Proof.
  destruct s as [self ini lv lr rp ol cl nl uc imp w].
  unfold ProvInspector.apply_change, ProvInspector.new_revision_and_change.
  run_change.
  eexists _, _, _. split; [reflexivity|].
  split; [repeat split|]. split; [repeat split|].
  split; [reflexivity|]. split; reflexivity.
Qed.

Lemma apply_operator_modification_raises rt t parent id operator_id operator_name
    changed_parameter changed_value s e :
  next_operator_revision (Operator.mk operator_id operator_name) (operators_of s parent)
  = inl e ->
  ProvInspector.apply_change rt t parent
    (OperatorModificationPipelineChangeData id operator_id operator_name
       changed_parameter changed_value) s
  = (s, inl StopIteration).
Proof.
  intros H. rewrite (next_operator_revision_exn _ _ _ H) in H.
  destruct s as [self ini lv lr rp ol cl nl uc imp w].
  unfold operators_of in *. cbn [operator_lists] in H.
  unfold ProvInspector.apply_change, operators_of.
  run_change. rewrite H. reflexivity.
Qed.

Lemma apply_operator_deletion_raises rt t parent id operator_id operator_name s e :
  next_operator_revision (Operator.mk operator_id operator_name) (operators_of s parent)
  = inl e ->
  ProvInspector.apply_change rt t parent
    (OperatorDeletionPipelineChangeData id operator_id operator_name) s
  = (s, inl StopIteration).
Proof.
  intros H. rewrite (next_operator_revision_exn _ _ _ H) in H.
  destruct s as [self ini lv lr rp ol cl nl uc imp w].
  unfold operators_of in *. cbn [operator_lists] in H.
  unfold ProvInspector.apply_change, operators_of.
  run_change. rewrite H. reflexivity.
Qed.

Lemma apply_execution_raises rt data t parent ms s e :
  next_operator_revision
    (Operator.mk (DebugStepData.operator_id data) (DebugStepData.operator_name data))
    (operators_of s parent) = inl e ->
  ProvInspector.apply_execution rt data t parent ms s = (s, inl StopIteration).
Proof.
  intros H. rewrite (next_operator_revision_exn _ _ _ H) in H.
  destruct s as [self ini lv lr rp ol cl nl uc imp w].
  unfold operators_of in *. cbn [operator_lists] in H.
  unfold ProvInspector.apply_execution, operators_of.
  cbn -[next_operator_revision]. rewrite H. reflexivity.
Qed.

(** ** Effects of a change on the lists *)

Lemma operators_of_built_on s s' parent r l :
  built_on parent r ->
  operator_lists s' = <[PipelineVersionRevision.operators parent := l]> (operator_lists s) ->
  operators_of s' r = l.
Proof.
  intros (_ & _ & _ & Ho & _) E. unfold operators_of. rewrite Ho, E.
  apply lookup_total_insert_eq.
Qed.

Lemma connections_of_built_on s s' parent r l :
  built_on parent r ->
  connection_lists s' = <[PipelineVersionRevision.connections parent := l]> (connection_lists s) ->
  connections_of s' r = l.
Proof.
  intros (_ & _ & _ & _ & Hc) E. unfold connections_of. rewrite Hc, E.
  apply lookup_total_insert_eq.
Qed.

Lemma operators_of_same s s' parent r :
  built_on parent r -> operator_lists s' = operator_lists s ->
  operators_of s' r = operators_of s parent.
Proof. intros (_ & _ & _ & Ho & _) E. unfold operators_of. rewrite Ho, E. reflexivity. Qed.

Lemma connections_of_same s s' parent r :
  built_on parent r -> connection_lists s' = connection_lists s ->
  connections_of s' r = connections_of s parent.
Proof. intros (_ & _ & _ & _ & Hc) E. unfold connections_of. rewrite Hc, E. reflexivity. Qed.

Lemma apply_change_frame (rt : Runtime) (t : datetime)
    (parent : PipelineVersionRevision.t) (c : PipelineChangeData) (s s' : State)
    (res : exn + PipelineVersionRevision.t) :
  ProvInspector.apply_change rt t parent c s = (s', res) ->
  same_records s s'
  /\ (forall l, l <> PipelineVersionRevision.operators parent ->
        operator_lists s' !! l = operator_lists s !! l)
  /\ (forall l, l <> PipelineVersionRevision.connections parent ->
        connection_lists s' !! l = connection_lists s !! l)
  /\ (forall r, res = inr r -> built_on parent r).
Proof.
  intros H.
  assert (Hrefl : same_records s s) by (repeat split).
  destruct c as [id oid name data | id oid name cp cv | id oid name
                | id cid f t' fs ts | id cid f t' fs ts].
  - destruct (apply_operator_creation rt t parent id oid name data s)
      as (s1 & r1 & doc & Hrun & Hb & Hs & Ho & Hc & _).
    rewrite Hrun in H. injection H as <- <-.
    split; [exact Hs|]. split; [| split].
    + intros l Hl. rewrite Ho. apply lookup_insert_ne. congruence.
    + intros l _. rewrite Hc. reflexivity.
    + intros r E. injection E as <-. exact Hb.
  - destruct (next_operator_revision (Operator.mk oid name) (operators_of s parent))
      as [e | d] eqn:E.
    + rewrite (apply_operator_modification_raises _ _ _ _ _ _ _ _ _ _ E) in H.
      injection H as <- <-. split; [exact Hrefl|].
      split; [reflexivity|]. split; [reflexivity | discriminate].
    + destruct (apply_operator_modification rt t parent id oid name cp cv s d E)
        as (s1 & r1 & doc & Hrun & Hb & Hs & Ho & Hc & _).
      rewrite Hrun in H. injection H as <- <-.
      split; [exact Hs|]. split; [| split].
      * intros l Hl. rewrite Ho. apply lookup_insert_ne. congruence.
      * intros l _. rewrite Hc. reflexivity.
      * intros r E'. injection E' as <-. exact Hb.
  - destruct (next_operator_revision (Operator.mk oid name) (operators_of s parent))
      as [e | d] eqn:E.
    + rewrite (apply_operator_deletion_raises _ _ _ _ _ _ _ _ E) in H.
      injection H as <- <-. split; [exact Hrefl|].
      split; [reflexivity|]. split; [reflexivity | discriminate].
    + destruct (apply_operator_deletion rt t parent id oid name s d E)
        as (s1 & r1 & doc & pre & post & Hrun & Hb & Hs & _ & _ & Ho & Hc & _).
      rewrite Hrun in H. injection H as <- <-.
      split; [exact Hs|]. split; [| split].
      * intros l Hl. rewrite Ho. apply lookup_insert_ne. congruence.
      * intros l _. rewrite Hc. reflexivity.
      * intros r E'. injection E' as <-. exact Hb.
  - destruct (apply_connection_creation rt t parent id cid f t' fs ts s)
      as (s1 & r1 & doc & Hrun & Hb & Hs & Ho & Hc & _).
    rewrite Hrun in H. injection H as <- <-.
    split; [exact Hs|]. split; [| split].
    + intros l _. rewrite Ho. reflexivity.
    + intros l Hl. rewrite Hc. apply lookup_insert_ne. congruence.
    + intros r E. injection E as <-. exact Hb.
  - destruct (apply_connection_deletion rt t parent id cid f t' fs ts s)
      as (s1 & r1 & doc & Hrun & Hb & Hs & Ho & Hc & _).
    rewrite Hrun in H. injection H as <- <-.
    split; [exact Hs|]. split; [| split].
    + intros l _. rewrite Ho. reflexivity.
    + intros l Hl. rewrite Hc. apply lookup_insert_ne. congruence.
    + intros r E. injection E as <-. exact Hb.
Qed.

(** C4. An OperatorDeletion change gives the new revision the operator
    list of the parent without the deleted OperatorRevision (the first
    revision of the event's operator; with no duplicates in the list it is
    no longer a member); a ConnectionDeletion change gives it the connection
    list of the parent plus the Connection rebuilt from the ids of the event,
    appended; an OperatorModification change gives it the operator list of
    the parent plus the new OperatorRevision, the old one still a member. *)
Theorem change_membership_sets (rt : Runtime) (t : datetime)
    (parent : PipelineVersionRevision.t) (s : State) :
  (forall id operator_id operator_name d,
      next_operator_revision (Operator.mk operator_id operator_name)
        (operators_of s parent) = inr d ->
      exists s' r pre post,
        ProvInspector.apply_change rt t parent
          (OperatorDeletionPipelineChangeData id operator_id operator_name) s
        = (s', inr r)
        /\ operators_of s parent = pre ++ d :: post
        /\ (forall x, In x pre ->
              OperatorRevision.operator x <> Operator.mk operator_id operator_name)
        /\ operators_of s' r = pre ++ post
        /\ (List.NoDup (operators_of s parent) -> ~ In d (operators_of s' r))
        /\ connections_of s' r = connections_of s parent)
  /\ (forall id connection_id from_id to_id from_socket to_socket,
        exists s' r,
          ProvInspector.apply_change rt t parent
            (ConnectionDeletionPipelineChangeData id connection_id from_id to_id
               from_socket to_socket) s
          = (s', inr r)
          /\ connections_of s' r
             = connections_of s parent ++ [Connection.mk connection_id from_id to_id]
          /\ operators_of s' r = operators_of s parent)
  /\ (forall id operator_id operator_name changed_parameter changed_value d,
        next_operator_revision (Operator.mk operator_id operator_name)
          (operators_of s parent) = inr d ->
        exists s' r new,
          ProvInspector.apply_change rt t parent
            (OperatorModificationPipelineChangeData id operator_id operator_name
               changed_parameter changed_value) s
          = (s', inr r)
          /\ operators_of s' r = operators_of s parent ++ [new]
          /\ In d (operators_of s' r)
          /\ OperatorRevision.operator new = Operator.mk operator_id operator_name
          /\ OperatorRevision.id_ new = OperatorRevision.id_ d + 1
          /\ OperatorRevision.parent_operator_revision_uuid new
             = Some (OperatorRevision.uuid d)
          /\ connections_of s' r = connections_of s parent).
Proof.
  split; [| split].
  - intros id operator_id operator_name d H.
    destruct (apply_operator_deletion rt t parent id operator_id operator_name s d H)
      as (s' & r & doc & pre & post & Hrun & Hb & _ & Hl & Hpre & Ho & Hc & _).
    exists s', r, pre, post. split; [exact Hrun|]. split; [exact Hl|].
    split; [exact Hpre|].
    assert (E : operators_of s' r = pre ++ post)
      by (eapply operators_of_built_on; eassumption).
    split; [exact E|]. split.
    + rewrite E, Hl. intros Hnd. apply NoDup_remove_2 in Hnd. exact Hnd.
    + eapply connections_of_same; eassumption.
  - intros id connection_id from_id to_id fs ts.
    destruct (apply_connection_deletion rt t parent id connection_id from_id to_id fs ts s)
      as (s' & r & doc & Hrun & Hb & _ & Ho & Hc & _).
    exists s', r. split; [exact Hrun|]. split.
    + eapply connections_of_built_on; eassumption.
    + eapply operators_of_same; eassumption.
  - intros id operator_id operator_name cp cv d H.
    destruct (apply_operator_modification rt t parent id operator_id operator_name
                cp cv s d H)
      as (s' & r & doc & Hrun & Hb & _ & Ho & Hc & _).
    eexists s', r, _. split; [exact Hrun|].
    assert (E := operators_of_built_on _ _ _ _ _ Hb Ho).
    split; [exact E|]. split.
    + rewrite E. apply in_or_app. left.
      destruct (next_then_remove _ _ _ H) as (pre & post & -> & _).
      apply in_or_app. right. left. reflexivity.
    + split; [reflexivity|]. split; [reflexivity|]. split; [reflexivity|].
      eapply connections_of_same; eassumption.
Qed.

(** ** Branch resolution *)

Lemma get_version_find s b l :
  next_match s TPipelineVersion [("id_", VInt b)] l
  = inr (List.find (fun pv => bool_decide (PipelineVersion.id_ pv = b)) l).
Proof.
  apply next_match_find. intros r. cbn. destruct (bool_decide _); reflexivity.
Qed.

Lemma get_version_none s l :
  next_match s TPipelineVersion [("id_", VNone)] l = inr None.
Proof.
  rewrite (next_match_find s TPipelineVersion _ (fun _ => false)).
  - induction l; cbn; [reflexivity | assumption].
  - intros r. reflexivity.
Qed.

Lemma list_revisions_filter s pv l :
  every_match s TPipelineVersionRevision [("pipeline_version", VPipelineVersion pv)] l
  = inr (List.filter
           (fun r => PipelineVersion.eqb (PipelineVersionRevision.pipeline_version r) pv) l).
Proof.
  apply every_match_filter. intros r. cbn. destruct (PipelineVersion.eqb _ pv); reflexivity.
Qed.

Lemma get_cached_revision_find s pv k l :
  next_match s TPipelineVersionRevision
    [("pipeline_version", VPipelineVersion pv); ("id_", VInt k)] l
  = inr (List.find
           (fun r => PipelineVersion.eqb (PipelineVersionRevision.pipeline_version r) pv
                     && bool_decide (PipelineVersionRevision.id_ r = k)) l).
Proof.
  apply next_match_find. intros r. cbn.
  destruct (PipelineVersion.eqb _ pv); [| reflexivity].
  destruct (bool_decide _); reflexivity.
Qed.

Lemma get_creation_find s x l :
  next_match s TPipelineVersionCreation
    [("pipeline_version_revision", VPipelineVersionRevision x)] l
  = inr (List.find
           (fun c => PipelineVersionRevision_eqb s
                       (PipelineVersionCreation.pipeline_version_revision c) x) l).
Proof.
  apply next_match_find. intros r. cbn.
  destruct (PipelineVersionRevision_eqb s _ x); reflexivity.
Qed.

Lemma find_filter {A : Type} (f g : A -> bool) (l : list A) :
  List.find g (List.filter f l) = List.find (fun x => f x && g x) l.
Proof.
  induction l as [| x l IH]; cbn; [reflexivity|].
  destruct (f x); cbn; [destruct (g x); [reflexivity | exact IH] | exact IH].
Qed.

Ltac run_resolve :=
  cbn -[PipelineVersionCreationModel.build List.find List.filter last];
  rewrite ?every_match_nil, ?get_version_find, ?get_version_none, ?list_revisions_filter,
    ?get_cached_revision_find, ?get_creation_find;
  cbn -[PipelineVersionCreationModel.build].

(** C1, as the code has it. When the branch id of the step names a stored
    pipeline version, [update] resolves the parent revision without touching
    the state. If the branch is not the cached last-used one, the parent is
    the most recent (last inserted) stored revision of the branch. If it is
    the cached one, the parent is the first stored revision of the branch
    whose sequence id equals the cached last-used revision id; that is the
    most recent revision whenever the branch has a single stored revision
    and it carries the cached id. *)
Theorem resolve_existing_branch (rt : Runtime) (data : DebugStepData.t) (t : datetime)
    (s : State) (pv : PipelineVersion.t) :
  stored_version s (DebugStepData.branch_id data) = Some pv ->
  exists resolved,
    ProvInspector.resolve_branch rt data t s = (s, resolved)
    /\ (last_pipeline_version_id s <> DebugStepData.branch_id data ->
        resolved = match last (revisions_of s pv) with
                   | Some r => inr (pv, Some r)
                   | None => inl IndexError
                   end)
    /\ (last_pipeline_version_id s = DebugStepData.branch_id data ->
        resolved
        = inr (pv, List.find
                     (fun r => bool_decide (PipelineVersionRevision.id_ r
                                            = last_pipeline_version_revision_id s))
                     (revisions_of s pv))
        /\ forall r, revisions_of s pv = [r] ->
             PipelineVersionRevision.id_ r = last_pipeline_version_revision_id s ->
             resolved = inr (pv, last (revisions_of s pv))).
Proof.
  intros H. unfold stored_version, revisions_of in *.
  destruct s as [self ini lv lr rp ol cl nl uc imp w]. cbn [repo] in *.
  cbn [last_pipeline_version_id last_pipeline_version_revision_id].
  unfold ProvInspector.resolve_branch.
  assert (Hne : exists v vs, rp TPipelineVersion = v :: vs)
    by (destruct (rp TPipelineVersion) as [| v vs]; [discriminate H | eauto]).
  destruct Hne as (v0 & vs & Hb).
  destruct (bool_decide (lv = DebugStepData.branch_id data)) eqn:Ebd;
    [apply bool_decide_eq_true in Ebd | apply bool_decide_eq_false in Ebd].
  - eexists. split.
    + destruct ini; run_resolve; [| rewrite Hb; run_resolve ]; rewrite H; run_resolve;
        rewrite (bool_decide_eq_true_2 _ Ebd); run_resolve; reflexivity.
    + split; [intros Hn; contradiction|]. intros _. split.
      * rewrite find_filter. reflexivity.
      * intros r Hr Hid. rewrite <- find_filter, Hr. cbn.
        rewrite (bool_decide_eq_true_2 _ Hid). reflexivity.
  - exists (match last (List.filter
                          (fun r => PipelineVersion.eqb
                                      (PipelineVersionRevision.pipeline_version r) pv)
                          (rp TPipelineVersionRevision)) with
            | Some r => inr (pv, Some r)
            | None => inl IndexError
            end).
    split.
    + destruct ini; run_resolve; [| rewrite Hb; run_resolve ]; rewrite H; run_resolve;
        rewrite (bool_decide_eq_false_2 _ Ebd); run_resolve;
        unfold last_item; destruct (last _); reflexivity.
    + split; [| intros Hn; contradiction]. intros _. reflexivity.
Qed.

Lemma PipelineVersionCreationModel_build_ok rt s c R o :
  exists doc, PipelineVersionCreationModel.build rt s c (Some R) o = inr doc.
Proof.
  unfold PipelineVersionCreationModel.build. destruct o; cbn [required]; eauto.
Qed.

Lemma get_parent_version s data :
  next_match s TPipelineVersion
    [("id_", VOptInt (DebugStepData.parent_branch_id data))] (repo s TPipelineVersion)
  = inr (stored_parent s data).
Proof.
  unfold stored_parent, stored_version.
  destruct (DebugStepData.parent_branch_id data); cbn [VOptInt];
    [apply get_version_find | apply get_version_none].
Qed.

Lemma resolve_unknown_parent (rt : Runtime) (data : DebugStepData.t) (t : datetime)
    (s : State) :
  (initialized s = true \/ repo s TPipelineVersion <> []) ->
  stored_version s (DebugStepData.branch_id data) = None ->
  stored_parent s data = None ->
  ProvInspector.resolve_branch rt data t s = (s, inl AttributeError).
Proof.
  intros Hgen Hb Hp.
  pose proof (get_parent_version s data) as Hget. rewrite Hp in Hget.
  unfold stored_version in *.
  destruct s as [self ini lv lr rp ol cl nl uc imp w]. cbn [repo initialized] in *.
  unfold ProvInspector.resolve_branch.
  destruct ini.
  - run_resolve. rewrite Hb. run_resolve.
    cbn -[List.find] in Hget. rewrite Hget. reflexivity.
  - destruct Hgen as [Hgen | Hgen]; [discriminate Hgen|].
    assert (Hne : exists v vs, rp TPipelineVersion = v :: vs)
      by (destruct (rp TPipelineVersion) as [| v vs]; [congruence | eauto]).
    destruct Hne as (v0 & vs & Hbucket).
    run_resolve. rewrite Hbucket. run_resolve. rewrite Hb. run_resolve.
    cbn -[List.find] in Hget. rewrite Hget. reflexivity.
Qed.

Lemma resolve_new_branch (rt : Runtime) (data : DebugStepData.t) (t : datetime)
    (s : State) (parent_version : PipelineVersion.t) (R : PipelineVersionRevision.t) :
  (initialized s = true \/ repo s TPipelineVersion <> []) ->
  stored_version s (DebugStepData.branch_id data) = None ->
  stored_parent s data = Some parent_version ->
  last (revisions_of s parent_version) = Some R ->
  let version :=
    PipelineVersion.mk (DebugStepData.branch_id data)
      (Some (PipelineVersion.id_ parent_version)) in
  let genesis :=
    PipelineVersionRevision.mk (uuid4 rt (uuid_count s)) 0 version
      (Some (PipelineVersionRevision.uuid R))
      (PipelineVersionRevision.operators R) (PipelineVersionRevision.connections R) in
  exists s' doc,
    ProvInspector.resolve_branch rt data t s = (s', inr (version, Some genesis))
    /\ repo s' TPipelineVersion = repo s TPipelineVersion ++ [version]
    /\ repo s' TPipelineVersionRevision = repo s TPipelineVersionRevision ++ [genesis]
    /\ operator_lists s' = operator_lists s
    /\ connection_lists s' = connection_lists s
    /\ imported s' = imported s ++ [doc]
    /\ initialized s' = initialized s
    /\ last_pipeline_version_id s' = last_pipeline_version_id s
    /\ last_pipeline_version_revision_id s' = last_pipeline_version_revision_id s
    /\ (exists creation,
          repo s' TPipelineVersionCreation = repo s TPipelineVersionCreation ++ [creation]
          /\ PipelineVersionCreation.pipeline_version_revision creation = genesis)
    /\ (forall c, repo s' (TPipelineChange c) = repo s (TPipelineChange c))
    /\ warnings s' = warnings s
    /\ next_loc s' = next_loc s
    /\ (let found :=
          List.find
            (fun c => PipelineVersionRevision_eqb s
                        (PipelineVersionCreation.pipeline_version_revision c) genesis)
            (repo s TPipelineVersionCreation) in
        let creation :=
          PipelineVersionCreation.mk (uuid4 rt (S (uuid_count s))) genesis
            (PipelineVersionCreation.uuid <$> found) t in
        repo s' TPipelineVersionCreation = repo s TPipelineVersionCreation ++ [creation]
        /\ PipelineVersionCreationModel.build rt s' creation (Some R) found = inr doc).
Proof.
  intros Hgen Hb Hp HR version genesis.
  pose proof (get_parent_version s data) as Hget. rewrite Hp in Hget.
  unfold stored_version, revisions_of in *.
  destruct s as [self ini lv lr rp ol cl nl uc imp w].
  cbn [repo initialized uuid_count] in *.
  subst version genesis.
  cbn -[List.find] in Hget.
  assert (HR' : last_item
                  (List.filter
                     (fun r => PipelineVersion.eqb
                                 (PipelineVersionRevision.pipeline_version r) parent_version)
                     (rp TPipelineVersionRevision)) = inr R)
    by (unfold last_item; rewrite HR; reflexivity).
  unfold ProvInspector.resolve_branch.
  assert (Hne : ini = true \/ exists v vs, rp TPipelineVersion = v :: vs).
  { destruct Hgen as [Hgen | Hgen]; [left; exact Hgen | right].
    destruct (rp TPipelineVersion) as [| v vs]; [congruence | eauto]. }
  destruct ini; [| destruct Hne as [Hne | (v0 & vs & Hbucket)]; [discriminate Hne|]];
    run_resolve; rewrite ?Hbucket; run_resolve;
    rewrite Hb; run_resolve; rewrite Hget; run_resolve; rewrite HR'; run_resolve;
    match goal with
    | |- context [PipelineVersionCreationModel.build ?a ?b ?c (Some ?d) ?e] =>
        destruct (PipelineVersionCreationModel_build_ok a b c d e) as [doc Hdoc];
        rewrite Hdoc
    end;
    run_resolve; eexists _, doc; (split; [reflexivity|]);
    rewrite ?set_bucket_same, ?Hbucket;
    (split; [reflexivity|]); (split; [reflexivity|]); (split; [reflexivity|]);
    (split; [reflexivity|]); (split; [reflexivity|]); (split; [reflexivity|]);
    (split; [reflexivity|]); (split; [reflexivity|]);
    (split; [eexists; split; reflexivity|]);
    (split; [intros c; reflexivity|]); (split; [reflexivity|]); (split; [reflexivity|]);
    (split; [reflexivity | exact Hdoc]).
Qed.

(** ** Enumerations read from the wire *)


Ltac split_spelling s :=
  repeat match goal with
         | |- context [String.eqb s ?x] => destruct (String.eqb_spec s x) as [-> | ?]
         end.

(** X13. [PipelineChangeType.from_string] returns a member exactly for the
    member's name ([OPERATOR_CREATION], ...) and for its value
    ([OperatorCreation], ...), which is what [to_string] prints: reading back
    either spelling gives the member, and every other string, whatever its
    case, raises [NotImplementedError]. *)
Theorem PipelineChangeType_from_string_accepts_two_spellings
    (s : string) (c : PipelineChangeType) :
  PipelineChangeType_from_string s = Some c
  <-> s = PipelineChangeType_name c \/ s = PipelineChangeType_to_string c.
Proof.
  split.
  - unfold PipelineChangeType_from_string. split_spelling s; cbn;
      intros H; inversion H; subst; cbn; auto.
  - intros [-> | ->]; destruct c; reflexivity.
Qed.

(** X14. [OperatorStepType.from_string] returns a member exactly for the
    member's name and for its value, which is what [to_string] prints; every
    other string raises [NotImplementedError]. *)
Theorem OperatorStepType_from_string_accepts_two_spellings
    (s : string) (c : OperatorStepType) :
  OperatorStepType_from_string s = Some c
  <-> s = OperatorStepType_name c \/ s = OperatorStepType_to_string c.
Proof.
  split.
  - unfold OperatorStepType_from_string. split_spelling s; cbn;
      intros H; inversion H; subst; cbn; auto.
  - intros [-> | ->]; destruct c; reflexivity.
Qed.

Lemma unquote_head_quote_byte c s : unquote_head (quote_byte c +:+ s) = Some (c, s).
Proof. destruct c as [[] [] [] [] [] [] [] []]; reflexivity. Qed.

Lemma quote_byte_head c : exists x r, quote_byte c = String x r /\ x <> "&"%char.
Proof.
  destruct c as [[] [] [] [] [] [] [] []]; eexists _, _; (split; [reflexivity | discriminate]).
Qed.

Lemma quote_plus_inj s1 s2 : quote_plus s1 = quote_plus s2 -> s1 = s2.
Proof.
  revert s2. induction s1 as [| c1 s1 IH]; intros [| c2 s2]; cbn [quote_plus]; intros H.
  - reflexivity.
  - apply (f_equal unquote_head) in H. rewrite unquote_head_quote_byte in H. discriminate H.
  - apply (f_equal unquote_head) in H. rewrite unquote_head_quote_byte in H. discriminate H.
  - apply (f_equal unquote_head) in H. rewrite !unquote_head_quote_byte in H.
    injection H as -> H. rewrite (IH _ H). reflexivity.
Qed.

Lemma int_of_string_of_int d :
  exists d', NilZero.int_of_string (NilZero.string_of_int d) = Some d'
             /\ Z.of_int d' = Z.of_int d.
Proof.
  destruct d as [u | u]; destruct u;
    first [ eexists; split; [apply NilZero.isi_posnil | reflexivity]
          | eexists; split; [apply NilZero.isi_negnil | reflexivity]
          | eexists; split; [apply NilZero.isi; discriminate | reflexivity] ].
Qed.

Lemma str_int_inj a b : str_int a = str_int b -> a = b.
Proof.
  unfold str_int. intros H.
  destruct (int_of_string_of_int (Z.to_int a)) as (da & Ha & Ea).
  destruct (int_of_string_of_int (Z.to_int b)) as (db & Hb & Eb).
  rewrite H, Hb in Ha. injection Ha as <-.
  rewrite Eb in Ea. rewrite !DecimalZ.of_to in Ea. symmetry. exact Ea.
Qed.

(** ** Identifiers *)

Lemma append_nil_l s : "" +:+ s = s.
Proof. reflexivity. Qed.

Lemma append_cons x r s : String x r +:+ s = String x (r +:+ s).
Proof. reflexivity. Qed.

Lemma append_inv_head p x y : p +:+ x = p +:+ y -> x = y.
Proof.
  induction p as [| c p IH]; rewrite ?append_nil_l, ?append_cons; intros H; [exact H|].
  injection H as H. exact (IH H).
Qed.

Lemma append_assoc_str a b c : (a +:+ b) +:+ c = a +:+ (b +:+ c).
Proof.
  induction a as [| x a IH]; rewrite ?append_nil_l, ?append_cons; [reflexivity|].
  rewrite IH. reflexivity.
Qed.

Lemma quoted_field_inj n1 n2 r1 r2 :
  quote_plus n1 +:+ String "&" r1 = quote_plus n2 +:+ String "&" r2 ->
  n1 = n2 /\ r1 = r2.
Proof.
  revert n2. induction n1 as [| c1 n1 IH]; intros [| c2 n2]; cbn [quote_plus]; intros H.
  - rewrite !append_nil_l in H. injection H as H. auto.
  - exfalso. destruct (quote_byte_head c2) as (x & r & E & Hx).
    rewrite E, append_nil_l, !append_cons in H. injection H as H _. congruence.
  - exfalso. destruct (quote_byte_head c1) as (x & r & E & Hx).
    rewrite E, append_nil_l, !append_cons in H. injection H as H _. congruence.
  - rewrite !append_assoc_str in H.
    apply (f_equal unquote_head) in H. rewrite !unquote_head_quote_byte in H.
    injection H as -> H. destruct (IH _ H) as [-> ->]. auto.
Qed.

Ltac strip_identifier H :=
  unfold qn_uri, qualified_name in H; cbn [qn_namespace qn_localpart] in H;
  apply append_inv_head in H; apply append_inv_head in H.

(** X15. Within a class, the PROV identifier of a record determines the
    field it is computed from: two pipeline versions, operators or
    connections with the same identifier have the same id, two revisions,
    creations, changes or executions the same uuid, two operator runs the
    same id; two parameters with the same identifier have the same name and
    the same value hash, two metrics the same name and the same printed
    value. Percent-quoting loses nothing, and the quoted name cannot run
    into the [&value=] part. Identifiers are compared by their URI, as the
    library does. *)
Theorem prov_identifier_determines_the_key (rt : Runtime) :
  (forall a b, qn_uri (PipelineVersion.prov_identifier a)
               = qn_uri (PipelineVersion.prov_identifier b) ->
               PipelineVersion.id_ a = PipelineVersion.id_ b)
  /\ (forall a b, qn_uri (PipelineVersionRevision.prov_identifier a)
                  = qn_uri (PipelineVersionRevision.prov_identifier b) ->
                  PipelineVersionRevision.uuid a = PipelineVersionRevision.uuid b)
  /\ (forall a b, qn_uri (Operator.prov_identifier a) = qn_uri (Operator.prov_identifier b) ->
                  Operator.id_ a = Operator.id_ b)
  /\ (forall a b, qn_uri (OperatorRevision.prov_identifier a)
                  = qn_uri (OperatorRevision.prov_identifier b) ->
                  OperatorRevision.uuid a = OperatorRevision.uuid b)
  /\ (forall a b, qn_uri (Param.prov_identifier rt a) = qn_uri (Param.prov_identifier rt b) ->
                  Param.name a = Param.name b
                  /\ py_hash rt (Param.value a) = py_hash rt (Param.value b))
  /\ (forall a b, qn_uri (Metric.prov_identifier rt a) = qn_uri (Metric.prov_identifier rt b) ->
                  Metric.name a = Metric.name b
                  /\ py_str rt (Metric.value a) = py_str rt (Metric.value b))
  /\ (forall a b, qn_uri (OperatorRun.prov_identifier a)
                  = qn_uri (OperatorRun.prov_identifier b) ->
                  OperatorRun.id_ a = OperatorRun.id_ b)
  /\ (forall a b, qn_uri (Connection.prov_identifier a)
                  = qn_uri (Connection.prov_identifier b) ->
                  Connection.id_ a = Connection.id_ b)
  /\ (forall a b, qn_uri (PipelineVersionCreation.prov_identifier a)
                  = qn_uri (PipelineVersionCreation.prov_identifier b) ->
                  PipelineVersionCreation.uuid a = PipelineVersionCreation.uuid b)
  /\ (forall a b, qn_uri (PipelineChange.prov_identifier a)
                  = qn_uri (PipelineChange.prov_identifier b) ->
                  PipelineChange.uuid a = PipelineChange.uuid b)
  /\ (forall a b, qn_uri (OperatorExecution.prov_identifier a)
                  = qn_uri (OperatorExecution.prov_identifier b) ->
                  OperatorExecution.uuid a = OperatorExecution.uuid b).
Proof.
  repeat match goal with |- _ /\ _ => split end; intros a b H.
  - unfold PipelineVersion.prov_identifier in H. strip_identifier H.
    apply str_int_inj, quote_plus_inj, H.
  - unfold PipelineVersionRevision.prov_identifier in H. strip_identifier H.
    apply quote_plus_inj, H.
  - unfold Operator.prov_identifier in H. strip_identifier H.
    apply str_int_inj, quote_plus_inj, H.
  - unfold OperatorRevision.prov_identifier in H. strip_identifier H.
    apply quote_plus_inj, H.
  - unfold Param.prov_identifier in H. strip_identifier H.
    apply quoted_field_inj in H. destruct H as [Hn H]. split; [exact Hn|].
    apply str_int_inj. apply (append_inv_head "value="). exact H.
  - unfold Metric.prov_identifier in H. strip_identifier H.
    apply quoted_field_inj in H. destruct H as [Hn H]. split; [exact Hn|].
    apply (append_inv_head "value="). exact H.
  - unfold OperatorRun.prov_identifier in H. strip_identifier H.
    apply quote_plus_inj, H.
  - unfold Connection.prov_identifier in H. strip_identifier H.
    apply str_int_inj, quote_plus_inj, H.
  - unfold PipelineVersionCreation.prov_identifier in H. strip_identifier H.
    apply quote_plus_inj, H.
  - unfold PipelineChange.prov_identifier in H. strip_identifier H.
    apply quote_plus_inj, H.
  - unfold OperatorExecution.prov_identifier in H. strip_identifier H.
    apply quote_plus_inj, H.
Qed.

(** ** The change loop and the branch lookup on worked states *)

(** On the translator initialized on one operator, deleting that operator
    leaves the new revision without it. *)
Lemma change_membership_sets_witness :
  next_operator_revision (Operator.mk 7 "filter")
    (operators_of initialized_demo demo_genesis_revision) = inr demo_operator_revision
  /\ exists s' r pre post,
       ProvInspector.apply_change demo_runtime 1%Q demo_genesis_revision
         (OperatorDeletionPipelineChangeData "c3" 7 "filter") initialized_demo
       = (s', inr r)
       /\ operators_of initialized_demo demo_genesis_revision
          = pre ++ demo_operator_revision :: post
       /\ operators_of s' r = pre ++ post.
Proof.
  assert (H : next_operator_revision (Operator.mk 7 "filter")
                (operators_of initialized_demo demo_genesis_revision)
              = inr demo_operator_revision) by (vm_compute; reflexivity).
  split; [exact H|].
  destruct (change_membership_sets demo_runtime 1%Q demo_genesis_revision initialized_demo)
    as (Hdel & _ & _).
  destruct (Hdel "c3" 7 "filter" demo_operator_revision H)
    as (s' & r & pre & post & Hrun & Hl & _ & Ho & _).
  exists s', r, pre, post. split; [exact Hrun|]. split; [exact Hl | exact Ho].
Defined.

(** On the translator initialized on one operator, a step on branch 0
    resolves to the genesis revision and leaves the state as it is. *)
Lemma resolve_existing_branch_witness :
  stored_version initialized_demo (DebugStepData.branch_id plain_step)
  = Some (PipelineVersion.mk 0 None)
  /\ exists resolved,
       ProvInspector.resolve_branch demo_runtime plain_step 1%Q initialized_demo
       = (initialized_demo, resolved)
       /\ resolved = inr (PipelineVersion.mk 0 None, Some demo_genesis_revision).
Proof.
  assert (H : stored_version initialized_demo (DebugStepData.branch_id plain_step)
              = Some (PipelineVersion.mk 0 None)) by (vm_compute; reflexivity).
  split; [exact H|].
  destruct (resolve_existing_branch demo_runtime plain_step 1%Q initialized_demo _ H)
    as (resolved & Hrun & _ & Hcached).
  exists resolved. split; [exact Hrun|].
  destruct (Hcached ltac:(reflexivity)) as (_ & Hone).
  rewrite (Hone demo_genesis_revision ltac:(vm_compute; reflexivity) ltac:(reflexivity)).
  vm_compute. reflexivity.
Defined.

(** X5. Whatever one iteration of the change loop does, and whether it
    returns or raises, it files nothing in the repository and leaves the
    flag, the cached ids and every list object other than the two of the
    parent revision as they were. When it returns, the new revision has the
    next sequence id, the pipeline version of the parent and the uuid of the
    parent as its parent pointer, and its operators and connections are the
    very list objects of the parent: after the change the parent revision
    shows the same operators and connections as the new one. *)
Theorem change_updates_lists_in_place (rt : Runtime) (t : datetime)
    (parent : PipelineVersionRevision.t) (c : PipelineChangeData) (s s' : State)
    (res : exn + PipelineVersionRevision.t) :
  ProvInspector.apply_change rt t parent c s = (s', res) ->
  same_records s s'
  /\ (forall l, l <> PipelineVersionRevision.operators parent ->
        operator_lists s' !! l = operator_lists s !! l)
  /\ (forall l, l <> PipelineVersionRevision.connections parent ->
        connection_lists s' !! l = connection_lists s !! l)
  /\ (forall r, res = inr r ->
        built_on parent r
        /\ operators_of s' parent = operators_of s' r
        /\ connections_of s' parent = connections_of s' r).
Proof.
  intros H. destruct (apply_change_frame rt t parent c s s' res H) as (Hs & Ho & Hc & Hb).
  split; [exact Hs|]. split; [exact Ho|]. split; [exact Hc|].
  intros r E. pose proof (Hb r E) as B. split; [exact B|].
  destruct B as (_ & _ & _ & Hro & Hrc).
  unfold operators_of, connections_of. rewrite Hro, Hrc. split; reflexivity.
Qed.

(** Creating a second operator on the initialized translator. *)
Lemma change_updates_lists_in_place_witness :
  exists s' r,
    ProvInspector.apply_change demo_runtime 1%Q demo_genesis_revision
      (OperatorCreationPipelineChangeData "c2" 8 "map" []) initialized_demo
    = (s', inr r)
    /\ same_records initialized_demo s'
    /\ operators_of s' demo_genesis_revision = operators_of s' r.
Proof.
  destruct (apply_operator_creation demo_runtime 1%Q demo_genesis_revision "c2" 8 "map" []
              initialized_demo) as (s' & r & doc & Hrun & _).
  exists s', r. split; [exact Hrun|].
  destruct (change_updates_lists_in_place demo_runtime 1%Q demo_genesis_revision
              (OperatorCreationPipelineChangeData "c2" 8 "map" []) initialized_demo s'
              (inr r) Hrun) as (Hs & _ & _ & Hr).
  destruct (Hr r eq_refl) as (_ & Ho & _). exact (conj Hs Ho).
Defined.

(** An update that creates an operator changes what the stored genesis
    revision lists as its operators, although the repository holds the same
    single revision before and after. *)
Lemma creation_changes_the_operators_of_the_stored_parent :
  let r := ProvInspector.update demo_runtime creation_step initialized_demo in
  snd r = inr tt
  /\ repo initialized_demo TPipelineVersionRevision = [demo_genesis_revision]
  /\ repo (fst r) TPipelineVersionRevision = [demo_genesis_revision]
  /\ length (operators_of initialized_demo demo_genesis_revision) = 1%nat
  /\ length (operators_of (fst r) demo_genesis_revision) = 2%nat.
Proof.
  intros r. repeat split; vm_compute; reflexivity.
Qed.

(** X2. The first step on a branch that is not stored, naming a stored
    parent branch that has a revision, files a new pipeline version whose
    parent is the parent branch, and a genesis revision for it: sequence id
    0 (not the successor of the revision it points to), the new version, the
    uuid of the most recent revision of the parent branch as parent pointer,
    and the very list objects of that revision as operators and connections.
    One version, one revision and one creation are appended to the
    repository and one document is imported; the flag and the cached ids
    are not touched by the lookup. *)
Theorem new_branch_starts_from_the_latest_parent_revision
    (rt : Runtime) (data : DebugStepData.t) (t : datetime) (s : State)
    (parent_version : PipelineVersion.t) (R : PipelineVersionRevision.t) :
  (initialized s = true \/ repo s TPipelineVersion <> []) ->
  stored_version s (DebugStepData.branch_id data) = None ->
  stored_parent s data = Some parent_version ->
  last (revisions_of s parent_version) = Some R ->
  exists s' version genesis creation,
    ProvInspector.resolve_branch rt data t s = (s', inr (version, Some genesis))
    /\ version = PipelineVersion.mk (DebugStepData.branch_id data)
                   (Some (PipelineVersion.id_ parent_version))
    /\ PipelineVersionRevision.id_ genesis = 0
    /\ PipelineVersionRevision.pipeline_version genesis = version
    /\ PipelineVersionRevision.parent_pipeline_version_revision_uuid genesis
       = Some (PipelineVersionRevision.uuid R)
    /\ PipelineVersionRevision.operators genesis = PipelineVersionRevision.operators R
    /\ PipelineVersionRevision.connections genesis = PipelineVersionRevision.connections R
    /\ operators_of s' genesis = operators_of s R
    /\ connections_of s' genesis = connections_of s R
    /\ repo s' TPipelineVersion = repo s TPipelineVersion ++ [version]
    /\ repo s' TPipelineVersionRevision = repo s TPipelineVersionRevision ++ [genesis]
    /\ repo s' TPipelineVersionCreation = repo s TPipelineVersionCreation ++ [creation]
    /\ PipelineVersionCreation.pipeline_version_revision creation = genesis
    /\ length (imported s') = S (length (imported s))
    /\ initialized s' = initialized s
    /\ last_pipeline_version_id s' = last_pipeline_version_id s
    /\ last_pipeline_version_revision_id s' = last_pipeline_version_revision_id s.
Proof.
  intros Hgen Hb Hp HR.
  destruct (resolve_new_branch rt data t s parent_version R Hgen Hb Hp HR)
    as (s' & doc & Hrun & Hv & Hrepo & Hol & Hcl & Himp & Hini & Hlv & Hlr
        & (creation & Hcr & Hcg) & _).
  eexists s', _, _, creation. split; [exact Hrun|].
  split; [reflexivity|]. split; [reflexivity|]. split; [reflexivity|].
  split; [reflexivity|]. split; [reflexivity|]. split; [reflexivity|].
  split; [unfold operators_of; rewrite Hol; reflexivity|].
  split; [unfold connections_of; rewrite Hcl; reflexivity|].
  split; [exact Hv|]. split; [exact Hrepo|]. split; [exact Hcr|]. split; [exact Hcg|].
  split; [rewrite Himp, length_app; cbn; lia|].
  split; [exact Hini|]. split; [exact Hlv | exact Hlr].
Qed.

(** A step on branch 1 with parent branch 0, on the initialized translator. *)
Lemma new_branch_starts_from_the_latest_parent_revision_witness :
  exists s' version genesis,
    ProvInspector.resolve_branch demo_runtime branch_step 1%Q initialized_demo
    = (s', inr (version, Some genesis))
    /\ PipelineVersionRevision.id_ genesis = 0
    /\ PipelineVersionRevision.parent_pipeline_version_revision_uuid genesis
       = Some (PipelineVersionRevision.uuid demo_genesis_revision).
Proof.
  destruct (new_branch_starts_from_the_latest_parent_revision demo_runtime branch_step 1%Q
              initialized_demo (PipelineVersion.mk 0 None) demo_genesis_revision)
    as (s' & version & genesis & creation & Hrun & _ & Hid & _ & Hp & _).
  - left. reflexivity.
  - vm_compute. reflexivity.
  - vm_compute. reflexivity.
  - vm_compute. reflexivity.
  - exists s', version, genesis. exact (conj Hrun (conj Hid Hp)).
Defined.

(** After an update that opened branch 1 from branch 0, the repository holds
    a revision that points to a stored parent but is neither its successor
    in sequence nor of its pipeline version. *)
Lemma branch_genesis_does_not_follow_its_parent :
  let s' := fst (ProvInspector.update demo_runtime branch_step initialized_demo) in
  exists r p,
    In r (repo s' TPipelineVersionRevision)
    /\ In p (repo s' TPipelineVersionRevision)
    /\ PipelineVersionRevision.parent_pipeline_version_revision_uuid r
       = Some (PipelineVersionRevision.uuid p)
    /\ PipelineVersionRevision.id_ r <> PipelineVersionRevision.id_ p + 1
    /\ PipelineVersionRevision.pipeline_version r
       <> PipelineVersionRevision.pipeline_version p.
Proof.
  intros s'.
  exists (PipelineVersionRevision.mk "uuid-2" 0 (PipelineVersion.mk 1 (Some 0))
            (Some "uuid-1") 0%nat 1%nat), demo_genesis_revision.
  assert (E : repo s' TPipelineVersionRevision
              = [demo_genesis_revision;
                 PipelineVersionRevision.mk "uuid-2" 0 (PipelineVersion.mk 1 (Some 0))
                   (Some "uuid-1") 0%nat 1%nat]) by (vm_compute; reflexivity).
  rewrite E. split; [right; left; reflexivity|]. split; [left; reflexivity|].
  split; [reflexivity|]. split; [cbn; lia | cbn; congruence].
Qed.

(** A translator that saw a step before it was initialized holds two
    revisions 0 of version 0; on the cached branch the lookup by id returns
    the older one, not the most recent. *)
Lemma cached_lookup_misses_the_latest_revision :
  exists pv parent latest,
    stored_version late_initialized_demo (DebugStepData.branch_id plain_step) = Some pv
    /\ last_pipeline_version_id late_initialized_demo = DebugStepData.branch_id plain_step
    /\ snd (ProvInspector.resolve_branch demo_runtime plain_step 1%Q late_initialized_demo)
       = inr (pv, Some parent)
    /\ last (revisions_of late_initialized_demo pv) = Some latest
    /\ parent <> latest.
Proof.
  exists (PipelineVersion.mk 0 None),
    (PipelineVersionRevision.mk "uuid-0" 0 (PipelineVersion.mk 0 None) None 0%nat 1%nat),
    (PipelineVersionRevision.mk "uuid-3" 0 (PipelineVersion.mk 0 None) None 2%nat 3%nat).
  repeat split; try (vm_compute; reflexivity).
  intros E. discriminate E.
Qed.

(** ** A whole [update] *)

Lemma same_records_refl s : same_records s s.
Proof. repeat split. Qed.

Lemma same_records_trans a b c : same_records a b -> same_records b c -> same_records a c.
Proof.
  unfold same_records. intros (A1 & A2 & A3 & A4 & A5 & A6 & A7) (B1 & B2 & B3 & B4 & B5 & B6 & B7).
  repeat split; congruence.
Qed.

Lemma change_loop_frame rt t parent changes s s' res :
  change_loop rt t parent changes s = (s', res) ->
  same_records s s'
  /\ (forall l, l <> PipelineVersionRevision.operators parent ->
        operator_lists s' !! l = operator_lists s !! l)
  /\ (forall l, l <> PipelineVersionRevision.connections parent ->
        connection_lists s' !! l = connection_lists s !! l).
Proof.
  destruct changes as [cs |]; cbn [change_loop].
  - revert s. induction cs as [| c cs IH]; intros s H.
    + cbn in H. injection H as <- <-. split; [apply same_records_refl|]. split; reflexivity.
    + cbn -[ProvInspector.apply_change] in H.
      destruct (ProvInspector.apply_change rt t parent c s) as [s1 [e | r]] eqn:E;
        destruct (apply_change_frame rt t parent c s s1 _ E) as (F1 & F2 & F3 & _).
      * injection H as <- <-. auto.
      * destruct (IH _ H) as (G1 & G2 & G3).
        split; [eapply same_records_trans; eassumption|].
        split; intros l Hl; [rewrite G2, F2 | rewrite G3, F3]; auto.
  - intros H. cbn in H. injection H as <- <-.
    split; [apply same_records_refl|]. split; reflexivity.
Qed.

Lemma apply_execution_ok rt data t parent ms s d :
  next_operator_revision
    (Operator.mk (DebugStepData.operator_id data) (DebugStepData.operator_name data))
    (operators_of s parent) = inr d ->
  let run :=
    OperatorRun.mk (uuid4 rt (uuid_count s)) (fromtimestamp (DebugStepData.timestamp data))
      (map (fun m => Metric.mk (MetricData.name m) (MetricData.value m)) ms) in
  let execution :=
    OperatorExecution.mk (uuid4 rt (S (uuid_count s))) d run
      (DebugStepData.operator_step_type data) t in
  exists s',
    ProvInspector.apply_execution rt data t parent ms s = (s', inr tt)
    /\ imported s' = imported s ++ [OperationExecutionModel.build rt execution]
    /\ same_records s s'
    /\ operator_lists s' = operator_lists s
    /\ connection_lists s' = connection_lists s.
Proof.
  intros H run execution. subst run execution.
  destruct s as [self ini lv lr rp ol cl nl uc imp w].
  unfold operators_of in *. cbn [operator_lists] in H.
  unfold ProvInspector.apply_execution, operators_of.
  cbn -[next_operator_revision OperationExecutionModel.build]. rewrite H.
  cbn -[OperationExecutionModel.build].
  eexists. split; [reflexivity|]. split; [reflexivity|].
  split; [repeat split|]. split; reflexivity.
Qed.

Lemma apply_execution_frame rt data t parent ms s s' res :
  ProvInspector.apply_execution rt data t parent ms s = (s', res) ->
  same_records s s'
  /\ operator_lists s' = operator_lists s
  /\ connection_lists s' = connection_lists s.
Proof.
  intros H.
  destruct (next_operator_revision
              (Operator.mk (DebugStepData.operator_id data) (DebugStepData.operator_name data))
              (operators_of s parent)) as [e | d] eqn:E.
  - rewrite (apply_execution_raises _ _ _ _ _ _ _ E) in H. injection H as <- <-.
    split; [apply same_records_refl|]. split; reflexivity.
  - destruct (apply_execution_ok rt data t parent ms s d E) as (s1 & Hrun & _ & Hs & Ho & Hc).
    rewrite Hrun in H. injection H as <- <-. auto.
Qed.

(** The lookup on a stored branch, in the form the lemmas on whole updates
    use: the state is not touched; off the cached branch the parent is the
    last stored revision of the branch, on it the first one carrying the
    cached sequence id. *)
Lemma resolve_stored_branch (rt : Runtime) (data : DebugStepData.t) (t : datetime)
    (s : State) (pv : PipelineVersion.t) :
  stored_version s (DebugStepData.branch_id data) = Some pv ->
  ProvInspector.resolve_branch rt data t s
  = (s, if bool_decide (last_pipeline_version_id s = DebugStepData.branch_id data)
        then inr (pv, List.find
                        (fun r => bool_decide (PipelineVersionRevision.id_ r
                                               = last_pipeline_version_revision_id s))
                        (revisions_of s pv))
        else match last (revisions_of s pv) with
             | Some r => inr (pv, Some r)
             | None => inl IndexError
             end).
Proof.
  intros H. unfold stored_version, revisions_of in *.
  destruct s as [self ini lv lr rp ol cl nl uc imp w]. cbn [repo] in *.
  cbn [last_pipeline_version_id last_pipeline_version_revision_id].
  unfold ProvInspector.resolve_branch.
  assert (Hne : exists v vs, rp TPipelineVersion = v :: vs)
    by (destruct (rp TPipelineVersion) as [| v vs]; [discriminate H | eauto]).
  destruct Hne as (v0 & vs & Hb).
  destruct (bool_decide (lv = DebugStepData.branch_id data)) eqn:Ebd.
  - rewrite find_filter.
    destruct ini; run_resolve; [| rewrite Hb; run_resolve ]; rewrite H; run_resolve;
      rewrite Ebd; run_resolve; reflexivity.
  - destruct ini; run_resolve; [| rewrite Hb; run_resolve ]; rewrite H; run_resolve;
      rewrite Ebd; run_resolve; unfold last_item; destruct (last _); reflexivity.
Qed.

Lemma resolve_genesis rt data t s :
  initialized s = false ->
  repo s TPipelineVersion = [] ->
  let version := PipelineVersion.mk 0 None in
  let genesis :=
    PipelineVersionRevision.mk (uuid4 rt (uuid_count s)) 0 version None
      (next_loc s) (S (next_loc s)) in
  let creation :=
    PipelineVersionCreation.mk (uuid4 rt (S (uuid_count s))) genesis None t in
  exists s' doc,
    ProvInspector.resolve_branch rt data t s = (s', inr (version, Some genesis))
    /\ repo s' TPipelineVersion = repo s TPipelineVersion ++ [version]
    /\ repo s' TPipelineVersionRevision = repo s TPipelineVersionRevision ++ [genesis]
    /\ repo s' TPipelineVersionCreation = repo s TPipelineVersionCreation ++ [creation]
    /\ (forall c, repo s' (TPipelineChange c) = repo s (TPipelineChange c))
    /\ operator_lists s' = <[next_loc s := []]> (operator_lists s)
    /\ connection_lists s' = <[S (next_loc s) := []]> (connection_lists s)
    /\ imported s' = imported s ++ [doc]
    /\ initialized s' = initialized s
    /\ last_pipeline_version_id s' = last_pipeline_version_id s
    /\ last_pipeline_version_revision_id s' = last_pipeline_version_revision_id s
    /\ warnings s' = warnings s
    /\ next_loc s' = S (S (next_loc s))
    /\ uuid_count s' = S (S (uuid_count s)).
Proof.
  intros Hinit Hrepo version genesis creation. subst version genesis creation.
  destruct s as [self ini lv lr rp ol cl nl uc imp w]. cbn in Hinit, Hrepo. subst ini.
  unfold ProvInspector.resolve_branch.
  cbn -[PipelineVersionCreationModel.build].
  rewrite Hrepo. cbn -[PipelineVersionCreationModel.build].
  unfold PipelineVersionCreationModel.build. cbn [required].
  cbn -[seq_steps].
  eexists _, _. split; [reflexivity|].
  rewrite ?set_bucket_same, ?Hrepo.
  split; [reflexivity|]. split; [reflexivity|]. split; [reflexivity|].
  split; [intros c; reflexivity|].
  repeat split.
Qed.

Lemma resolve_parent_without_revision (rt : Runtime) (data : DebugStepData.t) (t : datetime)
    (s : State) (parent_version : PipelineVersion.t) :
  (initialized s = true \/ repo s TPipelineVersion <> []) ->
  stored_version s (DebugStepData.branch_id data) = None ->
  stored_parent s data = Some parent_version ->
  last (revisions_of s parent_version) = None ->
  ProvInspector.resolve_branch rt data t s = (s, inl IndexError).
Proof.
  intros Hgen Hb Hp HR.
  pose proof (get_parent_version s data) as Hget. rewrite Hp in Hget.
  unfold stored_version, revisions_of in *.
  destruct s as [self ini lv lr rp ol cl nl uc imp w].
  cbn [repo initialized uuid_count] in *.
  cbn -[List.find] in Hget.
  assert (HR' : last_item
                  (List.filter
                     (fun r => PipelineVersion.eqb
                                 (PipelineVersionRevision.pipeline_version r) parent_version)
                     (rp TPipelineVersionRevision)) = inl IndexError)
    by (unfold last_item; rewrite HR; reflexivity).
  unfold ProvInspector.resolve_branch.
  assert (Hne : ini = true \/ exists v vs, rp TPipelineVersion = v :: vs).
  { destruct Hgen as [Hgen | Hgen]; [left; exact Hgen | right].
    destruct (rp TPipelineVersion) as [| v vs]; [congruence | eauto]. }
  destruct ini; [| destruct Hne as [Hne | (v0 & vs & Hbucket)]; [discriminate Hne|]];
    run_resolve; rewrite ?Hbucket; run_resolve;
    rewrite Hb; run_resolve; rewrite Hget; run_resolve; rewrite HR'; reflexivity.
Qed.

Lemma resolve_branch_files rt data t s s' res :
  ProvInspector.resolve_branch rt data t s = (s', res) ->
  files_at_most_one_branch s s'
  /\ initialized s' = initialized s
  /\ last_pipeline_version_id s' = last_pipeline_version_id s
  /\ last_pipeline_version_revision_id s' = last_pipeline_version_revision_id s
  /\ warnings s' = warnings s
  /\ (stored_version s (DebugStepData.branch_id data) <> None -> s' = s).
Proof.
  intros H.
  assert (Same : s' = s ->
            files_at_most_one_branch s s'
            /\ initialized s' = initialized s
            /\ last_pipeline_version_id s' = last_pipeline_version_id s
            /\ last_pipeline_version_revision_id s' = last_pipeline_version_revision_id s
            /\ warnings s' = warnings s
            /\ (stored_version s (DebugStepData.branch_id data) <> None -> s' = s)).
  { intros ->. split; [left; reflexivity|]. repeat split. }
  destruct (stored_version s (DebugStepData.branch_id data)) as [pv |] eqn:Hb.
  - rewrite (resolve_stored_branch rt data t s pv Hb) in H.
    injection H as <- _. apply Same. reflexivity.
  - assert (Hcase : (initialized s = false /\ repo s TPipelineVersion = [])
                    \/ (initialized s = true \/ repo s TPipelineVersion <> [])).
    { destruct (initialized s); [right; left; reflexivity|].
      destruct (repo s TPipelineVersion); [left; auto | right; right; discriminate]. }
    destruct Hcase as [[Hi Hr] | Hgen].
    + destruct (resolve_genesis rt data t s Hi Hr)
        as (s1 & doc & Hrun & H1 & H2 & H3 & H4 & _ & _ & _ & H5 & H6 & H7 & H8 & _).
      rewrite Hrun in H. injection H as <- _.
      split; [right; eexists _, _, _; split; [exact H1|]; split; [exact H2|];
              split; [exact H3|]; split; [exact H4|]; repeat split|].
      split; [exact H5|]. split; [exact H6|]. split; [exact H7|]. split; [exact H8|].
      intros C. congruence.
    + destruct (stored_parent s data) as [parent_version |] eqn:Hp.
      * destruct (last (revisions_of s parent_version)) as [R |] eqn:HR.
        -- destruct (resolve_new_branch rt data t s parent_version R Hgen Hb Hp HR)
             as (s1 & doc & Hrun & H1 & H2 & _ & _ & _ & H5 & H6 & H7
                 & (creation & H3 & H3') & H4 & H8 & _).
           rewrite Hrun in H. injection H as <- _.
           split; [right; eexists _, _, creation; split; [exact H1|]; split; [exact H2|];
                   split; [exact H3|]; split; [exact H4|]; split; [reflexivity|];
                   split; [reflexivity | exact H3']|].
           split; [exact H5|]. split; [exact H6|]. split; [exact H7|]. split; [exact H8|].
           intros C. congruence.
        -- rewrite (resolve_parent_without_revision rt data t s _ Hgen Hb Hp HR) in H.
           injection H as <- _. apply Same. reflexivity.
      * rewrite (resolve_unknown_parent rt data t s Hgen Hb Hp) in H.
        injection H as <- _. apply Same. reflexivity.
Qed.

(** [update], cut at the points where it can stop. *)
Lemma update_run rt data s :
  let t := fromtimestamp (DebugStepData.timestamp data) in
  ProvInspector.update rt data s
  = match ProvInspector.resolve_branch rt data t s with
    | (s1, inl e) => (s1, inl e)
    | (s1, inr (pv, None)) =>
        (set_last_pipeline_version_id (PipelineVersion.id_ pv) s1, inl AttributeError)
    | (s1, inr (pv, Some parent)) =>
        let s2 :=
          set_last_pipeline_version_revision_id (PipelineVersionRevision.id_ parent)
            (set_last_pipeline_version_id (PipelineVersion.id_ pv) s1) in
        match change_loop rt t parent (DebugStepData.changes data) s2 with
        | (s3, inl e) => (s3, inl e)
        | (s3, inr _) =>
            match DebugStepData.operator_metrics data with
            | Some ms => ProvInspector.apply_execution rt data t parent ms s3
            | None => (s3, inr tt)
            end
        end
    end.
Proof.
  intros t. subst t. unfold ProvInspector.update, change_loop.
  cbn -[ProvInspector.resolve_branch ProvInspector.apply_change
        ProvInspector.apply_execution for_each].
  destruct (ProvInspector.resolve_branch rt data (fromtimestamp (DebugStepData.timestamp data)) s)
    as [s1 [e | [pv [parent |]]]]; cbn -[ProvInspector.apply_change
        ProvInspector.apply_execution for_each]; try reflexivity.
  destruct (DebugStepData.changes data) as [cs |];
    cbn -[ProvInspector.apply_change ProvInspector.apply_execution for_each].
  - destruct (for_each cs _ _) as [s3 [e | []]]; [reflexivity|].
    destruct (DebugStepData.operator_metrics data); reflexivity.
  - destruct (DebugStepData.operator_metrics data); reflexivity.
Qed.

Lemma files_at_most_one_branch_same s s1 s' :
  files_at_most_one_branch s s1 -> repo s' = repo s1 -> files_at_most_one_branch s s'.
Proof.
  intros [E | (v & g & c & H1 & H2 & H3 & H4 & H5)] R.
  - left. congruence.
  - right. exists v, g, c. rewrite R. repeat split; tauto.
Qed.

(** What any [update] leaves behind, whether it returns or raises. *)
Lemma update_frame rt data s :
  let s' := fst (ProvInspector.update rt data s) in
  files_at_most_one_branch s s'
  /\ initialized s' = initialized s
  /\ warnings s' = warnings s
  /\ (stored_version s (DebugStepData.branch_id data) <> None -> repo s' = repo s).
Proof.
  intros s'. subst s'. rewrite update_run. cbv zeta.
  destruct (ProvInspector.resolve_branch rt data (fromtimestamp (DebugStepData.timestamp data)) s)
    as [s1 res] eqn:E.
  destruct (resolve_branch_files rt data _ s s1 res E) as (F & Hi & _ & _ & Hw & Hsame).
  destruct res as [e | [pv [parent |]]]; cbn [fst].
  - split; [exact F|]. split; [exact Hi|]. split; [exact Hw|].
    intros Hb. rewrite (Hsame Hb). reflexivity.
  - destruct (change_loop rt _ parent (DebugStepData.changes data) _) as [s3 r3] eqn:E3.
    destruct (change_loop_frame _ _ _ _ _ _ _ E3) as ((R3 & _ & I3 & _ & _ & _ & W3) & _).
    cbn in R3, I3, W3.
    assert (Final : forall s4, repo s4 = repo s3 -> initialized s4 = initialized s3 ->
                      warnings s4 = warnings s3 ->
                      files_at_most_one_branch s s4
                      /\ initialized s4 = initialized s
                      /\ warnings s4 = warnings s
                      /\ (stored_version s (DebugStepData.branch_id data) <> None ->
                          repo s4 = repo s)).
    { intros s4 R4 I4 W4.
      split; [eapply files_at_most_one_branch_same; [exact F | congruence]|].
      split; [congruence|]. split; [congruence|].
      intros Hb. rewrite R4, R3, (Hsame Hb). reflexivity. }
    destruct r3 as [e | u]; cbn [fst]; [apply Final; reflexivity|].
    destruct (DebugStepData.operator_metrics data) as [ms |]; cbn [fst];
      [| apply Final; reflexivity].
    destruct (ProvInspector.apply_execution rt data _ parent ms s3) as [s4 r4] eqn:E4.
    destruct (apply_execution_frame _ _ _ _ _ _ _ _ E4) as ((R4 & _ & I4 & _ & _ & _ & W4) & _).
    cbn [fst]. apply Final; assumption.
  - cbn. split; [eapply files_at_most_one_branch_same; [exact F | reflexivity]|].
    split; [exact Hi|]. split; [exact Hw|].
    intros Hb. rewrite (Hsame Hb). reflexivity.
Qed.

(** X9. Whatever step it is given, and whether it returns or raises,
    [update] files no pipeline change and no revision made by a change: the
    repository is left as it was, or gains exactly one pipeline version with
    its genesis revision (sequence id 0) and the creation of that revision.
    On a branch that is already stored it files nothing. It never touches
    the [initialized] flag and issues no warning. So if every stored
    revision had sequence id 0 before, every stored revision has it after. *)
Theorem update_files_at_most_one_branch (rt : Runtime) (data : DebugStepData.t) (s : State) :
  let s' := fst (ProvInspector.update rt data s) in
  files_at_most_one_branch s s'
  /\ (forall c, repo s' (TPipelineChange c) = repo s (TPipelineChange c))
  /\ (forall pv, stored_version s (DebugStepData.branch_id data) = Some pv ->
        repo s' = repo s)
  /\ initialized s' = initialized s
  /\ warnings s' = warnings s
  /\ ((forall r, In r (repo s TPipelineVersionRevision) -> PipelineVersionRevision.id_ r = 0) ->
      forall r, In r (repo s' TPipelineVersionRevision) -> PipelineVersionRevision.id_ r = 0).
Proof.
  intros s'. destruct (update_frame rt data s) as (F & Hi & Hw & Hsame). fold s' in F, Hi, Hw, Hsame.
  split; [exact F|].
  split.
  { intros c. destruct F as [E | (v & g & cr & _ & _ & _ & H4 & _)];
      [rewrite E; reflexivity | apply H4]. }
  split; [intros pv Hb; apply Hsame; congruence|].
  split; [exact Hi|]. split; [exact Hw|].
  intros Hzero r Hr.
  destruct F as [E | (v & g & cr & _ & H2 & _ & _ & Hg & _)].
  - rewrite E in Hr. apply Hzero, Hr.
  - rewrite H2 in Hr. apply in_app_or in Hr. destruct Hr as [Hr | [<- | []]];
      [apply Hzero, Hr | exact Hg].
Qed.



(** X6. When no operator revision listed by the parent revision belongs to
    the operator an event names, the lookup [next(...)] has no default and
    raises [StopIteration]: an operator modification, an operator deletion
    and an operator execution all stop there, with the state as it was
    before the iteration (nothing appended, removed, imported or drawn). *)
Theorem unknown_operator_raises_StopIteration (rt : Runtime) (t : datetime)
    (parent : PipelineVersionRevision.t) (s : State) (operator_id : Z)
    (operator_name : string) :
  (forall x, In x (operators_of s parent) ->
     OperatorRevision.operator x <> Operator.mk operator_id operator_name) ->
  (forall id changed_parameter changed_value,
      ProvInspector.apply_change rt t parent
        (OperatorModificationPipelineChangeData id operator_id operator_name
           changed_parameter changed_value) s
      = (s, inl StopIteration))
  /\ (forall id,
        ProvInspector.apply_change rt t parent
          (OperatorDeletionPipelineChangeData id operator_id operator_name) s
        = (s, inl StopIteration))
  /\ (forall data ms,
        DebugStepData.operator_id data = operator_id ->
        DebugStepData.operator_name data = operator_name ->
        ProvInspector.apply_execution rt data t parent ms s = (s, inl StopIteration)).
Proof.
  intros Hnone.
  assert (E : next_operator_revision (Operator.mk operator_id operator_name)
                (operators_of s parent) = inl StopIteration).
  { unfold next_operator_revision.
    destruct (List.find _ (operators_of s parent)) as [x |] eqn:F; [| reflexivity].
    apply find_some in F. destruct F as [Hin Heq].
    apply Operator_eqb_eq in Heq. exfalso. exact (Hnone x Hin Heq). }
  split; [| split].
  - intros id cp cv. eapply apply_operator_modification_raises. exact E.
  - intros id. eapply apply_operator_deletion_raises. exact E.
  - intros data ms <- <-. eapply apply_execution_raises. exact E.
Qed.

(** Deleting operator 9, which the initialized translator does not hold. *)
Lemma unknown_operator_raises_StopIteration_witness :
  ProvInspector.apply_change demo_runtime 1%Q demo_genesis_revision
    (OperatorDeletionPipelineChangeData "c3" 9 "ghost") initialized_demo
  = (initialized_demo, inl StopIteration).
Proof.
  refine (proj1 (proj2 (unknown_operator_raises_StopIteration demo_runtime 1%Q
                          demo_genesis_revision initialized_demo 9 "ghost" _)) "c3").
  intros x Hx. vm_compute in Hx. destruct Hx as [<- | []]. discriminate.
Defined.

Lemma next_operator_revision_app operator l l' d :
  next_operator_revision operator l = inr d ->
  next_operator_revision operator (l ++ l') = inr d.
Proof.
  unfold next_operator_revision.
  induction l as [| x l IH]; cbn [List.find app]; [discriminate|].
  destruct (Operator.eqb (OperatorRevision.operator x) operator); [auto | exact IH].
Qed.

(** X8. A modification appends the new operator revision and leaves the old
    one in the list, in front of it. So the lookup by operator, which takes
    the first revision of the operator, still returns the revision it
    returned before the modification: a later execution or modification of
    the same operator on this parent is attached to the old revision, not to
    the modified one. *)
Theorem modified_operator_still_resolves_to_the_old_revision
    (rt : Runtime) (t : datetime) (parent : PipelineVersionRevision.t) (s : State)
    (id : string) (operator_id : Z) (operator_name changed_parameter : string)
    (changed_value : pyvalue) (d : OperatorRevision.t) :
  next_operator_revision (Operator.mk operator_id operator_name) (operators_of s parent)
  = inr d ->
  exists s' r,
    ProvInspector.apply_change rt t parent
      (OperatorModificationPipelineChangeData id operator_id operator_name
         changed_parameter changed_value) s
    = (s', inr r)
    /\ next_operator_revision (Operator.mk operator_id operator_name)
         (operators_of s' parent) = inr d
    /\ next_operator_revision (Operator.mk operator_id operator_name)
         (operators_of s' r) = inr d.
Proof.
  intros H.
  destruct (apply_operator_modification rt t parent id operator_id operator_name
              changed_parameter changed_value s d H)
    as (s' & r & doc & Hrun & Hb & _ & Ho & _).
  exists s', r. split; [exact Hrun|].
  assert (E : operators_of s' r = operators_of s' parent).
  { destruct Hb as (_ & _ & _ & Hro & _). unfold operators_of. rewrite Hro. reflexivity. }
  rewrite E. rewrite (operators_of_built_on _ _ _ _ _ Hb Ho) in E. rewrite <- E.
  split; apply next_operator_revision_app; exact H.
Qed.

(** Changing parameter [k] of the one operator of the initialized
    translator. *)
Lemma modified_operator_still_resolves_to_the_old_revision_witness :
  exists s' r,
    ProvInspector.apply_change demo_runtime 1%Q demo_genesis_revision
      (OperatorModificationPipelineChangeData "c4" 7 "filter" "k" (PyInt 4)) initialized_demo
    = (s', inr r)
    /\ next_operator_revision (Operator.mk 7 "filter") (operators_of s' r)
       = inr demo_operator_revision.
Proof.
  destruct (modified_operator_still_resolves_to_the_old_revision demo_runtime 1%Q
              demo_genesis_revision initialized_demo "c4" 7 "filter" "k" (PyInt 4)
              demo_operator_revision)
    as (s' & r & Hrun & _ & Hr).
  - vm_compute. reflexivity.
  - exists s', r. exact (conj Hrun Hr).
Defined.

(** ** Initialization from a pipeline description *)

Lemma initialize_loop rt lo lc data :
  forall s,
  exists s',
    for_each data (initialize_entry rt lo lc) s = (s', inr tt)
    /\ operator_lists s' !!! lo
       = operator_lists s !!! lo ++ initial_operators rt (uuid_count s) data
    /\ connection_lists s' !!! lc = connection_lists s !!! lc ++ initial_connections data
    /\ (forall l, l <> lo -> operator_lists s' !! l = operator_lists s !! l)
    /\ (forall l, l <> lc -> connection_lists s' !! l = connection_lists s !! l)
    /\ same_records s s'
    /\ imported s' = imported s
    /\ uuid_count s'
       = (uuid_count s + length (initial_operators rt (uuid_count s) data))%nat.
Proof.
  induction data as [| c data IH]; intros s.
  - exists s. cbn. rewrite !app_nil_r. repeat split. lia.
  - destruct s as [self ini lv lr rp ol cl nl uc imp w].
    destruct c as [id oid name od | id oid name cp cv | id oid name
                  | id cid f t' fs ts | id cid f t' fs ts];
      cbn -[for_each]; cbn [for_each]; unfold bind at 1; cbn -[for_each].
    + edestruct IH as (s' & Hrun & Ho & Hc & Hfo & Hfc & Hs & Hi & Hu).
      eexists. split; [exact Hrun|]. cbn in Ho, Hc, Hfo, Hfc, Hs, Hi, Hu.
      split; [rewrite Ho, lookup_total_insert_eq, <- app_assoc; reflexivity|].
      split; [exact Hc|].
      split; [intros l Hl; rewrite Hfo by exact Hl; apply lookup_insert_ne; congruence|].
      split; [exact Hfc|]. split; [exact Hs|]. split; [exact Hi|].
      rewrite Hu. cbn [length]. lia.
    + edestruct IH as (s' & Hrun & Ho & Hc & Hfo & Hfc & Hs & Hi & Hu).
      eexists. split; [exact Hrun|]. cbn in Ho, Hc, Hfo, Hfc, Hs, Hi, Hu. auto 10.
    + edestruct IH as (s' & Hrun & Ho & Hc & Hfo & Hfc & Hs & Hi & Hu).
      eexists. split; [exact Hrun|]. cbn in Ho, Hc, Hfo, Hfc, Hs, Hi, Hu. auto 10.
    + edestruct IH as (s' & Hrun & Ho & Hc & Hfo & Hfc & Hs & Hi & Hu).
      eexists. split; [exact Hrun|]. cbn in Ho, Hc, Hfo, Hfc, Hs, Hi, Hu.
      split; [exact Ho|].
      split; [rewrite Hc, lookup_total_insert_eq, <- app_assoc; reflexivity|].
      split; [exact Hfo|].
      split; [intros l Hl; rewrite Hfc by exact Hl; apply lookup_insert_ne; congruence|].
      split; [exact Hs|]. split; [exact Hi | exact Hu].
    + edestruct IH as (s' & Hrun & Ho & Hc & Hfo & Hfc & Hs & Hi & Hu).
      eexists. split; [exact Hrun|]. cbn in Ho, Hc, Hfo, Hfc, Hs, Hi, Hu. auto 10.
Qed.

Lemma initialize_run rt data s :
  initialized s = false ->
  let version := PipelineVersion.mk 0 None in
  let revision :=
    PipelineVersionRevision.mk
      (uuid4 rt (uuid_count s + length (initial_operators rt (uuid_count s) data))%nat)
      0 version None (next_loc s) (S (next_loc s)) in
  let creation :=
    PipelineVersionCreation.mk (INITIAL_PIPELINE_VERSION_CREATION_ID rt) revision None
      INITIAL_DATETIME in
  exists s' doc,
    ProvInspector.initialize rt data s = (s', inr tt)
    /\ repo s' TPipelineVersion = repo s TPipelineVersion ++ [version]
    /\ repo s' TPipelineVersionRevision = repo s TPipelineVersionRevision ++ [revision]
    /\ repo s' TPipelineVersionCreation = repo s TPipelineVersionCreation ++ [creation]
    /\ (forall c, repo s' (TPipelineChange c) = repo s (TPipelineChange c))
    /\ operators_of s' revision = initial_operators rt (uuid_count s) data
    /\ connections_of s' revision = initial_connections data
    /\ (forall l, l <> next_loc s -> operator_lists s' !! l = operator_lists s !! l)
    /\ (forall l, l <> S (next_loc s) -> connection_lists s' !! l = connection_lists s !! l)
    /\ imported s' = imported s ++ [doc]
    /\ PipelineVersionCreationModel.build rt s' creation None None = inr doc
    /\ initialized s' = true
    /\ last_pipeline_version_id s' = last_pipeline_version_id s
    /\ last_pipeline_version_revision_id s' = last_pipeline_version_revision_id s
    /\ warnings s' = warnings s.
Proof.
  intros Hinit version revision creation. subst version revision creation.
  destruct s as [self ini lv lr rp ol cl nl uc imp w]. cbn in Hinit. subst ini.
  unfold ProvInspector.initialize.
  cbn -[for_each PipelineVersionCreationModel.build].
  match goal with
  | |- context [for_each data ?body ?s0] =>
      change (for_each data body s0) with (for_each data (initialize_entry rt nl (S nl)) s0);
      destruct (initialize_loop rt nl (S nl) data s0)
        as (s1 & Hrun & Ho & Hc & Hfo & Hfc & Hs & Hi & Hu)
  end.
  rewrite Hrun. cbn in Ho, Hc, Hfo, Hfc, Hs, Hi, Hu.
  rewrite lookup_total_insert_eq in Ho. rewrite lookup_total_insert_eq in Hc.
  cbn in Ho, Hc.
  destruct Hs as (S1 & S2 & S3 & S4 & S5 & S6 & S7).
  destruct s1 as [self1 ini1 lv1 lr1 rp1 ol1 cl1 nl1 uc1 imp1 w1].
  cbn in S1, S2, S3, S4, S5, S6, S7, Hi, Ho, Hc, Hfo, Hfc, Hu. subst.
  cbn -[PipelineVersionCreationModel.build].
  unfold PipelineVersionCreationModel.build. cbn [required].
  eexists _, _. split; [reflexivity|].
  rewrite ?set_bucket_same.
  split; [reflexivity|]. split; [reflexivity|]. split; [reflexivity|].
  split; [intros c; reflexivity|].
  split; [exact Ho|]. split; [exact Hc|].
  split; [intros l Hl; rewrite Hfo by exact Hl; apply lookup_insert_ne; congruence|].
  split; [intros l Hl; rewrite Hfc by exact Hl; apply lookup_insert_ne; congruence|].
  split; [reflexivity|]. split; [reflexivity|]. repeat split.
Qed.

(** X10. On a translator whose flag is not set, [initialize] returns
    normally and appends to the repository pipeline version 0 (no parent),
    one revision of it with sequence id 0 and no parent, and the creation of
    that revision with the module's initial creation id and the initial
    time; it does so whether or not the repository already holds a version.
    The operators of the revision are one operator revision per operator
    creation of the input, in input order; its connections are one per
    connection creation, in input order; modification and deletion entries
    are skipped. One document, the creation sub-model without parents, is
    imported, the flag is set, and the cached ids, the warnings and every
    list object that existed before are left alone. *)
Theorem initialize_files_the_described_pipeline
    (rt : Runtime) (data : list PipelineChangeData) (s : State) :
  initialized s = false ->
  exists s' revision creation doc,
    ProvInspector.initialize rt data s = (s', inr tt)
    /\ repo s' TPipelineVersion = repo s TPipelineVersion ++ [PipelineVersion.mk 0 None]
    /\ repo s' TPipelineVersionRevision = repo s TPipelineVersionRevision ++ [revision]
    /\ repo s' TPipelineVersionCreation = repo s TPipelineVersionCreation ++ [creation]
    /\ (forall c, repo s' (TPipelineChange c) = repo s (TPipelineChange c))
    /\ PipelineVersionRevision.id_ revision = 0
    /\ PipelineVersionRevision.pipeline_version revision = PipelineVersion.mk 0 None
    /\ PipelineVersionRevision.parent_pipeline_version_revision_uuid revision = None
    /\ operators_of s' revision = initial_operators rt (uuid_count s) data
    /\ connections_of s' revision = initial_connections data
    /\ creation = PipelineVersionCreation.mk (INITIAL_PIPELINE_VERSION_CREATION_ID rt)
                    revision None INITIAL_DATETIME
    /\ imported s' = imported s ++ [doc]
    /\ PipelineVersionCreationModel.build rt s' creation None None = inr doc
    /\ initialized s' = true
    /\ last_pipeline_version_id s' = last_pipeline_version_id s
    /\ last_pipeline_version_revision_id s' = last_pipeline_version_revision_id s
    /\ warnings s' = warnings s
    /\ (forall l, l <> next_loc s -> operator_lists s' !! l = operator_lists s !! l)
    /\ (forall l, l <> S (next_loc s) -> connection_lists s' !! l = connection_lists s !! l).
Proof.
  intros Hinit.
  destruct (initialize_run rt data s Hinit)
    as (s' & doc & Hrun & H1 & H2 & H3 & H4 & Ho & Hc & Hfo & Hfc & Hi & Hd & Hf & Hlv & Hlr & Hw).
  eexists s', _, _, doc. split; [exact Hrun|].
  split; [exact H1|]. split; [exact H2|]. split; [exact H3|]. split; [exact H4|].
  split; [reflexivity|]. split; [reflexivity|]. split; [reflexivity|].
  split; [exact Ho|]. split; [exact Hc|]. split; [reflexivity|].
  split; [exact Hi|]. split; [exact Hd|]. split; [exact Hf|].
  split; [exact Hlv|]. split; [exact Hlr|]. split; [exact Hw|].
  split; [exact Hfo | exact Hfc].
Qed.

(** Initializing the fresh translator on the one-operator pipeline. *)
Lemma initialize_files_the_described_pipeline_witness :
  exists s' revision,
    ProvInspector.initialize demo_runtime one_operator_pipeline (ProvInspector.new 0)
    = (s', inr tt)
    /\ repo s' TPipelineVersionRevision = [revision]
    /\ operators_of s' revision = [demo_operator_revision].
Proof.
  destruct (initialize_files_the_described_pipeline demo_runtime one_operator_pipeline
              (ProvInspector.new 0) eq_refl)
    as (s' & revision & creation & doc & Hrun & _ & H2 & _ & _ & _ & _ & _ & Ho & _).
  exists s', revision. split; [exact Hrun|]. split; [exact H2 | exact Ho].
Defined.

(** X11. [clear] empties the repository and the imported graphs and resets
    the flag, but keeps the cached last-used ids. After it, [initialize]
    runs in full again, whatever the translator did before: the repository
    then holds exactly pipeline version 0, one revision and one creation,
    and exactly one document has been imported. *)
Theorem clear_makes_initialize_effective_again
    (rt : Runtime) (data : list PipelineChangeData) (s : State) :
  let cleared := fst (ProvInspector.clear s) in
  snd (ProvInspector.clear s) = inr tt
  /\ (forall ty, repo cleared ty = [])
  /\ imported cleared = []
  /\ initialized cleared = false
  /\ last_pipeline_version_id cleared = last_pipeline_version_id s
  /\ last_pipeline_version_revision_id cleared = last_pipeline_version_revision_id s
  /\ exists s' revision creation doc,
       ProvInspector.initialize rt data cleared = (s', inr tt)
       /\ repo s' TPipelineVersion = [PipelineVersion.mk 0 None]
       /\ repo s' TPipelineVersionRevision = [revision]
       /\ repo s' TPipelineVersionCreation = [creation]
       /\ (forall c, repo s' (TPipelineChange c) = [])
       /\ operators_of s' revision = initial_operators rt (uuid_count s) data
       /\ connections_of s' revision = initial_connections data
       /\ imported s' = [doc]
       /\ initialized s' = true
       /\ warnings s' = warnings s.
Proof.
  intros cleared.
  assert (Hc : cleared
               = set_initialized false (set_imported [] (set_repo (fun _ => []) s)))
    by reflexivity.
  split; [reflexivity|]. split; [intros ty; reflexivity|].
  split; [reflexivity|]. split; [reflexivity|]. split; [reflexivity|].
  split; [reflexivity|].
  destruct (initialize_run rt data cleared eq_refl)
    as (s' & doc & Hrun & H1 & H2 & H3 & H4 & Ho & Hcn & _ & _ & Hi & _ & Hf & _ & _ & Hw).
  eexists s', _, _, doc. split; [exact Hrun|].
  split; [exact H1|]. split; [exact H2|]. split; [exact H3|]. split; [exact H4|].
  split; [exact Ho|]. split; [exact Hcn|]. split; [exact Hi|]. split; [exact Hf | exact Hw].
Qed.

(** ** Lookups in the repository *)

(** Whether a record has an attribute depends on its class only. *)
Lemma getattr_defined_by_class ty (r r' : carrier ty) key :
  getattr ty r key = None -> getattr ty r' key = None.
Proof.
  destruct ty; cbn [getattr];
    unfold lookup_field, PipelineVersion_fields, PipelineVersionRevision_fields,
      PipelineVersionCreation_fields, PipelineChange_fields;
    cbn [List.find fst];
    repeat match goal with
           | |- context [String.eqb ?a key] => destruct (String.eqb a key)
           end; cbn; congruence.
Qed.

Lemma all_match_raises s ty (r : carrier ty) filters e :
  all_match s ty r filters = inl e -> e = AttributeError.
Proof.
  induction filters as [| [key val] filters IH]; cbn [all_match]; [discriminate|].
  destruct (getattr ty r key); [| congruence].
  destruct (value_eqb s v val); [exact IH | discriminate].
Qed.

(** A record that matches makes every record of the class comparable. *)
Lemma all_match_true_defined s ty (r r' : carrier ty) filters :
  all_match s ty r filters = inr true ->
  exists b, all_match s ty r' filters = inr b.
Proof.
  intros H. apply all_match_defined. intros key val Hin Hnone.
  apply all_match_true in H. destruct (H key val Hin) as (a & Ha & _).
  apply (getattr_defined_by_class ty r' r) in Hnone. congruence.
Qed.

Lemma every_match_defined s ty filters (x : carrier ty) l :
  all_match s ty x filters = inr true ->
  exists l', every_match s ty filters l = inr l'.
Proof.
  intros Hx. induction l as [| y l IH]; cbn [every_match]; [eauto|].
  destruct (all_match_true_defined s ty x y filters Hx) as [b ->].
  destruct IH as [l' ->]. eauto.
Qed.

Lemma next_match_head s ty filters l :
  next_match s ty filters l
  = match every_match s ty filters l with
    | inl e => inl e
    | inr l' => inr (head l')
    end.
Proof.
  induction l as [| x l IH]; cbn [next_match every_match]; [reflexivity|].
  destruct (all_match s ty x filters) as [e | [|]] eqn:E; [reflexivity | |].
  - destruct (every_match_defined s ty filters x l E) as [l' ->]. reflexivity.
  - rewrite IH. destruct (every_match s ty filters l); reflexivity.
Qed.

Lemma every_match_sublist s ty filters l l' :
  every_match s ty filters l = inr l' ->
  sublist l' l
  /\ forall x, In x l' <-> In x l /\ satisfies s ty filters x.
Proof.
  revert l'. induction l as [| y l IH]; intros l'; cbn [every_match].
  - intros H. injection H as <-. split; [constructor|]. intros x. cbn. tauto.
  - destruct (all_match s ty y filters) as [e | b] eqn:E; [discriminate|].
    destruct (every_match s ty filters l) as [e | rest]; [discriminate|].
    intros H. injection H as <-. destruct (IH rest eq_refl) as [Hsub Hin].
    destruct b.
    + split; [constructor; exact Hsub|]. intros x. cbn. rewrite Hin.
      apply all_match_true in E. split.
      * intros [<- | [H1 H2]]; auto.
      * intros [[<- | H1] H2]; auto.
    + split; [constructor; exact Hsub|]. intros x. rewrite Hin. cbn.
      apply all_match_false in E. split.
      * intros [H1 H2]; auto.
      * intros [[<- | H1] H2]; [contradiction | auto].
Qed.

(** X12. [get] and [list_all] read the bucket of the class without changing
    anything, through whichever instance they are called. When [list_all]
    returns, its result is the records of the bucket that satisfy the
    filters, in insertion order, and [get] returns the first of them, or
    [None] when there is none; when [list_all] raises (a filter names an
    attribute the class does not have), [get] raises the same exception. *)
Theorem get_is_the_head_of_list_all
    (self1 self2 : InMemoryRepository.t) (ty : ResourceType) (filters : Filters)
    (s : State) :
  fst (InMemoryRepository.get self1 ty filters s) = s
  /\ fst (InMemoryRepository.list_all self2 ty filters s) = s
  /\ snd (InMemoryRepository.get self1 ty filters s)
     = match snd (InMemoryRepository.list_all self2 ty filters s) with
       | inl e => inl e
       | inr l => inr (head l)
       end
  /\ (forall l, snd (InMemoryRepository.list_all self2 ty filters s) = inr l ->
        sublist l (repo s ty)
        /\ forall x, In x l <-> In x (repo s ty) /\ satisfies s ty filters x)
  /\ (forall e, snd (InMemoryRepository.list_all self2 ty filters s) = inl e ->
        e = AttributeError /\ repo s ty <> []).
Proof.
  cbn. split; [reflexivity|]. split; [reflexivity|].
  split; [apply next_match_head|]. split; [apply every_match_sublist|].
  intros e H. split.
  - revert H. induction (repo s ty) as [| y l IH]; cbn [every_match]; [discriminate|].
    destruct (all_match s ty y filters) as [e' | b] eqn:E.
    + intros H. injection H as <-. eapply all_match_raises, E.
    + destruct (every_match s ty filters l) as [e' | rest]; [| discriminate].
      intros H. injection H as <-. apply IH. reflexivity.
  - intros Hnil. rewrite Hnil in H. discriminate H.
Qed.

(** ** Documents are self-contained *)

Lemma closed_upto_nil P : closed_upto P [] [].
Proof. split; [intros rel [] | intros e []]. Qed.

Lemma closed_upto_closed P K d : closed_upto P K d -> incl P K -> closed d.
Proof.
  intros [Hrel Hk] Hincl rel Hin. destruct (Hrel rel Hin) as [[H1 | H1] [H2 | H2]];
    split; auto.
Qed.

Lemma closed_upto_weaken P K K' d : closed_upto P K d -> incl K' K -> closed_upto P K' d.
Proof. intros [Hrel Hk] Hincl. split; [exact Hrel | auto]. Qed.

Lemma closed_upto_add_element {A : Type} `{ToProv A} P K rt (x : A) d :
  closed_upto P K d -> closed_upto P (to_prov rt x :: K) (add_element rt x false d).
Proof.
  intros [Hrel Hk]. unfold add_element. cbn [andb]. split.
  - intros rel Hin. apply in_app_or in Hin. destruct Hin as [Hin | [Hin | []]];
      [| discriminate Hin].
    destruct (Hrel rel Hin) as [[H1 | H1] [H2 | H2]]; split;
      auto using in_or_app.
  - intros e [<- | He]; apply in_or_app; [right; left; reflexivity | left; auto].
Qed.

Lemma closed_upto_add_relation {A B : Type} `{ToProv A} `{ToProv B} P K rt (a : A) (b : B)
    kind attributes d :
  closed_upto P K d ->
  In (to_prov rt a) K \/ In (to_prov rt a) P ->
  In (to_prov rt b) K \/ In (to_prov rt b) P ->
  closed_upto P K (add_relation rt a b kind attributes d).
Proof.
  intros [Hrel Hk] Ha Hb. unfold add_relation. split.
  - intros rel Hin. apply in_app_or in Hin. destruct Hin as [Hin | [Hin | []]].
    + destruct (Hrel rel Hin) as [[H1 | H1] [H2 | H2]]; split; auto using in_or_app.
    + injection Hin as <-. cbn [rel_source rel_target]. split.
      * destruct Ha as [Ha | Ha]; [left; apply in_or_app; left; auto | right; exact Ha].
      * destruct Hb as [Hb | Hb]; [left; apply in_or_app; left; auto | right; exact Hb].
  - intros e He. apply in_or_app. left. auto.
Qed.

Lemma closed_upto_for_steps {A : Type} P K (l : list A) (body : A -> Step) d :
  closed_upto P K d ->
  (forall x d', closed_upto P K d' -> closed_upto P K (body x d')) ->
  closed_upto P K (for_steps l body d).
Proof.
  intros Hd Hbody. unfold for_steps. revert d Hd.
  induction l as [| x l IH]; intros d Hd; cbn [fold_left]; [exact Hd|].
  apply IH, Hbody, Hd.
Qed.

Ltac in_known := cbn [In]; first [left; reflexivity | right; in_known].

Ltac known := first [left; in_known | right; in_known].

(** Walks a builder backwards from its last step, collecting the elements
    known so far. *)
Ltac close_back :=
  lazymatch goal with
  | |- closed_upto _ _ (add_element _ _ false _) =>
      apply closed_upto_add_element; close_back
  | |- closed_upto _ _ (add_relation _ _ _ _ _ _) =>
      apply closed_upto_add_relation; [close_back | known | known]
  | |- closed_upto _ _ (for_steps _ _ _) =>
      apply closed_upto_for_steps;
      [ close_back
      | let x := fresh "x" in
        let d := fresh "d" in
        let H := fresh "H" in
        intros x d H; eapply closed_upto_weaken;
        [ close_back | intros ? ?; cbn [In] in *; tauto ] ]
  | |- closed_upto _ _ [] => apply closed_upto_nil
  | H : closed_upto _ _ ?d |- closed_upto _ _ ?d => exact H
  end.

Ltac open_builder :=
  unfold change_and_parent, revision_and_members, parameters_of, seq_steps;
  cbn [fold_left when_some].

Ltac close_document P :=
  open_builder; eapply (closed_upto_closed P);
  [ close_back | intros ? ?; cbn [In] in *; tauto ].

(** X18. Every document that a sub-model builder returns is self-contained:
    each relation in it has its source and its target among the elements of
    the same document. This holds for the execution builder, for the
    pipeline version creation builder and for the five pipeline change
    builders, with or without the optional parents. *)
Theorem built_documents_are_closed (rt : Runtime) (s : State) :
  (forall operator_execution, closed (OperationExecutionModel.build rt operator_execution))
  /\ (forall creation parent_revision parent_creation doc,
        PipelineVersionCreationModel.build rt s creation parent_revision parent_creation
        = inr doc -> closed doc)
  /\ (forall change parent_change parent_revision doc,
        OperatorCreationModel.build rt s change parent_change parent_revision = inr doc ->
        closed doc)
  /\ (forall change parent_change parent_operator_revision parent_revision doc,
        OperatorModificationModel.build rt s change parent_change parent_operator_revision
          parent_revision = inr doc ->
        closed doc)
  /\ (forall change parent_change parent_revision doc,
        OperatorDeletionModel.build rt s change parent_change parent_revision = inr doc ->
        closed doc)
  /\ (forall change parent_change parent_revision doc,
        ConnectionCreationModel.build rt s change parent_change parent_revision = inr doc ->
        closed doc)
  /\ (forall change parent_change parent_revision doc,
        ConnectionDeletionModel.build rt s change parent_change parent_revision = inr doc ->
        closed doc).
Proof.
  repeat match goal with |- _ /\ _ => split end.
  - intros oe. unfold OperationExecutionModel.build.
    close_document [to_prov rt (OperatorExecution.operator_revision oe)].
  - intros creation [parent |] [parent_creation |] doc;
      unfold PipelineVersionCreationModel.build; cbn [required];
      intros E; try discriminate E; injection E as <-; close_document (@nil ProvElement).
  - intros change [parent_change |] [parent |] doc;
      unfold OperatorCreationModel.build;
      destruct (PipelineChange.operator_revision change); cbn [required];
      intros E; try discriminate E; injection E as <-; close_document (@nil ProvElement).
  - intros change [parent_change |] [parent_operator |] [parent |] doc;
      unfold OperatorModificationModel.build;
      destruct (PipelineChange.operator_revision change); cbn [required];
      intros E; try discriminate E; injection E as <-; close_document (@nil ProvElement).
  - intros change [parent_change |] [parent |] doc;
      unfold OperatorDeletionModel.build;
      destruct (PipelineChange.operator_revision change); cbn [required];
      intros E; try discriminate E; injection E as <-; close_document (@nil ProvElement).
  - intros change [parent_change |] [parent |] doc;
      unfold ConnectionCreationModel.build;
      destruct (PipelineChange.connection change); cbn [required];
      intros E; try discriminate E; injection E as <-; close_document (@nil ProvElement).
  - intros change [parent_change |] [parent |] doc;
      unfold ConnectionDeletionModel.build;
      destruct (PipelineChange.connection change); cbn [required];
      intros E; try discriminate E; injection E as <-; close_document (@nil ProvElement).
Qed.

(** ** Relations by type *)

Lemma count_relations_of_add_element {A : Type} `{ToProv A} ty rt (x : A) d :
  count_relations_of ty (add_element rt x false d) = count_relations_of ty d.
Proof.
  unfold count_relations_of, add_element. cbn [andb].
  rewrite List.filter_app, length_app. cbn. lia.
Qed.

Lemma count_relations_of_add_relation {A B : Type} `{ToProv A} `{ToProv B} ty rt
    (a : A) (b : B) kind attributes d :
  count_relations_of ty (add_relation rt a b kind attributes d)
  = ((if bool_decide (relation_prov_type kind = ty) then 1 else 0)
     + count_relations_of ty d)%nat.
Proof.
  unfold count_relations_of, add_relation.
  rewrite List.filter_app, length_app. cbn [List.filter rel_prov_type].
  destruct (bool_decide (relation_prov_type kind = ty)); cbn [length]; lia.
Qed.

Lemma count_relations_of_for_steps {A : Type} ty (l : list A) (body : A -> Step) d :
  (forall x d', count_relations_of ty (body x d') = count_relations_of ty d') ->
  count_relations_of ty (for_steps l body d) = count_relations_of ty d.
Proof.
  intros Hbody. unfold for_steps. revert d.
  induction l as [| x l IH]; intros d; cbn [fold_left]; [reflexivity|].
  rewrite IH. apply Hbody.
Qed.

Ltac count_relations :=
  repeat first
    [ rewrite count_relations_of_add_element
    | rewrite count_relations_of_add_relation
    | rewrite count_relations_of_for_steps
        by (intros; count_relations; reflexivity) ];
  cbn [relation_prov_type bool_decide decide_rel];
  try reflexivity.

Ltac open_document :=
  unfold change_and_parent, revision_and_members, parameters_of, seq_steps;
  cbn [fold_left when_some].

Ltac run_change_folded :=
  cbn -[OperatorCreationModel.build OperatorModificationModel.build
        OperatorDeletionModel.build ConnectionCreationModel.build
        ConnectionDeletionModel.build next_operator_revision remove_first];
  rewrite ?parent_changes_match;
  cbn -[OperatorCreationModel.build OperatorModificationModel.build
        OperatorDeletionModel.build ConnectionCreationModel.build
        ConnectionDeletionModel.build next_operator_revision remove_first].

Ltac open_change_document :=
  unfold OperatorCreationModel.build, OperatorModificationModel.build,
    OperatorDeletionModel.build, ConnectionCreationModel.build,
    ConnectionDeletionModel.build;
  cbn [required PipelineChange.operator_revision PipelineChange.connection];
  open_document.

Lemma find_none_all {A : Type} (f : A -> bool) (l : list A) :
  (forall x, In x l -> f x = false) -> List.find f l = None.
Proof.
  induction l as [| x l IH]; intros H; cbn [List.find]; [reflexivity|].
  rewrite (H x (or_introl eq_refl)). apply IH. intros y Hy. apply H. right. exact Hy.
Qed.

(** X16. On a repository that holds no [PipelineChange] record (and
    [update] never files one), the lookup of the previous change of the
    parent revision finds nothing: the document imported for a change has no
    communication ([wasInformedBy]) relation, so successive changes are
    never linked to one another. *)
Theorem change_documents_never_link_changes (rt : Runtime) (t : datetime)
    (parent : PipelineVersionRevision.t) (c : PipelineChangeData) (s s' : State)
    (r : PipelineVersionRevision.t) :
  repo s (TPipelineChange PipelineChangeBase) = [] ->
  ProvInspector.apply_change rt t parent c s = (s', inr r) ->
  exists doc,
    imported s' = imported s ++ [doc]
    /\ count_relations_of PROV_COMMUNICATION doc = 0%nat.
Proof.
  intros Hrepo H.
  assert (G : exists s1 r1 doc,
             ProvInspector.apply_change rt t parent c s = (s1, inr r1)
             /\ imported s1 = imported s ++ [doc]
             /\ count_relations_of PROV_COMMUNICATION doc = 0%nat).
  { destruct c as [id oid name data | id oid name cp cv | id oid name
                  | id cid f t' fs ts | id cid f t' fs ts].
    - destruct s as [self ini lv lr rp ol cl nl uc imp w]. cbn [repo] in Hrepo.
      unfold ProvInspector.apply_change, ProvInspector.new_revision_and_change.
      run_change_folded. rewrite Hrepo. cbn [List.filter last fmap option_fmap option_map].
      eexists _, _, _. split; [reflexivity|]. split; [reflexivity|].
      open_change_document. count_relations.
    - destruct (next_operator_revision (Operator.mk oid name) (operators_of s parent))
        as [e | d] eqn:E;
        [rewrite (apply_operator_modification_raises _ _ _ _ _ _ _ _ _ _ E) in H;
         discriminate H|].
      destruct s as [self ini lv lr rp ol cl nl uc imp w]. cbn [repo] in Hrepo.
      unfold operators_of in E. cbn [operator_lists] in E.
      unfold ProvInspector.apply_change, ProvInspector.new_revision_and_change, operators_of.
      run_change_folded. rewrite E. run_change_folded.
      rewrite Hrepo. cbn [List.filter last fmap option_fmap option_map].
      eexists _, _, _. split; [reflexivity|]. split; [reflexivity|].
      open_change_document. count_relations.
    - destruct (next_operator_revision (Operator.mk oid name) (operators_of s parent))
        as [e | d] eqn:E;
        [rewrite (apply_operator_deletion_raises _ _ _ _ _ _ _ _ E) in H;
         discriminate H|].
      destruct (next_then_remove _ _ _ E) as (pre & post & Hl & _ & Hpre & Hrem).
      destruct s as [self ini lv lr rp ol cl nl uc imp w]. cbn [repo] in Hrepo.
      unfold operators_of in E, Hl, Hrem. cbn [operator_lists] in E, Hl, Hrem.
      unfold ProvInspector.apply_change, ProvInspector.new_revision_and_change, operators_of.
      run_change_folded. rewrite E. run_change_folded. rewrite Hrem. run_change_folded.
      rewrite Hrepo. cbn [List.filter last fmap option_fmap option_map].
      eexists _, _, _. split; [reflexivity|]. split; [reflexivity|].
      open_change_document. count_relations.
    - destruct s as [self ini lv lr rp ol cl nl uc imp w]. cbn [repo] in Hrepo.
      unfold ProvInspector.apply_change, ProvInspector.new_revision_and_change.
      run_change_folded. rewrite Hrepo. cbn [List.filter last fmap option_fmap option_map].
      eexists _, _, _. split; [reflexivity|]. split; [reflexivity|].
      open_change_document. count_relations.
    - destruct s as [self ini lv lr rp ol cl nl uc imp w]. cbn [repo] in Hrepo.
      unfold ProvInspector.apply_change, ProvInspector.new_revision_and_change.
      run_change_folded. rewrite Hrepo. cbn [List.filter last fmap option_fmap option_map].
      eexists _, _, _. split; [reflexivity|]. split; [reflexivity|].
      open_change_document. count_relations. }
  destruct G as (s1 & r1 & doc & Hrun & Hi & Hc).
  rewrite Hrun in H. injection H as <- _. eauto.
Qed.

(** Creating a second operator on the initialized translator. *)
Lemma change_documents_never_link_changes_witness :
  exists s' r doc,
    ProvInspector.apply_change demo_runtime 1%Q demo_genesis_revision
      (OperatorCreationPipelineChangeData "c2" 8 "map" []) initialized_demo
    = (s', inr r)
    /\ imported s' = imported initialized_demo ++ [doc]
    /\ count_relations_of PROV_COMMUNICATION doc = 0%nat.
Proof.
  destruct (apply_operator_creation demo_runtime 1%Q demo_genesis_revision "c2" 8 "map" []
              initialized_demo) as (s' & r & doc0 & Hrun & _).
  destruct (change_documents_never_link_changes demo_runtime 1%Q demo_genesis_revision
              (OperatorCreationPipelineChangeData "c2" 8 "map" []) initialized_demo s' r
              eq_refl Hrun) as (doc & Hi & Hc).
  exists s', r, doc. exact (conj Hrun (conj Hi Hc)).
Defined.

(** X17. When a new branch is opened and the uuid drawn for its genesis
    revision is not the uuid of a revision whose creation is stored (a fresh
    uuid), the lookup of the parent creation, which asks for the creation of
    the new genesis revision itself, finds nothing. The creation filed for
    the branch has no parent creation uuid, the imported document is the
    creation sub-model built without a parent creation, it has no
    communication relation, and its only derivation is the one from the
    genesis revision to the parent revision: no relation ties the new
    pipeline version to the parent pipeline version. *)
Theorem new_branch_creation_is_not_linked_to_the_parent_creation
    (rt : Runtime) (data : DebugStepData.t) (t : datetime) (s : State)
    (parent_version : PipelineVersion.t) (R : PipelineVersionRevision.t) :
  (initialized s = true \/ repo s TPipelineVersion <> []) ->
  stored_version s (DebugStepData.branch_id data) = None ->
  stored_parent s data = Some parent_version ->
  last (revisions_of s parent_version) = Some R ->
  (forall c, In c (repo s TPipelineVersionCreation) ->
     PipelineVersionRevision.uuid (PipelineVersionCreation.pipeline_version_revision c)
     <> uuid4 rt (uuid_count s)) ->
  exists s' creation doc,
    fst (ProvInspector.resolve_branch rt data t s) = s'
    /\ repo s' TPipelineVersionCreation = repo s TPipelineVersionCreation ++ [creation]
    /\ PipelineVersionCreation.parent_pipeline_version_creation_uuid creation = None
    /\ imported s' = imported s ++ [doc]
    /\ PipelineVersionCreationModel.build rt s' creation (Some R) None = inr doc
    /\ count_relations_of PROV_COMMUNICATION doc = 0%nat
    /\ count_relations_of PROV_DERIVATION doc = 1%nat.
Proof.
  intros Hgen Hb Hp HR Hfresh.
  destruct (resolve_new_branch rt data t s parent_version R Hgen Hb Hp HR)
    as (s' & doc & Hrun & _ & _ & _ & _ & Himp & _ & _ & _ & _ & _ & _ & _ & Hcr & Hdoc).
  rewrite find_none_all in Hcr, Hdoc.
  2, 3: intros c Hc; unfold PipelineVersionRevision_eqb;
        cbn [PipelineVersionRevision.uuid];
        rewrite (bool_decide_eq_false_2 _ (Hfresh c Hc)); reflexivity.
  cbn [fmap option_fmap option_map] in Hcr, Hdoc.
  eexists s', _, doc. split; [rewrite Hrun; reflexivity|].
  split; [exact Hcr|]. split; [reflexivity|]. split; [exact Himp|]. split; [exact Hdoc|].
  unfold PipelineVersionCreationModel.build in Hdoc. injection Hdoc as <-.
  open_document. split; count_relations.
Qed.

(** Opening branch 1 from branch 0 on the initialized translator. *)
Lemma new_branch_creation_is_not_linked_to_the_parent_creation_witness :
  exists s' creation doc,
    fst (ProvInspector.resolve_branch demo_runtime branch_step 1%Q initialized_demo) = s'
    /\ repo s' TPipelineVersionCreation
       = repo initialized_demo TPipelineVersionCreation ++ [creation]
    /\ PipelineVersionCreation.parent_pipeline_version_creation_uuid creation = None
    /\ imported s' = imported initialized_demo ++ [doc]
    /\ count_relations_of PROV_DERIVATION doc = 1%nat.
Proof.
  destruct (new_branch_creation_is_not_linked_to_the_parent_creation demo_runtime
              branch_step 1%Q initialized_demo (PipelineVersion.mk 0 None)
              demo_genesis_revision)
    as (s' & creation & doc & H1 & H2 & H3 & H4 & _ & _ & H7).
  - left. reflexivity.
  - vm_compute. reflexivity.
  - vm_compute. reflexivity.
  - vm_compute. reflexivity.
  - intros c Hc. vm_compute in Hc. destruct Hc as [<- | []]. vm_compute. discriminate.
  - exists s', creation, doc. exact (conj H1 (conj H2 (conj H3 (conj H4 H7)))).
Defined.

(** ** Documents imported by one step *)

Lemma apply_change_imports rt t parent c s s' res :
  ProvInspector.apply_change rt t parent c s = (s', res) ->
  match res with
  | inr _ => exists doc, imported s' = imported s ++ [doc]
  | inl _ => imported s' = imported s
  end.
Proof.
  intros H.
  destruct c as [id oid name data | id oid name cp cv | id oid name
                | id cid f t' fs ts | id cid f t' fs ts].
  - destruct (apply_operator_creation rt t parent id oid name data s)
      as (s1 & r1 & doc & Hrun & _ & _ & _ & _ & Hi).
    rewrite Hrun in H. injection H as <- <-. eauto.
  - destruct (next_operator_revision (Operator.mk oid name) (operators_of s parent))
      as [e | d] eqn:E.
    + rewrite (apply_operator_modification_raises _ _ _ _ _ _ _ _ _ _ E) in H.
      injection H as <- <-. reflexivity.
    + destruct (apply_operator_modification rt t parent id oid name cp cv s d E)
        as (s1 & r1 & doc & Hrun & _ & _ & _ & _ & Hi).
      rewrite Hrun in H. injection H as <- <-. eauto.
  - destruct (next_operator_revision (Operator.mk oid name) (operators_of s parent))
      as [e | d] eqn:E.
    + rewrite (apply_operator_deletion_raises _ _ _ _ _ _ _ _ E) in H.
      injection H as <- <-. reflexivity.
    + destruct (apply_operator_deletion rt t parent id oid name s d E)
        as (s1 & r1 & doc & pre & post & Hrun & _ & _ & _ & _ & _ & _ & Hi).
      rewrite Hrun in H. injection H as <- <-. eauto.
  - destruct (apply_connection_creation rt t parent id cid f t' fs ts s)
      as (s1 & r1 & doc & Hrun & _ & _ & _ & _ & Hi).
    rewrite Hrun in H. injection H as <- <-. eauto.
  - destruct (apply_connection_deletion rt t parent id cid f t' fs ts s)
      as (s1 & r1 & doc & Hrun & _ & _ & _ & _ & Hi).
    rewrite Hrun in H. injection H as <- <-. eauto.
Qed.

Lemma change_loop_imports rt t parent changes s s' :
  change_loop rt t parent changes s = (s', inr tt) ->
  exists docs,
    imported s' = imported s ++ docs
    /\ length docs = length (default [] changes).
Proof.
  destruct changes as [cs |]; cbn [change_loop default].
  - revert s. induction cs as [| c cs IH]; intros s H.
    + cbn in H. injection H as <-. exists []. rewrite app_nil_r. auto.
    + cbn -[ProvInspector.apply_change] in H.
      destruct (ProvInspector.apply_change rt t parent c s) as [s1 [e | r]] eqn:E;
        [discriminate H|].
      apply apply_change_imports in E. destruct E as [doc E].
      destruct (IH _ H) as (docs & Hd & Hlen).
      exists (doc :: docs). rewrite Hd, E, <- app_assoc. split; [reflexivity|].
      cbn [length]. rewrite Hlen. reflexivity.
  - intros H. cbn in H. injection H as <-. exists []. rewrite app_nil_r. auto.
Qed.

(** X19. A step on a stored branch that [update] completes: the parent
    revision is the one the branch lookup resolves; exactly one document is
    imported per change of the step, in order, followed by one for the
    execution when the step carries a metrics list; the documents imported
    earlier are kept in front; the cached ids become the id of the branch
    and the sequence id of the parent revision; nothing is filed in the
    repository and the flag is not touched. *)
Theorem update_on_a_stored_branch_imports_one_document_per_event
    (rt : Runtime) (data : DebugStepData.t) (s s' : State) (pv : PipelineVersion.t) :
  stored_version s (DebugStepData.branch_id data) = Some pv ->
  ProvInspector.update rt data s = (s', inr tt) ->
  exists parent docs,
    ProvInspector.resolve_branch rt data (fromtimestamp (DebugStepData.timestamp data)) s
    = (s, inr (pv, Some parent))
    /\ PipelineVersion.id_ pv = DebugStepData.branch_id data
    /\ imported s' = imported s ++ docs
    /\ length docs
       = (length (default [] (DebugStepData.changes data))
          + match DebugStepData.operator_metrics data with Some _ => 1 | None => 0 end)%nat
    /\ last_pipeline_version_id s' = DebugStepData.branch_id data
    /\ last_pipeline_version_revision_id s' = PipelineVersionRevision.id_ parent
    /\ repo s' = repo s
    /\ initialized s' = initialized s.
Proof.
  intros Hb H.
  assert (Hid : PipelineVersion.id_ pv = DebugStepData.branch_id data).
  { unfold stored_version in Hb. apply find_some in Hb. destruct Hb as [_ Hb].
    apply bool_decide_eq_true in Hb. exact Hb. }
  pose proof (resolve_stored_branch rt data (fromtimestamp (DebugStepData.timestamp data))
                s pv Hb) as Hrun.
  set (resolved := if bool_decide (last_pipeline_version_id s = DebugStepData.branch_id data)
                   then _ else _) in Hrun.
  assert (Hres : resolved = inl IndexError \/ exists o, resolved = inr (pv, o)).
  { subst resolved. destruct (bool_decide _); [right; eauto|].
    destruct (last _); [right; eauto | left; reflexivity]. }
  clearbody resolved.
  rewrite update_run in H. cbv zeta in H. rewrite Hrun in H.
  destruct Hres as [-> | [o ->]]; [discriminate H|].
  destruct o as [parent |]; [| discriminate H].
  exists parent.
  destruct (change_loop rt _ parent (DebugStepData.changes data) _) as [s3 [e | []]] eqn:E3;
    [discriminate H|].
  destruct (change_loop_frame _ _ _ _ _ _ _ E3) as ((R3 & _ & I3 & L3 & L3' & _) & _).
  destruct (change_loop_imports _ _ _ _ _ _ E3) as (docs & Hd & Hlen).
  cbn in R3, I3, L3, L3', Hd.
  destruct (DebugStepData.operator_metrics data) as [ms |].
  - destruct (apply_execution_frame _ _ _ _ _ _ _ _ H) as ((R4 & _ & I4 & L4 & L4' & _) & _).
    assert (Hd4 : exists doc, imported s' = imported s3 ++ [doc]).
    { destruct (next_operator_revision
                  (Operator.mk (DebugStepData.operator_id data)
                     (DebugStepData.operator_name data))
                  (operators_of s3 parent)) as [e | d] eqn:E.
      - rewrite (apply_execution_raises rt data (fromtimestamp (DebugStepData.timestamp data))
                   parent ms s3 e E) in H. discriminate H.
      - destruct (apply_execution_ok rt data (fromtimestamp (DebugStepData.timestamp data))
                    parent ms s3 d E) as (s4 & Hrun4 & Hi4 & _).
        rewrite Hrun4 in H. injection H as <-. eauto. }
    destruct Hd4 as [doc Hd4].
    exists (docs ++ [doc]). split; [exact Hrun|]. split; [exact Hid|].
    split; [rewrite Hd4, Hd, <- app_assoc; reflexivity|].
    split; [rewrite length_app, Hlen; reflexivity|].
    split; [rewrite L4, L3; exact Hid|]. split; [rewrite L4', L3'; reflexivity|].
    split; [rewrite R4, R3; reflexivity | rewrite I4, I3; reflexivity].
  - injection H as <-.
    exists docs. split; [exact Hrun|]. split; [exact Hid|].
    split; [exact Hd|]. split; [rewrite Hlen; lia|].
    split; [rewrite L3; exact Hid|]. split; [exact L3'|].
    split; [exact R3 | exact I3].
Qed.

(** The step that creates a second operator on the initialized translator. *)
Lemma update_on_a_stored_branch_imports_one_document_per_event_witness :
  exists s' docs,
    ProvInspector.update demo_runtime creation_step initialized_demo = (s', inr tt)
    /\ imported s' = imported initialized_demo ++ docs
    /\ length docs = 1%nat.
Proof.
  assert (Hrun : exists s', ProvInspector.update demo_runtime creation_step initialized_demo
                            = (s', inr tt)) by (eexists; vm_compute; reflexivity).
  destruct Hrun as [s' Hrun].
  destruct (update_on_a_stored_branch_imports_one_document_per_event demo_runtime
              creation_step initialized_demo s' (PipelineVersion.mk 0 None)
              ltac:(vm_compute; reflexivity) Hrun)
    as (parent & docs & _ & _ & Hd & Hlen & _).
  exists s', docs. exact (conj Hrun (conj Hd Hlen)).
Defined.



(** ** A step before the initialization *)



(** ** A change that fails *)





